(** * taxi-analytics: the parquet-to-ClickHouse uploader, embedded in Rocq

    A shallow embedding of [src/taxi_python/uploader.py]: the two category
    transformers ([YellowTaxiUploader.transform_batch],
    [GreenTaxiUploader.transform_batch]), the per-file load loop
    ([TaxiDataUploader.upload_file]), the run driver ([upload_all_files])
    and the run summary ([display_summary]).

    Floating-point columns are IEEE-754 values ([spec_float] of the Standard
    Library, with NumPy's float32 as the (24,128) format and float64 as the
    (53,1024) format), so that narrowing, division, NaN and the comparisons
    of the quality filter behave as they do in NumPy.

    The wall-clock time of a run, which [display_summary] divides by, is an
    input of [upload_all_files]; the per-file timings, the rates derived
    from them and the console output are not part of the model. *)

From Stdlib Require Import ZArith List Ascii String Bool Lia Sorted.
From Stdlib Require Import SpecFloat.
Import ListNotations.
Local Open Scope string_scope.
Local Open Scope Z_scope.
Local Open Scope list_scope.

Set Implicit Arguments.

(* ================================================================== *)
(** * Part I: definitions *)
(* ================================================================== *)

(** ** NumPy floats *)

Definition float64 := spec_float.
Definition float32 := spec_float.

Definition is_nan (x : spec_float) : bool :=
  match x with S754_nan => true | _ => false end.

(** [a > b], [a < b], [a <= b] on arrays: false as soon as one side is NaN. *)
Definition gt (a b : spec_float) : bool := SFltb b a.
Definition lt (a b : spec_float) : bool := SFltb a b.
Definition le (a b : spec_float) : bool := SFleb a b.

Module F64.
Definition prec : Z := 53.
Definition emax : Z := 1024.
Definition nan : float64 := S754_nan.
(** A Python [int] or an int64 cell used as a float64 operand. *)
Definition of_Z (z : Z) : float64 := binary_normalize prec emax z 0 false.
Definition div (x y : float64) : float64 := SFdiv prec emax x y.
Definition zero : float64 := S754_zero false.
Definition half : float64 := binary_normalize prec emax 1 (-1) false.
Definition c60 : float64 := of_Z 60.
Definition c100 : float64 := of_Z 100.
Definition c480 : float64 := of_Z 480.
End F64.

Module F32.
Definition prec : Z := 24.
Definition emax : Z := 128.
Definition of_Z (z : Z) : float32 := binary_normalize prec emax z 0 false.
Definition div (x y : float32) : float32 := SFdiv prec emax x y.
Definition mul (x y : float32) : float32 := SFmul prec emax x y.
Definition zero : float32 := S754_zero false.
Definition c100 : float32 := of_Z 100.
Definition c200 : float32 := of_Z 200.
Definition c1000 : float32 := of_Z 1000.
End F32.

(** [Series.astype('float32')] on a float64 column: round to nearest even,
    overflow to infinity; NaN, infinities and signed zeros are kept. *)
Definition astype_float32 (x : float64) : float32 :=
  match x with
  | S754_finite s m e => binary_round F32.prec F32.emax s m e
  | _ => x
  end.

(** The implicit widening of a float32 operand that meets a float64 one:
    exact, the mantissa is re-aligned on 53 bits. *)
Definition float32_to_float64 (x : float32) : float64 :=
  match x with
  | S754_finite s m e =>
      let '(mz, ez) :=
        shl_align m e (fexp F64.prec F64.emax (Zpos (digits2_pos m) + e)) in
      S754_finite s mz ez
  | _ => x
  end.

(** [np.maximum] and [np.minimum]: the first operand wins when it is NaN or
    when the comparison holds; [ndarray.clip(lo, hi)] is
    [minimum(maximum(x, lo), hi)]. *)
Definition np_maximum (a b : spec_float) : spec_float :=
  if is_nan a || le b a then a else b.

Definition np_minimum (a b : spec_float) : spec_float :=
  if is_nan a || le a b then a else b.

Definition clip (x lo hi : spec_float) : spec_float :=
  np_minimum (np_maximum x lo) hi.

(** [np.where(cond, x, y)], one element: both branches are evaluated. *)
Definition np_where {A : Type} (cond : bool) (x y : A) : A :=
  if cond then x else y.

(** The order of the floats as propositions: nothing compares with NaN. *)
Definition FLt (a b : spec_float) : Prop := SFcompare a b = Some Lt.
Definition FLe (a b : spec_float) : Prop :=
  SFcompare a b = Some Lt \/ SFcompare a b = Some Eq.

(** A closed interval of floats: NaN is in no interval. *)
Definition in_range (lo hi x : spec_float) : Prop := FLe lo x /\ FLe x hi.

(** ** Exceptions and results *)

Inductive Exn : Type :=
| KeyError (column : string)
| IntCastingNaNError (column : string)
| ValueError (column : string)
| OverflowError
| ZeroDivisionError
| NotImplementedError
| SourceReadError (msg : string)
| ClientError (msg : string).

Inductive Result (A : Type) : Type :=
| Ok (a : A)
| Raise (e : Exn).
Arguments Ok {A} a.
Arguments Raise {A} e.

Definition bind {A B : Type} (r : Result A) (k : A -> Result B) : Result B :=
  match r with
  | Ok a => k a
  | Raise e => Raise e
  end.

Notation "x <- r ;; k" := (bind r (fun x => k))
  (at level 61, r at next level, right associativity).
Notation "r ;;; k" := (bind r (fun _ => k))
  (at level 61, right associativity).

(** ** Data frames

    A frame is its column labels, in order, and its rows.  A row is a record
    with one typed cell per logical column that the transformers read or
    write; the labels say under which spelling each column arrived.  Columns
    that no transformer mentions are carried along untouched and are left
    out.  Nullable integer and string cells are [option]s ([None] is
    null/NaN), float cells hold NaN for null, timestamps are int64 counts of
    microseconds since the epoch (the unit of the parquet files, which
    [to_pandas] keeps) with [None] for NaT. *)

Record DataFrame (R : Type) : Type := mkFrame {
  columns : list string;
  rows : list R
}.

(** [len(df)] *)
Definition len {R : Type} (df : DataFrame R) : Z := Z.of_nat (List.length (rows df)).

Module Raw.
Record Row : Type := mkRow {
  pickup_datetime : option Z;
  dropoff_datetime : option Z;
  passenger_count : option Z;
  trip_distance : float64;
  RatecodeID : option Z;
  store_and_fwd_flag : option string;
  PULocationID : option Z;
  DOLocationID : option Z;
  payment_type : option Z;
  fare_amount : float64;
  extra : float64;
  mta_tax : float64;
  tip_amount : float64;
  tolls_amount : float64;
  improvement_surcharge : float64;
  total_amount : float64;
  congestion_surcharge : float64;
  Airport_fee : float64
}.
End Raw.

Module Clean.
Record Row : Type := mkRow {
  pickup_datetime : option Z;
  dropoff_datetime : option Z;
  passenger_count : Z;
  trip_distance : float32;
  RatecodeID : Z;
  store_and_fwd_flag : option bool;
  PULocationID : Z;
  DOLocationID : Z;
  payment_type : Z;
  fare_amount : float32;
  extra : spec_float;
  mta_tax : spec_float;
  tip_amount : float32;
  tolls_amount : spec_float;
  improvement_surcharge : spec_float;
  total_amount : float32;
  congestion_surcharge : float32;
  Airport_fee : spec_float;
  trip_duration_minutes : float64;
  pickup_hour : Z;
  pickup_day_of_week : Z;
  pickup_date : option Z;
  tip_percentage : float32;
  avg_speed_mph : float32
}.
End Clean.

Definition RawBatch := DataFrame Raw.Row.
Definition CleanBatch := DataFrame Clean.Row.

(** ** Pandas primitives used by the transformers *)

(** A [dict] literal with string keys, in insertion order. *)
Definition dict (V : Type) := list (string * V).

Fixpoint dict_lookup {V : Type} (d : dict V) (k : string) : option V :=
  match d with
  | [] => None
  | (k', v) :: d' => if String.eqb k' k then Some v else dict_lookup d' k
  end.

(** [d.get(k, default)] *)
Definition dict_get {V : Type} (d : dict V) (k : string) (default : V) : V :=
  match dict_lookup d k with
  | Some v => v
  | None => default
  end.

(** [col in df.columns] *)
Definition col_in (col : string) (cols : list string) : bool :=
  existsb (String.eqb col) cols.

(** [df[col]] on a frame without that label raises [KeyError]. *)
Definition getitem (cols : list string) (col : string) : Result unit :=
  if col_in col cols then Ok tt else Raise (KeyError col).

(** [df[col] = ...]: an existing label keeps its place, a new one is
    appended. *)
Definition setitem (cols : list string) (col : string) : list string :=
  if col_in col cols then cols else cols ++ [col].

(** [Series.fillna(v)] on a nullable cell and on a float cell. *)
Definition fillna {A : Type} (v : A) (cell : option A) : option A :=
  match cell with
  | Some a => Some a
  | None => Some v
  end.

Definition fillna_float (v : float64) (cell : float64) : float64 :=
  if is_nan cell then v else cell.

(** [Series.map(d)] with a dict: a value that is not a key, null included,
    becomes NaN. *)
Definition series_map {V : Type} (d : dict V) (cell : option string) : option V :=
  match cell with
  | Some s => dict_lookup d s
  | None => None
  end.

Definition is_null {A : Type} (cell : option A) : bool :=
  match cell with Some _ => false | None => true end.

(** The dtype under which an integer column of a row group reaches pandas:
    [table.to_pandas()] keeps it int64 when no cell is null, and makes it
    float64, with NaN for null, as soon as one cell is.  (The integer
    columns that pandas derives from a timestamp are int32 and are cast
    as the int64 ones.) *)
Inductive Dtype : Type := Int64 | Float64.

Definition holds_null {R : Type} (cell : R -> option Z) (rs : list R) : bool :=
  existsb (fun r => is_null (cell r)) rs.

Definition dtype_of {R : Type} (cell : R -> option Z) (rs : list R) : Dtype :=
  if holds_null cell rs then Float64 else Int64.

(** [Series.astype('uintN')] without a default: the whole column fails on
    a null cell. *)
Definition astype_uint_check {R : Type} (col : string) (cell : R -> option Z)
    (rs : list R) : Result unit :=
  if holds_null cell rs
  then Raise (IntCastingNaNError col)
  else Ok tt.

Definition is_negative (cell : option Z) : bool :=
  match cell with Some z => z <? 0 | None => false end.

(** [Series.fillna(v).astype('uintN')]: a column that held a null is
    float64 also after the filling, and the cast of a float64 column to an
    unsigned type fails as soon as one value is negative.  An int64 column
    is cast without a check. *)
Definition fillna_astype_uint_check {R : Type} (col : string) (v : Z)
    (cell : R -> option Z) (rs : list R) : Result unit :=
  if holds_null cell rs && existsb (fun r => is_negative (fillna v (cell r))) rs
  then Raise (ValueError col)
  else Ok tt.

(** The conversion of a non-negative float64 to uintN in NumPy's cast loop
    as compiled for x86-64: the value goes through a 32-bit integer, of
    which the low N bits are kept; from 2^31 on the 32-bit conversion gives
    the pattern 0x80000000, whose low bits are 0.  (An int64 beyond 2^53 is
    rounded when the column becomes float64, which does not move it across
    2^31.) *)
Definition float64_to_uint (bits z : Z) : Z :=
  if z <? 2 ^ 31 then z mod 2 ^ bits else 0.

(** One cell of [astype('uintN')] on a column of the given dtype: the
    integers of an int64 column wrap modulo 2^N. *)
Definition astype_uint (dtype : Dtype) (bits : Z) (cell : option Z) : Z :=
  match cell with
  | Some z =>
      match dtype with
      | Int64 => z mod 2 ^ bits
      | Float64 => float64_to_uint bits z
      end
  | None => 0     (* excluded by the checks *)
  end.

(** [if col in df.columns: df[col] = df[col].astype('float32')] *)
Definition astype_float32_if (present : bool) (x : float64) : spec_float :=
  if present then astype_float32 x else x.

Definition int64_min : Z := - 2 ^ 63.
Definition int64_max : Z := 2 ^ 63 - 1.

Definition in_int64 (z : Z) : bool := (int64_min <=? z) && (z <=? int64_max).

(** Timestamp arithmetic: [dropoff - pickup] is NaT when either side is;
    the int64 counts are subtracted with an overflow check, which raises
    for the whole column, and a difference that is the bit pattern of NaT
    reads as NaT.  [.dt.total_seconds()] divides the microsecond count by
    10^6 in float64 and turns NaT into NaN. *)
Definition overflows (a b : option Z) : bool :=
  match a, b with
  | Some x, Some y => negb (in_int64 (x - y))
  | _, _ => false
  end.

Definition timedelta_check {R : Type} (a b : R -> option Z) (rs : list R)
    : Result unit :=
  if existsb (fun r => overflows (a r) (b r)) rs
  then Raise OverflowError
  else Ok tt.

Definition timedelta (a b : option Z) : option Z :=
  match a, b with
  | Some x, Some y => if x - y =? int64_min then None else Some (x - y)
  | _, _ => None
  end.

Definition total_seconds (td : option Z) : float64 :=
  match td with
  | Some us => F64.div (F64.of_Z us) (F64.of_Z 1000000)
  | None => F64.nan
  end.

Definition us_per_hour : Z := 3600000000.
Definition us_per_day : Z := 86400000000.

(** [.dt.hour], [.dt.dayofweek] (Monday is 0; the epoch was a Thursday) and
    [.dt.date] as days since the epoch. *)
Definition dt_hour (us : Z) : Z := (us / us_per_hour) mod 24.
Definition dt_dayofweek (us : Z) : Z := (us / us_per_day + 3) mod 7.
Definition dt_date (us : Z) : Z := us / us_per_day.

Definition of_timestamp (f : Z -> Z) (cell : option Z) : option Z :=
  match cell with
  | Some us => Some (f us)
  | None => None
  end.

(** [.dt.date] builds a [datetime.date] per cell, which exists from
    0001-01-01 to 9999-12-31 only; NaT stays NaT. *)
Definition date_min : Z := -719162.
Definition date_max : Z := 2932896.

Definition no_date (cell : option Z) : bool :=
  match cell with
  | Some us => negb ((date_min <=? dt_date us) && (dt_date us <=? date_max))
  | None => false
  end.

Definition dt_date_check {R : Type} (col : string) (cell : R -> option Z)
    (rs : list R) : Result unit :=
  if existsb (fun r => no_date (cell r)) rs
  then Raise (ValueError col)
  else Ok tt.

(** ** Steps shared by the two transformers

    The source repeats these lines verbatim in both [transform_batch]
    bodies; the embedding names them once. *)

(** [df.columns = [column_mappings.get(col, col) for col in df.columns]] *)
Definition rename_columns (column_mappings : dict string)
    (cols : list string) : list string :=
  map (fun col => dict_get column_mappings col col) cols.

(** [df.rename(columns={old_name: new_name})] on the labels. *)
Definition rename (old_name new_name : string) (cols : list string)
    : list string :=
  map (fun col => if String.eqb col old_name then new_name else col) cols.

(** [TaxiDataUploader._standardize_columns]: one [rename] per item of the
    mapping, in insertion order, when the old label is present. *)
Fixpoint _standardize_columns (cols : list string) (mappings : dict string)
    : list string :=
  match mappings with
  | [] => cols
  | (old_name, new_name) :: rest =>
      _standardize_columns
        (if col_in old_name cols then rename old_name new_name cols else cols)
        rest
  end.

(** [np.where(fare > 0, tip / fare * 100, 0.0).clip(0, 100).astype('float32')]
    on float32 operands: the product is already a float32, which the final
    cast leaves as it is. *)
Definition tip_percentage_of (fare tip : float32) : float32 :=
  clip (np_where (gt fare F32.zero) (F32.mul (F32.div tip fare) F32.c100) F32.zero)
       F32.zero F32.c100.

(** [np.where(duration > 0, distance / (duration / 60), 0.0)
      .clip(0, 100).astype('float32')]: the float32 distance meets the
    float64 duration, so the quotient and the clip are in float64. *)
Definition avg_speed_mph_of (distance : float32) (duration : float64) : float32 :=
  astype_float32
    (clip (np_where (gt duration F64.zero)
             (F64.div (float32_to_float64 distance) (F64.div duration F64.c60))
             F64.zero)
          F64.zero F64.c100).

(** [(dropoff - pickup).dt.total_seconds() / 60] *)
Definition trip_duration_minutes_of (pickup dropoff : option Z) : float64 :=
  F64.div (total_seconds (timedelta dropoff pickup)) F64.c60.

(** The boolean mask of the data quality filter, one row. *)
Definition quality_mask (r : Clean.Row) : bool :=
  gt (Clean.trip_distance r) F32.zero &&
  lt (Clean.trip_distance r) F32.c200 &&
  gt (Clean.trip_duration_minutes r) F64.half &&
  le (Clean.trip_duration_minutes r) F64.c480 &&
  gt (Clean.fare_amount r) F32.zero &&
  lt (Clean.fare_amount r) F32.c1000 &&
  gt (Clean.total_amount r) F32.zero &&
  lt (Clean.total_amount r) F32.c1000.

(** [df = df[mask].copy()] *)
Definition quality_filter (df : CleanBatch) : CleanBatch :=
  mkFrame (columns df) (filter quality_mask (rows df)).

(** The labels after the six derived columns have been assigned. *)
Definition derived_columns (cols : list string) : list string :=
  fold_left setitem
    ["trip_duration_minutes"; "pickup_hour"; "pickup_day_of_week";
     "pickup_date"; "tip_percentage"; "avg_speed_mph"]
    cols.

(** The flag dictionary [{'Y': True, 'N': False}]. *)
Definition flag_codes : dict bool := [("Y", true); ("N", false)].

(** ** [YellowTaxiUploader] *)

Module YellowTaxiUploader.
Definition table_name : string := "yellow_taxi_trips".

Definition column_mappings : dict string :=
  [ ("tpep_pickup_datetime", "tpep_pickup_datetime");
    ("tpep_dropoff_datetime", "tpep_dropoff_datetime");
    ("Airport_fee", "Airport_fee");
    ("airport_fee", "Airport_fee");
    ("Congestion_Surcharge", "congestion_surcharge");
    ("congestion_surcharge", "congestion_surcharge");
    ("RatecodeID", "RatecodeID");
    ("Ratecodeid", "RatecodeID");
    ("store_and_fwd_flag", "store_and_fwd_flag") ].

(** [.map({'Y': True, 'N': False}).fillna(False)] *)
Definition flag (cell : option string) : option bool :=
  fillna false (series_map flag_codes cell).

(** The statements that can raise, in the order of the source. *)
Definition checks (cols : list string) (rs : list Raw.Row) : Result unit :=
  getitem cols "passenger_count" ;;;
  fillna_astype_uint_check "passenger_count" 1 Raw.passenger_count rs ;;;
  getitem cols "RatecodeID" ;;;
  fillna_astype_uint_check "RatecodeID" 1 Raw.RatecodeID rs ;;;
  getitem cols "store_and_fwd_flag" ;;;
  getitem cols "congestion_surcharge" ;;;
  getitem cols "Airport_fee" ;;;
  getitem cols "PULocationID" ;;;
  astype_uint_check "PULocationID" Raw.PULocationID rs ;;;
  getitem cols "DOLocationID" ;;;
  astype_uint_check "DOLocationID" Raw.DOLocationID rs ;;;
  getitem cols "payment_type" ;;;
  astype_uint_check "payment_type" Raw.payment_type rs ;;;
  getitem cols "tpep_dropoff_datetime" ;;;
  getitem cols "tpep_pickup_datetime" ;;;
  timedelta_check Raw.dropoff_datetime Raw.pickup_datetime rs ;;;
  astype_uint_check "tpep_pickup_datetime" Raw.pickup_datetime rs ;;;
  dt_date_check "tpep_pickup_datetime" Raw.pickup_datetime rs ;;;
  getitem cols "fare_amount" ;;;
  getitem cols "tip_amount" ;;;
  getitem cols "trip_distance" ;;;
  getitem cols "total_amount".

(** One row of the batch [rs], from the dtype conversions to the derived
    columns. *)
Definition clean_row (cols : list string) (rs : list Raw.Row) (r : Raw.Row)
    : Clean.Row :=
  let f32 (col : string) (x : float64) := astype_float32_if (col_in col cols) x in
  let trip_distance := f32 "trip_distance" (Raw.trip_distance r) in
  let fare_amount := f32 "fare_amount" (Raw.fare_amount r) in
  let tip_amount := f32 "tip_amount" (Raw.tip_amount r) in
  let duration :=
    trip_duration_minutes_of (Raw.pickup_datetime r) (Raw.dropoff_datetime r) in
  {| Clean.pickup_datetime := Raw.pickup_datetime r;
     Clean.dropoff_datetime := Raw.dropoff_datetime r;
     Clean.passenger_count :=
       astype_uint (dtype_of Raw.passenger_count rs) 8
         (fillna 1 (Raw.passenger_count r));
     Clean.trip_distance := trip_distance;
     Clean.RatecodeID :=
       astype_uint (dtype_of Raw.RatecodeID rs) 8 (fillna 1 (Raw.RatecodeID r));
     Clean.store_and_fwd_flag := flag (Raw.store_and_fwd_flag r);
     Clean.PULocationID := astype_uint Int64 16 (Raw.PULocationID r);
     Clean.DOLocationID := astype_uint Int64 16 (Raw.DOLocationID r);
     Clean.payment_type := astype_uint Int64 8 (Raw.payment_type r);
     Clean.fare_amount := fare_amount;
     Clean.extra := f32 "extra" (Raw.extra r);
     Clean.mta_tax := f32 "mta_tax" (Raw.mta_tax r);
     Clean.tip_amount := tip_amount;
     Clean.tolls_amount := f32 "tolls_amount" (Raw.tolls_amount r);
     Clean.improvement_surcharge :=
       f32 "improvement_surcharge" (Raw.improvement_surcharge r);
     Clean.total_amount := f32 "total_amount" (Raw.total_amount r);
     Clean.congestion_surcharge :=
       f32 "congestion_surcharge"
         (fillna_float F64.zero (Raw.congestion_surcharge r));
     Clean.Airport_fee :=
       f32 "Airport_fee" (fillna_float F64.zero (Raw.Airport_fee r));
     Clean.trip_duration_minutes := duration;
     Clean.pickup_hour :=
       astype_uint Int64 8 (of_timestamp dt_hour (Raw.pickup_datetime r));
     Clean.pickup_day_of_week :=
       astype_uint Int64 8 (of_timestamp dt_dayofweek (Raw.pickup_datetime r));
     Clean.pickup_date := of_timestamp dt_date (Raw.pickup_datetime r);
     Clean.tip_percentage := tip_percentage_of fare_amount tip_amount;
     Clean.avg_speed_mph := avg_speed_mph_of trip_distance duration |}.

(** The frame just before the data quality filter. *)
Definition derived (df : RawBatch) : CleanBatch :=
  let cols := rename_columns column_mappings (columns df) in
  mkFrame (derived_columns cols) (map (clean_row cols (rows df)) (rows df)).

Definition transform_batch (df : RawBatch) : Result CleanBatch :=
  checks (rename_columns column_mappings (columns df)) (rows df) ;;;
  Ok (quality_filter (derived df)).
End YellowTaxiUploader.

(** ** [GreenTaxiUploader] *)

Module GreenTaxiUploader.
Definition table_name : string := "green_taxi_trips".

Definition column_mappings : dict string :=
  [ ("lpep_pickup_datetime", "lpep_pickup_datetime");
    ("lpep_dropoff_datetime", "lpep_dropoff_datetime");
    ("congestion_surcharge", "congestion_surcharge");
    ("RatecodeID", "RatecodeID");
    ("Ratecodeid", "RatecodeID");
    ("store_and_fwd_flag", "store_and_fwd_flag") ].

Definition columns_to_drop : list string := ["ehail_fee"].

(** [df.drop(columns=[col for col in columns_to_drop if col in df.columns],
             errors='ignore')] on the labels. *)
Definition drop (cols : list string) : list string :=
  filter (fun col => negb (col_in col columns_to_drop)) cols.

(** [.fillna('N').map({'Y': True, 'N': False})] *)
Definition flag (cell : option string) : option bool :=
  series_map flag_codes (fillna "N" cell).

Definition checks (cols : list string) (rs : list Raw.Row) : Result unit :=
  getitem cols "passenger_count" ;;;
  fillna_astype_uint_check "passenger_count" 1 Raw.passenger_count rs ;;;
  getitem cols "RatecodeID" ;;;
  fillna_astype_uint_check "RatecodeID" 1 Raw.RatecodeID rs ;;;
  getitem cols "store_and_fwd_flag" ;;;
  getitem cols "congestion_surcharge" ;;;
  getitem cols "PULocationID" ;;;
  astype_uint_check "PULocationID" Raw.PULocationID rs ;;;
  getitem cols "DOLocationID" ;;;
  astype_uint_check "DOLocationID" Raw.DOLocationID rs ;;;
  getitem cols "payment_type" ;;;
  fillna_astype_uint_check "payment_type" 0 Raw.payment_type rs ;;;
  getitem cols "lpep_dropoff_datetime" ;;;
  getitem cols "lpep_pickup_datetime" ;;;
  timedelta_check Raw.dropoff_datetime Raw.pickup_datetime rs ;;;
  astype_uint_check "lpep_pickup_datetime" Raw.pickup_datetime rs ;;;
  dt_date_check "lpep_pickup_datetime" Raw.pickup_datetime rs ;;;
  getitem cols "fare_amount" ;;;
  getitem cols "tip_amount" ;;;
  getitem cols "trip_distance" ;;;
  getitem cols "total_amount".

Definition clean_row (cols : list string) (rs : list Raw.Row) (r : Raw.Row)
    : Clean.Row :=
  let f32 (col : string) (x : float64) := astype_float32_if (col_in col cols) x in
  let trip_distance := f32 "trip_distance" (Raw.trip_distance r) in
  let fare_amount := f32 "fare_amount" (Raw.fare_amount r) in
  let tip_amount := f32 "tip_amount" (Raw.tip_amount r) in
  let duration :=
    trip_duration_minutes_of (Raw.pickup_datetime r) (Raw.dropoff_datetime r) in
  {| Clean.pickup_datetime := Raw.pickup_datetime r;
     Clean.dropoff_datetime := Raw.dropoff_datetime r;
     Clean.passenger_count :=
       astype_uint (dtype_of Raw.passenger_count rs) 8
         (fillna 1 (Raw.passenger_count r));
     Clean.trip_distance := trip_distance;
     Clean.RatecodeID :=
       astype_uint (dtype_of Raw.RatecodeID rs) 8 (fillna 1 (Raw.RatecodeID r));
     Clean.store_and_fwd_flag := flag (Raw.store_and_fwd_flag r);
     Clean.PULocationID := astype_uint Int64 16 (Raw.PULocationID r);
     Clean.DOLocationID := astype_uint Int64 16 (Raw.DOLocationID r);
     Clean.payment_type :=
       astype_uint (dtype_of Raw.payment_type rs) 8
         (fillna 0 (Raw.payment_type r));
     Clean.fare_amount := fare_amount;
     Clean.extra := f32 "extra" (Raw.extra r);
     Clean.mta_tax := f32 "mta_tax" (Raw.mta_tax r);
     Clean.tip_amount := tip_amount;
     Clean.tolls_amount := f32 "tolls_amount" (Raw.tolls_amount r);
     Clean.improvement_surcharge :=
       f32 "improvement_surcharge" (Raw.improvement_surcharge r);
     Clean.total_amount := f32 "total_amount" (Raw.total_amount r);
     Clean.congestion_surcharge :=
       f32 "congestion_surcharge"
         (fillna_float F64.zero (Raw.congestion_surcharge r));
     Clean.Airport_fee := Raw.Airport_fee r;
     Clean.trip_duration_minutes := duration;
     Clean.pickup_hour :=
       astype_uint Int64 8 (of_timestamp dt_hour (Raw.pickup_datetime r));
     Clean.pickup_day_of_week :=
       astype_uint Int64 8 (of_timestamp dt_dayofweek (Raw.pickup_datetime r));
     Clean.pickup_date := of_timestamp dt_date (Raw.pickup_datetime r);
     Clean.tip_percentage := tip_percentage_of fare_amount tip_amount;
     Clean.avg_speed_mph := avg_speed_mph_of trip_distance duration |}.

Definition derived (df : RawBatch) : CleanBatch :=
  let cols := drop (rename_columns column_mappings (columns df)) in
  mkFrame (derived_columns cols) (map (clean_row cols (rows df)) (rows df)).

Definition transform_batch (df : RawBatch) : Result CleanBatch :=
  checks (drop (rename_columns column_mappings (columns df))) (rows df) ;;;
  Ok (quality_filter (derived df)).
End GreenTaxiUploader.

(** ** [TaxiDataUploader]: the base class

    What a subclass fixes is its table and its [transform_batch]. *)

Record Uploader : Type := mkUploader {
  table_name : string;
  transform_batch : RawBatch -> Result CleanBatch
}.

Definition TaxiDataUploader (table : string) : Uploader :=
  {| table_name := table;
     transform_batch := fun _ => Raise NotImplementedError |}.

Definition yellow : Uploader :=
  {| table_name := YellowTaxiUploader.table_name;
     transform_batch := YellowTaxiUploader.transform_batch |}.

Definition green : Uploader :=
  {| table_name := GreenTaxiUploader.table_name;
     transform_batch := GreenTaxiUploader.transform_batch |}.

(** ** The outside world

    The ClickHouse client is an opaque state machine: an insertion or a
    query moves it to a new state and may raise.  Nothing is assumed about
    what a failed call leaves behind. *)

Inductive Query : Type :=
| SelectOne (table : string)       (* SELECT 1 FROM t LIMIT 1 *)
| CountRows (table : string)       (* SELECT COUNT( * ) FROM t *)
| DateStats (table : string).      (* SELECT MIN, MAX, COUNT(DISTINCT pickup_date) *)

Class ClickHouse (C : Type) : Type := {
  insert_df : C -> string -> CleanBatch -> C * option Exn;
  query : C -> Query -> C * option Exn
}.

(** A parquet file on disk: opening it may fail, and so may the reading of
    each of its row groups. *)
Record ParquetFile : Type := mkFile {
  file_name : string;
  getsize : Z;
  row_groups : Result (list (Result RawBatch))
}.

(** What a call does to the outside, in the order in which it does it.  The
    row-group index and the outcome are recorded with each step. *)
Inductive Event : Type :=
| EvOpen (file : string)
| EvReadRowGroup (file : string) (i : nat)
| EvTransform (file : string) (i : nat)
| EvInsert (table file : string) (i : nat) (df : CleanBatch) (ok : bool)
| EvQuery (q : Query) (ok : bool).

(** The dict returned by [upload_file]: the success shape and the error
    shape have different keys.  The file size is kept in bytes. *)
Module Metrics.
Record t : Type := mk {
  file : string;
  file_size : Z;
  rows_processed : Z;
  rows_uploaded : Z;
  rows_filtered : Z;
  batches_processed : Z
}.
End Metrics.

Module ErrorRecord.
Record t : Type := mk {
  file : string;
  error : Exn;
  rows_uploaded : Z
}.
End ErrorRecord.

Inductive FileResult : Type :=
| Success (m : Metrics.t)
| Failed (r : ErrorRecord.t).

(** ['error' in r] *)
Definition has_error (r : FileResult) : bool :=
  match r with Success _ => false | Failed _ => true end.

(** [r['file']] and [r['rows_uploaded']]: the two keys that both shapes have. *)
Definition result_file (r : FileResult) : string :=
  match r with Success m => Metrics.file m | Failed e => ErrorRecord.file e end.

Definition result_rows_uploaded (r : FileResult) : Z :=
  match r with
  | Success m => Metrics.rows_uploaded m
  | Failed e => ErrorRecord.rows_uploaded e
  end.

(** The local variables of [upload_file] that the loop updates. *)
Record Counters : Type := mkCounters {
  total_uploaded : Z;
  batch_count : Z;
  total_processed : Z
}.

Definition counters0 : Counters := mkCounters 0 0 0.

(** Where a loop stands when it ends or raises. *)
Record LoopEnd (C : Type) : Type := mkLoopEnd {
  raised : option Exn;
  counters : Counters;
  client : C;
  events : list Event
}.

(** ** [upload_file], [upload_all_files], [display_summary] *)

Section Upload.
Context {C : Type} `{ClickHouse C}.
Variable U : Uploader.

Definition loop_cons (ev : Event) (r : LoopEnd C) : LoopEnd C :=
  mkLoopEnd (raised r) (counters r) (client r) (ev :: events r).

(** The [for batch in self.process_parquet_in_batches(file_path)] loop:
    the generator reads row group [i] only when the loop asks for the
    next batch, that is after the body has finished with group [i-1]. *)
Fixpoint upload_batches (file : string) (i : nat)
    (groups : list (Result RawBatch)) (k : Counters) (c : C) : LoopEnd C :=
  match groups with
  | [] => mkLoopEnd None k c []
  | g :: rest =>
      loop_cons (EvReadRowGroup file i)
        match g with
        | Raise e => mkLoopEnd (Some e) k c []
        | Ok batch =>
            let k1 := mkCounters (total_uploaded k) (batch_count k)
                                 (total_processed k + len batch) in
            loop_cons (EvTransform file i)
              match transform_batch U batch with
              | Raise e => mkLoopEnd (Some e) k1 c []
              | Ok transformed_batch =>
                  if 0 <? len transformed_batch then
                    let '(c', err) :=
                      insert_df c (table_name U) transformed_batch in
                    loop_cons
                      (EvInsert (table_name U) file i transformed_batch
                                (is_null err))
                      match err with
                      | Some e => mkLoopEnd (Some e) k1 c' []
                      | None =>
                          upload_batches file (S i) rest
                            (mkCounters
                               (total_uploaded k1 + len transformed_batch)
                               (batch_count k1 + 1)
                               (total_processed k1))
                            c'
                      end
                  else upload_batches file (S i) rest k1 c
              end
        end
  end.

(** [upload_file]: whatever is raised inside the [try] ends the file with
    the error dict, which keeps [total_uploaded] as it stood. *)
Definition upload_file (f : ParquetFile) (c : C)
    : FileResult * C * list Event :=
  match row_groups f with
  | Raise e =>
      (Failed (ErrorRecord.mk (file_name f) e (total_uploaded counters0)),
       c, [EvOpen (file_name f)])
  | Ok groups =>
      let r := upload_batches (file_name f) 0 groups counters0 c in
      let k := counters r in
      (match raised r with
       | None =>
           Success (Metrics.mk (file_name f) (getsize f)
                      (total_processed k) (total_uploaded k)
                      (total_processed k - total_uploaded k)
                      (batch_count k))
       | Some e =>
           Failed (ErrorRecord.mk (file_name f) e (total_uploaded k))
       end,
       client r, EvOpen (file_name f) :: events r)
  end.

(** [results = [self.upload_file(file_path) for file_path in parquet_files]] *)
Fixpoint upload_files (files : list ParquetFile) (c : C)
    : list FileResult * C * list Event :=
  match files with
  | [] => ([], c, [])
  | f :: rest =>
      let '(r, c1, evs1) := upload_file f c in
      let '(rs, c2, evs2) := upload_files rest c1 in
      (r :: rs, c2, evs1 ++ evs2)
  end.

(** [sum(r[key] for r in results if 'error' not in r)] *)
Definition sum_successful (key : Metrics.t -> Z) (results : list FileResult) : Z :=
  fold_right
    (fun r acc => match r with Success m => key m + acc | Failed _ => acc end)
    0 results.

(** What [display_summary] prints. *)
Record RunSummary : Type := mkSummary {
  successful_files : Z;
  failed_files : Z;
  total_rows_processed : Z;
  total_rows_uploaded : Z;
  total_rows_filtered : Z
}.

Definition summarize (results : list FileResult) : RunSummary :=
  let total_rows_uploaded := sum_successful Metrics.rows_uploaded results in
  let total_rows_processed := sum_successful Metrics.rows_processed results in
  let successful_files := filter (fun r => negb (has_error r)) results in
  let failed_files := filter has_error results in
  {| successful_files := Z.of_nat (List.length successful_files);
     failed_files := Z.of_nat (List.length failed_files);
     total_rows_processed := total_rows_processed;
     total_rows_uploaded := total_rows_uploaded;
     total_rows_filtered := total_rows_processed - total_rows_uploaded |}.

(** [x / total_elapsed] with a Python float as divisor: a zero of either
    sign raises. *)
Definition is_zero (x : float64) : bool :=
  match x with S754_zero _ => true | _ => false end.

(** [display_summary]: the totals are printed, then the overall speed,
    whose division by the elapsed time raises [ZeroDivisionError] out of
    the function when the clock has not moved; then the verification
    queries inside their own [try], where a failure is only printed. *)
Definition display_summary (results : list FileResult)
    (total_elapsed : float64) (c : C)
    : RunSummary * option Exn * C * list Event :=
  if is_zero total_elapsed
  then (summarize results, Some ZeroDivisionError, c, [])
  else
    let '(c1, err1) := query c (CountRows (table_name U)) in
    match err1 with
    | Some _ =>
        (summarize results, None, c1,
         [EvQuery (CountRows (table_name U)) false])
    | None =>
        let '(c2, err2) := query c1 (DateStats (table_name U)) in
        (summarize results, None, c2,
         [EvQuery (CountRows (table_name U)) true;
          EvQuery (DateStats (table_name U)) (is_null err2)])
    end.

(** How [upload_all_files] ends.  [Completed] carries the results of the
    files, the totals that were printed, and the exception that
    [display_summary] raised after printing them, if any. *)
Inductive RunOutcome : Type :=
| NoFilesFound
| TableVerificationFailed (e : Exn)
| Completed (results : list FileResult) (summary : RunSummary)
            (raised_after : option Exn).

(** [upload_all_files], from the sorted list of the files that match the
    pattern and from [total_elapsed], the difference of the two readings
    of the clock around the loop over the files. *)
Definition upload_all_files (parquet_files : list ParquetFile)
    (total_elapsed : float64) (c : C)
    : RunOutcome * C * list Event :=
  match parquet_files with
  | [] => (NoFilesFound, c, [])
  | _ :: _ =>
      let '(c0, err) := query c (SelectOne (table_name U)) in
      match err with
      | Some e =>
          (TableVerificationFailed e, c0,
           [EvQuery (SelectOne (table_name U)) false])
      | None =>
          let '(results, c1, evs1) := upload_files parquet_files c0 in
          let '(summary, raised_after, c2, evs2) :=
            display_summary results total_elapsed c1 in
          (Completed results summary raised_after, c2,
           EvQuery (SelectOne (table_name U)) true :: evs1 ++ evs2)
      end
  end.
End Upload.

(** ** The two categories

    The main block picks the uploader from the taxi type. *)

Inductive Category : Type := Yellow | Green.

Definition uploader_of (cat : Category) : Uploader :=
  match cat with Yellow => yellow | Green => green end.

Definition derived_of (cat : Category) : RawBatch -> CleanBatch :=
  match cat with
  | Yellow => YellowTaxiUploader.derived
  | Green => GreenTaxiUploader.derived
  end.

Definition flag_of (cat : Category) : option string -> option bool :=
  match cat with
  | Yellow => YellowTaxiUploader.flag
  | Green => GreenTaxiUploader.flag
  end.

Definition column_mappings_of (cat : Category) : dict string :=
  match cat with
  | Yellow => YellowTaxiUploader.column_mappings
  | Green => GreenTaxiUploader.column_mappings
  end.

(** ** Vocabulary of the statements *)

(** The quality predicates in the words of the specification: distance in
    (0, 200), duration in (0.5, 480], fare in (0, 1000), total amount in
    (0, 1000). *)
Definition Quality (r : Clean.Row) : Prop :=
  FLt F32.zero (Clean.trip_distance r) /\
  FLt (Clean.trip_distance r) F32.c200 /\
  FLt F64.half (Clean.trip_duration_minutes r) /\
  FLe (Clean.trip_duration_minutes r) F64.c480 /\
  FLt F32.zero (Clean.fare_amount r) /\
  FLt (Clean.fare_amount r) F32.c1000 /\
  FLt F32.zero (Clean.total_amount r) /\
  FLt (Clean.total_amount r) F32.c1000.

(** A row that fails at least one of the eight comparisons. *)
Definition fails_some_predicate (r : Clean.Row) : bool :=
  negb (gt (Clean.trip_distance r) F32.zero) ||
  negb (lt (Clean.trip_distance r) F32.c200) ||
  negb (gt (Clean.trip_duration_minutes r) F64.half) ||
  negb (le (Clean.trip_duration_minutes r) F64.c480) ||
  negb (gt (Clean.fare_amount r) F32.zero) ||
  negb (lt (Clean.fare_amount r) F32.c1000) ||
  negb (gt (Clean.total_amount r) F32.zero) ||
  negb (lt (Clean.total_amount r) F32.c1000).

(** [Accepted P pre out]: [out] is [pre] with the rows that do not satisfy
    [P] struck out, the others kept as they are and in their order. *)
Inductive Accepted {A : Type} (P : A -> Prop) : list A -> list A -> Prop :=
| Accepted_nil : Accepted P [] []
| Accepted_keep (r : A) (pre out : list A) :
    P r -> Accepted P pre out -> Accepted P (r :: pre) (r :: out)
| Accepted_drop (r : A) (pre out : list A) :
    ~ P r -> Accepted P pre out -> Accepted P (r :: pre) out.

(** A mapping is closed when each of its values is mapped to itself or is
    not a key. *)
Definition dict_closed (d : dict string) : bool :=
  forallb (fun kv => String.eqb (dict_get d (snd kv) (snd kv)) (snd kv)) d.

(** What [_standardize_columns] does to one label. *)
Definition standardize_label (mappings : dict string) (col : string) : string :=
  fold_left (fun c kv => if String.eqb c (fst kv) then snd kv else c)
            mappings col.

(** The sum of a list of integers. *)
Definition zsum (l : list Z) : Z := fold_right Z.add 0 l.

(** The rows that the server accepted, read off the events. *)
Definition inserted_rows_of (ev : Event) : Z :=
  match ev with
  | EvInsert _ _ _ df true => len df
  | _ => 0
  end.

Definition inserted_rows (evs : list Event) : Z := zsum (map inserted_rows_of evs).

(** An event that touches a file, a batch or the destination table. *)
Definition is_processing (ev : Event) : bool :=
  match ev with
  | EvQuery _ _ => false
  | _ => true
  end.

(** Where the exception of a failed file comes from: the opening of the
    file, the reading of a row group, the transformation of a batch or an
    insertion. *)
Definition failure_source {C : Type} `{ClickHouse C} (U : Uploader)
    (f : ParquetFile) (e : Exn) : Prop :=
  row_groups f = Raise e \/
  (exists groups, row_groups f = Ok groups /\
     (In (Raise e) groups \/
      (exists batch, In (Ok batch) groups /\ transform_batch U batch = Raise e) \/
      (exists batch out c,
         In (Ok batch) groups /\ transform_batch U batch = Ok out /\
         snd (insert_df c (table_name U) out) = Some e))).

(** The per-file count that a result contributes to a total when every
    file, failed or not, is counted with what it has uploaded. *)
Definition sum_all_rows_uploaded (results : list FileResult) : Z :=
  zsum (map result_rows_uploaded results).

(** The counters after a batch has been read, and after its accepted rows
    have been inserted. *)
Definition after_read (k : Counters) (batch : RawBatch) : Counters :=
  mkCounters (total_uploaded k) (batch_count k) (total_processed k + len batch).

Definition after_insert (k : Counters) (out : CleanBatch) : Counters :=
  mkCounters (total_uploaded k + len out) (batch_count k + 1) (total_processed k).

(** The success dicts of a list of results, in order. *)
Definition successful_metrics (results : list FileResult) : list Metrics.t :=
  flat_map (fun r => match r with Success m => [m] | Failed _ => [] end) results.

(** The client after the calls that a list of events records: only an
    insertion or a query moves it. *)
Definition client_after {C : Type} `{ClickHouse C} (evs : list Event) (c : C) : C :=
  fold_left
    (fun c ev =>
       match ev with
       | EvInsert t _ _ df _ => fst (insert_df c t df)
       | EvQuery q _ => fst (query c q)
       | _ => c
       end)
    evs c.

(** The position of an event in the processing of one file: row group [i]
    is read, then transformed, then inserted. *)
Definition stage (ev : Event) : Z :=
  match ev with
  | EvOpen _ => 0
  | EvReadRowGroup _ i => 3 * Z.of_nat i + 1
  | EvTransform _ i => 3 * Z.of_nat i + 2
  | EvInsert _ _ i _ _ => 3 * Z.of_nat i + 3
  | EvQuery _ _ => 0
  end.

Definition earlier (a b : Event) : Prop := stage a < stage b.

(** In [evs] the event [a] comes after the events [before], and [b] is the
    event that follows it at once. *)
Definition followed_at_once (evs before : list Event) (a b : Event) : Prop :=
  exists rest, evs = before ++ a :: b :: rest.

(** The processing of a file raises [e] from the client state [c0]: at
    the opening of the file, or inside the loop. *)
Definition file_raises {C : Type} `{ClickHouse C} (U : Uploader)
    (f : ParquetFile) (c0 : C) (e : Exn) : Prop :=
  row_groups f = Raise e \/
  exists groups,
    row_groups f = Ok groups /\
    raised (upload_batches U (file_name f) 0 groups counters0 c0) = Some e.

(** What links a file of a run to its result: the result is what
    [upload_file] returns for it from some state of the client, the events
    of that call are a segment of the events of the run, and when the
    processing raises, the result is the error dict with the exception and
    with the number of rows inserted before it. *)
Definition file_accounted {C : Type} `{ClickHouse C} (U : Uploader)
    (run_events : list Event) (f : ParquetFile) (r : FileResult) : Prop :=
  result_file r = file_name f /\
  exists (c0 c1 : C) (evf before after : list Event),
    upload_file U f c0 = (r, c1, evf) /\
    run_events = before ++ evf ++ after /\
    forall e, file_raises U f c0 e ->
      failure_source U f e /\
      exists err,
        r = Failed err /\
        ErrorRecord.error err = e /\
        ErrorRecord.rows_uploaded err = inserted_rows evf.

(** ** Vocabulary of the rounding lemmas *)

(** What [k] right shifts have made of the mantissa [m0]: the quotient,
    and clear round and sticky bits when nothing was shifted out. *)
Definition shifted (m0 : Z) (clean : bool) (k : Z) (mrs : shr_record) : Prop :=
  shr_m mrs = m0 / 2 ^ k /\
  (clean = true -> m0 mod 2 ^ k = 0 -> shr_r mrs = false /\ shr_s mrs = false).

(** The two shifts and the rounding inside [binary_round_aux]. *)
Record round_steps (prec emax mx ex : Z) (lx : location) (m2 e1 m3 e3 : Z) : Prop := {
  steps_e1 : e1 = ex + Z.max 0 (fexp prec emax (Zdigits2 mx + ex) - ex);
  steps_m2_lower : mx / 2 ^ (e1 - ex) <= m2;
  steps_m2_upper : m2 <= mx / 2 ^ (e1 - ex) + 1;
  steps_m2_exact : lx = loc_Exact -> mx mod 2 ^ (e1 - ex) = 0 ->
                   m2 = mx / 2 ^ (e1 - ex);
  steps_e3 : e3 = e1 + Z.max 0 (fexp prec emax (Zdigits2 m2 + e1) - e1);
  steps_m3 : m3 = m2 / 2 ^ (e3 - e1)
}.

(** The result of [binary_round_aux] on a non-negative mantissa: a zero,
    an infinity or a finite number, never a NaN, with the sign it was
    given and a mantissa of at most [prec] digits. *)
Definition rounded (prec : Z) (sx : bool) (x : spec_float) : Prop :=
  match x with
  | S754_zero s | S754_infinity s => s = sx
  | S754_nan => False
  | S754_finite s m _ => s = sx /\ Zpos (digits2_pos m) <= prec
  end.

(** A mantissa of at most [prec] digits. *)
Definition digits_within (prec : Z) (x : spec_float) : Prop :=
  match x with
  | S754_finite _ m _ => Zpos (digits2_pos m) <= prec
  | _ => True
  end.

(** ** A scripted server and sample data

    Used to run the definitions on concrete inputs: a server that knows a
    set of tables and follows a script of accepted and rejected
    insertions. *)

Module Scenario.
Record Server : Type := mkServer {
  tables : list string;
  stored : list (string * CleanBatch);
  script : list bool
}.

Definition known (s : Server) (t : string) : bool :=
  existsb (String.eqb t) (tables s).

(** The script gives the fate of the next insertions, [true] for
    accepted; once it is used up every insertion is accepted. *)
Definition server_insert (s : Server) (t : string) (df : CleanBatch)
    : Server * option Exn :=
  let later := tl (script s) in
  if known s t && hd true (script s)
  then (mkServer (tables s) (stored s ++ [(t, df)]) later, None)
  else (mkServer (tables s) (stored s) later,
        Some (ClientError "insertion rejected")).

Definition server_query (s : Server) (q : Query) : Server * option Exn :=
  let t := match q with SelectOne t | CountRows t | DateStats t => t end in
  if known s t then (s, None) else (s, Some (ClientError "unknown table")).

#[global] Instance server_client : ClickHouse Server :=
  {| insert_df := server_insert; query := server_query |}.

Definition yellow_columns : list string :=
  [ "VendorID"; "tpep_pickup_datetime"; "tpep_dropoff_datetime";
    "passenger_count"; "trip_distance"; "RatecodeID"; "store_and_fwd_flag";
    "PULocationID"; "DOLocationID"; "payment_type"; "fare_amount"; "extra";
    "mta_tax"; "tip_amount"; "tolls_amount"; "improvement_surcharge";
    "total_amount"; "congestion_surcharge"; "airport_fee" ].

Definition green_columns : list string :=
  [ "VendorID"; "lpep_pickup_datetime"; "lpep_dropoff_datetime";
    "store_and_fwd_flag"; "RatecodeID"; "PULocationID"; "DOLocationID";
    "passenger_count"; "trip_distance"; "fare_amount"; "extra"; "mta_tax";
    "tip_amount"; "tolls_amount"; "ehail_fee"; "improvement_surcharge";
    "total_amount"; "payment_type"; "trip_type"; "congestion_surcharge" ].

(** A trip that starts at the epoch and lasts [minutes], with whole-dollar
    amounts and a whole-mile distance. *)
Definition trip (distance minutes fare : Z) (tip : float64) (total : Z)
    (flag : option string) : Raw.Row :=
  {| Raw.pickup_datetime := Some 0;
     Raw.dropoff_datetime := Some (minutes * 60000000);
     Raw.passenger_count := Some 1;
     Raw.trip_distance := F64.of_Z distance;
     Raw.RatecodeID := Some 1;
     Raw.store_and_fwd_flag := flag;
     Raw.PULocationID := Some 132;
     Raw.DOLocationID := Some 236;
     Raw.payment_type := Some 1;
     Raw.fare_amount := F64.of_Z fare;
     Raw.extra := F64.zero;
     Raw.mta_tax := F64.half;
     Raw.tip_amount := tip;
     Raw.tolls_amount := F64.zero;
     Raw.improvement_surcharge := F64.zero;
     Raw.total_amount := F64.of_Z total;
     Raw.congestion_surcharge := F64.nan;
     Raw.Airport_fee := F64.nan |}.

(** The three rows of the specification's scenario: the first passes every
    filter, the second has no distance, the third lasts ten hours. *)
Definition good_trip : Raw.Row := trip 5 10 20 (F64.of_Z 4) 25 (Some "N").
Definition no_distance : Raw.Row := trip 0 10 20 (F64.of_Z 4) 25 (Some "Y").
Definition too_long : Raw.Row := trip 5 600 20 (F64.of_Z 4) 25 None.

(** A valid trip whose tip cell is null, and one with an unknown flag. *)
Definition null_tip : Raw.Row := trip 5 10 20 F64.nan 25 (Some "N").
Definition odd_flag : Raw.Row := trip 5 10 20 (F64.of_Z 4) 25 (Some "X").

Definition yellow_batch (rs : list Raw.Row) : RawBatch := mkFrame yellow_columns rs.
Definition green_batch (rs : list Raw.Row) : RawBatch := mkFrame green_columns rs.

Definition three_rows : RawBatch := yellow_batch [good_trip; no_distance; too_long].
Definition rejected_only : RawBatch := yellow_batch [no_distance; too_long].

(** Three files; the second one has two row groups. *)
Definition file_a : ParquetFile :=
  mkFile "yellow_tripdata_2024-01.parquet" 4096 (Ok [Ok three_rows]).
Definition file_b : ParquetFile :=
  mkFile "yellow_tripdata_2024-02.parquet" 8192
    (Ok [Ok (yellow_batch [good_trip; good_trip]); Ok (yellow_batch [good_trip])]).
Definition file_c : ParquetFile :=
  mkFile "yellow_tripdata_2024-03.parquet" 4096
    (Ok [Ok rejected_only; Ok (yellow_batch [good_trip])]).
Definition corrupt : ParquetFile :=
  mkFile "yellow_tripdata_2024-04.parquet" 512
    (Ok [Ok three_rows; Raise (SourceReadError "corrupt row group")]).

Definition server (script : list bool) : Server :=
  mkServer ["yellow_taxi_trips"] [] script.
Definition no_table : Server := mkServer [] [] [].

(** A run that took two seconds, and one during which the clock did not
    move. *)
Definition two_seconds : float64 := F64.of_Z 2.
Definition no_time : float64 := F64.zero.
End Scenario.

(** ** [_create_client]: the settings of the connection

    [urlparse] is taken as it returns: the parts of the connection string.
    What [_create_client] derives from them and passes to [get_client] is
    modelled; the opening of the session itself is the client's. *)

Module Url.
Record t : Type := mk {
  hostname : option string;
  port : option Z;
  username : option string;
  password : option string;
  path : string;
  query : string
}.
End Url.

Module Settings.
Record t : Type := mk {
  host : option string;
  port : Z;
  username : option string;
  password : option string;
  database : string;
  secure : bool;
  query_limit : Z
}.
End Settings.

(** [s.lstrip(ch)] for a one-character argument. *)
Fixpoint lstrip (ch : Ascii.ascii) (s : string) : string :=
  match s with
  | EmptyString => EmptyString
  | String c s' => if Ascii.eqb c ch then lstrip ch s' else s
  end.

(** [sub in s] *)
Fixpoint contains (sub s : string) : bool :=
  String.prefix sub s ||
  match s with
  | EmptyString => false
  | String _ s' => contains sub s'
  end.

(** [x or default] on a string and on an optional port. *)
Definition str_or (s default : string) : string :=
  match s with EmptyString => default | _ => s end.

Definition port_or (p : option Z) (default : Z) : Z :=
  match p with
  | Some n => if n =? 0 then default else n
  | None => default
  end.

Definition client_settings (parsed : Url.t) : Settings.t :=
  let port := port_or (Url.port parsed) 8123 in
  {| Settings.host := Url.hostname parsed;
     Settings.port := port;
     Settings.username := Url.username parsed;
     Settings.password := Url.password parsed;
     Settings.database := str_or (lstrip "/"%char (Url.path parsed)) "default";
     Settings.secure := contains "secure=true" (Url.query parsed) || (port =? 8443);
     Settings.query_limit := 1000000000 |}.

(** ** Vocabulary of the further properties *)

(** The labels that a transformer works on: the aliases renamed, and for
    the green category the dropped column gone. *)
Definition reconciled_columns (cat : Category) (cols : list string) : list string :=
  match cat with
  | Yellow => rename_columns YellowTaxiUploader.column_mappings cols
  | Green =>
      GreenTaxiUploader.drop (rename_columns GreenTaxiUploader.column_mappings cols)
  end.

(** The checks of a category. *)
Definition checks_of (cat : Category) : list string -> list Raw.Row -> Result unit :=
  match cat with
  | Yellow => YellowTaxiUploader.checks
  | Green => GreenTaxiUploader.checks
  end.

(** The columns that a transformer reads without checking for them. *)
Definition required_columns (cat : Category) : list string :=
  match cat with
  | Yellow =>
      [ "passenger_count"; "RatecodeID"; "store_and_fwd_flag";
        "congestion_surcharge"; "Airport_fee"; "PULocationID"; "DOLocationID";
        "payment_type"; "tpep_dropoff_datetime"; "tpep_pickup_datetime";
        "fare_amount"; "tip_amount"; "trip_distance"; "total_amount" ]
  | Green =>
      [ "passenger_count"; "RatecodeID"; "store_and_fwd_flag";
        "congestion_surcharge"; "PULocationID"; "DOLocationID";
        "payment_type"; "lpep_dropoff_datetime"; "lpep_pickup_datetime";
        "fare_amount"; "tip_amount"; "trip_distance"; "total_amount" ]
  end.

(** A row with a null in a column that is cast to an integer without a
    default: the location ids, the pickup timestamp (through its hour), and
    for the yellow category the payment type. *)
Definition null_in_cast (cat : Category) (r : Raw.Row) : bool :=
  is_null (Raw.PULocationID r) ||
  is_null (Raw.DOLocationID r) ||
  match cat with Yellow => is_null (Raw.payment_type r) | Green => false end ||
  is_null (Raw.pickup_datetime r).

(** The integer columns that get a default before the cast to uint8. *)
Definition filled_codes (cat : Category) : list (Raw.Row -> option Z) :=
  match cat with
  | Yellow => [Raw.passenger_count; Raw.RatecodeID]
  | Green => [Raw.passenger_count; Raw.RatecodeID; Raw.payment_type]
  end.

(** A column of a batch that holds a null, so that it is float64, and a
    negative number, which a float64 column cannot give to an unsigned
    type. *)
Definition lossy_cast (cell : Raw.Row -> option Z) (rs : list Raw.Row) : Prop :=
  (exists r, In r rs /\ cell r = None) /\
  (exists r z, In r rs /\ cell r = Some z /\ z < 0).

(** A row whose timestamps, where it has them, lie between 1900-01-01 and
    2100-01-01 (in microseconds since the epoch). *)
Definition us_1900 : Z := -2208988800000000.
Definition us_2100 : Z := 4102444800000000.

Definition ordinary_timestamps (r : Raw.Row) : Prop :=
  (forall us, Raw.pickup_datetime r = Some us -> us_1900 <= us <= us_2100) /\
  (forall us, Raw.dropoff_datetime r = Some us -> us_1900 <= us <= us_2100).

(** The six columns that a transformer adds. *)
Definition derived_labels : list string :=
  ["trip_duration_minutes"; "pickup_hour"; "pickup_day_of_week";
   "pickup_date"; "tip_percentage"; "avg_speed_mph"].

(** The files that a list of events opens, in order. *)
Definition opened_files (evs : list Event) : list string :=
  flat_map (fun ev => match ev with EvOpen f => [f] | _ => [] end) evs.

(** The rows of a raw batch that a category rejects. *)
Definition rejected_rows (cat : Category) (batch : RawBatch) : Z :=
  Z.of_nat (List.length (filter fails_some_predicate (rows (derived_of cat batch)))).

(** The row conversion of a category. *)
Definition clean_row_of (cat : Category)
    : list string -> list Raw.Row -> Raw.Row -> Clean.Row :=
  match cat with
  | Yellow => YellowTaxiUploader.clean_row
  | Green => GreenTaxiUploader.clean_row
  end.

(** How an integer code comes out of [fillna(default).astype('uint8')]: a
    null becomes the default, a code between 0 and 255 is kept, and what
    comes out is between 0 and 255. *)
Definition code_kept (default : Z) (cell : option Z) (out : Z) : Prop :=
  (cell = None -> out = default) /\
  (forall z, cell = Some z -> 0 <= z < 256 -> out = z) /\
  0 <= out < 256.

(** A float that is not above zero: a zero, a negative number, minus
    infinity, or NaN. *)
Definition not_positive (x : spec_float) : Prop :=
  match x with
  | S754_zero _ | S754_nan => True
  | S754_infinity s | S754_finite s _ _ => s = true
  end.

(** The batches that the server accepted, read off the events, in order. *)
Definition inserted_batches (evs : list Event) : list CleanBatch :=
  flat_map (fun ev => match ev with EvInsert _ _ _ df true => [df] | _ => [] end) evs.

(** [sum(r['rows_uploaded'] for r in results if 'error' in r)]: what the
    failed files had uploaded. *)
Definition sum_failed (results : list FileResult) : Z :=
  fold_right
    (fun r acc =>
       match r with
       | Success _ => acc
       | Failed e => ErrorRecord.rows_uploaded e + acc
       end)
    0 results.

(** What a loop that ended without raising has put into the table. *)
Definition accepted_by_loop {C : Type} `{ClickHouse C} (U : Uploader)
    (groups : list (Result RawBatch)) (c : C) (r : LoopEnd C) : Prop :=
  exists batches outs,
    groups = map Ok batches /\
    Forall2 (fun batch out => transform_batch U batch = Ok out) batches outs /\
    inserted_batches (events r) = filter (fun out => 0 <? len out) outs /\
    client r = fold_left (fun c0 out => fst (insert_df c0 (table_name U) out))
                         (filter (fun out => 0 <? len out) outs) c.

(** An insertion of a run: into the table of the uploader, of the accepted
    rows of a row group of one of the files, and these are not empty. *)
Definition insertion_of_run (U : Uploader) (files : list ParquetFile)
    (ev : Event) : Prop :=
  match ev with
  | EvInsert t fl i df _ =>
      t = table_name U /\ 0 < len df /\
      exists f groups batch,
        In f files /\ fl = file_name f /\ row_groups f = Ok groups /\
        nth_error groups i = Some (Ok batch) /\
        transform_batch U batch = Ok df
  | _ => True
  end.

(** A run of [n] slashes. *)
Fixpoint slashes (n : nat) : string :=
  match n with
  | O => EmptyString
  | S n' => String "/"%char (slashes n')
  end.

(** A mapping in which no value is renamed again by a later item. *)
Fixpoint settled (mappings : dict string) : bool :=
  match mappings with
  | [] => true
  | (_, new_name) :: rest =>
      String.eqb (standardize_label rest new_name) new_name && settled rest
  end.

Unset Implicit Arguments.

(* ================================================================== *)
(** * Part II: properties *)
(* ================================================================== *)

(** ** Column reconciliation *)

Lemma dict_lookup_In {V : Type} (d : dict V) (k : string) (v : V) :
  dict_lookup d k = Some v -> In (k, v) d.
Proof.
  induction d as [|[k' v'] d IH]; cbn; [discriminate|].
  destruct (String.eqb_spec k' k) as [->|_].
  - intros [= ->]. now left.
  - intros Hd. right. now apply IH.
Qed.

Lemma dict_get_closed (d : dict string) (col : string) :
  dict_closed d = true ->
  dict_get d (dict_get d col col) (dict_get d col col) = dict_get d col col.
Proof.
  intros Hclosed. unfold dict_get at 2 3 4.
  destruct (dict_lookup d col) as [v|] eqn:E.
  - apply dict_lookup_In in E.
    unfold dict_closed in Hclosed. rewrite forallb_forall in Hclosed.
    specialize (Hclosed _ E). cbn in Hclosed. now apply String.eqb_eq.
  - unfold dict_get. now rewrite E.
Qed.

Lemma rename_columns_closed (d : dict string) (cols : list string) :
  dict_closed d = true ->
  rename_columns d (rename_columns d cols) = rename_columns d cols.
Proof.
  intros Hclosed. unfold rename_columns. rewrite map_map.
  apply map_ext. intros col. now apply dict_get_closed.
Qed.

Lemma rename_absent (old_name new_name : string) (cols : list string) :
  col_in old_name cols = false -> rename old_name new_name cols = cols.
Proof.
  unfold col_in, rename. induction cols as [|c cols IH]; cbn; [reflexivity|].
  rewrite orb_false_iff. intros [Hc Hrest].
  rewrite String.eqb_sym, Hc. f_equal. now apply IH.
Qed.

Lemma standardize_columns_map (mappings : dict string) :
  forall cols,
    _standardize_columns cols mappings = map (standardize_label mappings) cols.
Proof.
  induction mappings as [|[old_name new_name] rest IH]; intros cols; cbn.
  - now rewrite map_id.
  - assert (Hstep : (if col_in old_name cols
                     then rename old_name new_name cols else cols)
                    = rename old_name new_name cols).
    { destruct (col_in old_name cols) eqn:E; [reflexivity|].
      symmetry. now apply rename_absent. }
    rewrite Hstep, IH. unfold rename. now rewrite map_map.
Qed.

Lemma standardize_label_fixed_or_value (mappings : dict string) :
  forall col,
    standardize_label mappings col = col \/
    In (standardize_label mappings col) (map snd mappings).
Proof.
  unfold standardize_label.
  induction mappings as [|[old_name new_name] rest IH]; intros col; cbn [fold_left].
  - now left.
  - cbn [fst snd map]. destruct (String.eqb col old_name) eqn:E.
    + destruct (IH new_name) as [-> | Hin]; right; [now left | now right].
    + destruct (IH col) as [-> | Hin]; [now left | right; now right].
Qed.

Lemma standardize_label_values (cat : Category) :
  forallb (fun v => String.eqb (standardize_label (column_mappings_of cat) v) v)
          (map snd (column_mappings_of cat)) = true.
Proof. destruct cat; vm_compute; reflexivity. Qed.

Lemma standardize_label_idempotent (cat : Category) (col : string) :
  standardize_label (column_mappings_of cat)
    (standardize_label (column_mappings_of cat) col)
  = standardize_label (column_mappings_of cat) col.
Proof.
  destruct (standardize_label_fixed_or_value (column_mappings_of cat) col)
    as [Hfix | Hin].
  - now rewrite Hfix.
  - pose proof (standardize_label_values cat) as Hvals.
    rewrite forallb_forall in Hvals.
    apply String.eqb_eq. now apply Hvals.
Qed.

Lemma column_mappings_closed (cat : Category) :
  dict_closed (column_mappings_of cat) = true.
Proof. destruct cat; reflexivity. Qed.

(** C8. Column reconciliation is idempotent: for every list of column
    labels of either category, mapping the aliases to their canonical names
    a second time changes nothing.  This holds for the renaming that
    [transform_batch] performs and for [_standardize_columns]. *)
Theorem column_reconciliation_idempotent (cat : Category) (cols : list string) :
  let mappings := column_mappings_of cat in
  rename_columns mappings (rename_columns mappings cols)
    = rename_columns mappings cols /\
  _standardize_columns (_standardize_columns cols mappings) mappings
    = _standardize_columns cols mappings.
Proof.
  cbv zeta. split.
  - apply rename_columns_closed, column_mappings_closed.
  - rewrite !standardize_columns_map, map_map.
    apply map_ext. intros col. apply standardize_label_idempotent.
Qed.

(** ** The comparisons *)

Lemma lt_FLt (a b : spec_float) : lt a b = true <-> FLt a b.
Proof.
  unfold lt, SFltb, FLt.
  destruct (SFcompare a b) as [[| |]|]; split; congruence.
Qed.

Lemma gt_FLt (a b : spec_float) : gt a b = true <-> FLt b a.
Proof. unfold gt. apply (lt_FLt b a). Qed.

Lemma le_FLe (a b : spec_float) : le a b = true <-> FLe a b.
Proof.
  unfold le, SFleb, FLe.
  destruct (SFcompare a b) as [[| |]|]; split;
    try congruence; try (intros [?|?]; congruence); auto.
Qed.

(** ** The quality filter *)

Lemma quality_mask_Quality (r : Clean.Row) : quality_mask r = true <-> Quality r.
Proof.
  unfold quality_mask, Quality.
  rewrite !andb_true_iff, !gt_FLt, !lt_FLt, !le_FLe. tauto.
Qed.

Lemma fails_some_predicate_mask (r : Clean.Row) :
  fails_some_predicate r = negb (quality_mask r).
Proof.
  unfold fails_some_predicate, quality_mask.
  now rewrite !negb_andb.
Qed.

Lemma fails_some_predicate_Quality (r : Clean.Row) :
  fails_some_predicate r = true <-> ~ Quality r.
Proof.
  rewrite fails_some_predicate_mask, negb_true_iff, <- quality_mask_Quality.
  destruct (quality_mask r); split; congruence.
Qed.

Lemma filter_split_length {A : Type} (p : A -> bool) (l : list A) :
  (List.length (filter p l) + List.length (filter (fun x => negb (p x)) l)
   = List.length l)%nat.
Proof.
  induction l as [|x l IH]; cbn; [reflexivity|].
  destruct (p x); cbn; lia.
Qed.

Lemma filter_Accepted {A : Type} (P : A -> Prop) (p : A -> bool) (l : list A) :
  (forall x, p x = true <-> P x) -> Accepted P l (filter p l).
Proof.
  intros Hp. induction l as [|x l IH]; cbn.
  - constructor.
  - destruct (p x) eqn:E.
    + apply Accepted_keep; [now apply Hp | exact IH].
    + apply Accepted_drop; [|exact IH].
      intros HP. apply Hp in HP. congruence.
Qed.

Lemma bind_Ok {A B : Type} (r : Result A) (k : A -> Result B) (b : B) :
  bind r k = Ok b -> exists a, r = Ok a /\ k a = Ok b.
Proof. destruct r as [a|e]; cbn; [eauto | discriminate]. Qed.

(** A successful [transform_batch] is the filter applied to the derived
    frame, for both categories. *)
Lemma transform_batch_Ok (cat : Category) (df : RawBatch) (out : CleanBatch) :
  transform_batch (uploader_of cat) df = Ok out ->
  out = quality_filter (derived_of cat df).
Proof.
  destruct cat; cbn;
    unfold YellowTaxiUploader.transform_batch, GreenTaxiUploader.transform_batch;
    intros Hb; apply bind_Ok in Hb; destruct Hb as [[] [_ Hk]]; congruence.
Qed.

Lemma derived_length (cat : Category) (df : RawBatch) :
  List.length (rows (derived_of cat df)) = List.length (rows df).
Proof. destruct cat; cbn; apply length_map. Qed.

(** C3. For a transformed batch of either category, the rows that the
    quality filter retains are exactly the rows of the derived frame with
    distance in (0, 200), duration in (0.5, 480], fare in (0, 1000) and
    total amount in (0, 1000); hence rows_out <= rows_in, and
    rows_in - rows_out is the number of rows that fail at least one of
    these predicates. *)
Theorem quality_filter_retains_exactly
    (cat : Category) (df : RawBatch) (out : CleanBatch) :
  transform_batch (uploader_of cat) df = Ok out ->
  let pre := rows (derived_of cat df) in
  (forall r, In r (rows out) <-> In r pre /\ Quality r) /\
  len out <= len df /\
  len df - len out = Z.of_nat (List.length (filter fails_some_predicate pre)) /\
  (forall r, fails_some_predicate r = true <-> ~ Quality r).
Proof.
  intros Hout pre. apply transform_batch_Ok in Hout. subst out.
  pose proof (filter_split_length quality_mask pre) as Hsplit.
  pose proof (derived_length cat df) as Hlen. fold pre in Hlen.
  assert (Hfails : filter fails_some_predicate pre
                   = filter (fun r => negb (quality_mask r)) pre).
  { apply filter_ext. intros r. apply fails_some_predicate_mask. }
  unfold len, quality_filter. cbn [rows]. fold pre. rewrite Hfails.
  split; [|split; [|split]].
  - intros r. rewrite filter_In, quality_mask_Quality. tauto.
  - lia.
  - lia.
  - apply fails_some_predicate_Quality.
Qed.

Lemma quality_filter_retains_exactly_witness :
  exists out,
    transform_batch (uploader_of Yellow) Scenario.three_rows = Ok out /\
    len Scenario.three_rows - len out = 2.
Proof.
  eexists. split; [reflexivity|].
  exact (proj1 (proj2 (proj2
           (quality_filter_retains_exactly Yellow Scenario.three_rows _ eq_refl)))).
Defined.

(** C10. The quality filter keeps the order and the content of the rows:
    the accepted batch is the derived frame with the rows that fail a
    predicate struck out, every other row kept as it is, under the same
    column labels. *)
Theorem quality_filter_preserves_rows
    (cat : Category) (df : RawBatch) (out : CleanBatch) :
  transform_batch (uploader_of cat) df = Ok out ->
  Accepted Quality (rows (derived_of cat df)) (rows out) /\
  columns out = columns (derived_of cat df).
Proof.
  intros Hout. apply transform_batch_Ok in Hout. subst out.
  split; [|reflexivity].
  apply filter_Accepted. apply quality_mask_Quality.
Qed.

Lemma quality_filter_preserves_rows_witness :
  exists out,
    transform_batch (uploader_of Green)
      (Scenario.green_batch [Scenario.no_distance; Scenario.good_trip]) = Ok out /\
    Accepted Quality
      (rows (derived_of Green
               (Scenario.green_batch [Scenario.no_distance; Scenario.good_trip])))
      (rows out).
Proof.
  eexists. split; [reflexivity|].
  exact (proj1 (quality_filter_preserves_rows Green
                  (Scenario.green_batch [Scenario.no_distance; Scenario.good_trip])
                  _ eq_refl)).
Defined.

(** ** The load loop *)

Lemma inserted_rows_cons (ev : Event) (evs : list Event) :
  inserted_rows (ev :: evs) = inserted_rows_of ev + inserted_rows evs.
Proof. reflexivity. Qed.

Lemma inserted_rows_app (l1 l2 : list Event) :
  inserted_rows (l1 ++ l2) = inserted_rows l1 + inserted_rows l2.
Proof.
  induction l1 as [|ev l1 IH]; [reflexivity|].
  cbn [app]. rewrite !inserted_rows_cons, IH. lia.
Qed.

Section Loop.
Context {C : Type} `{ClickHouse C}.
Variable U : Uploader.
Variable file : string.

(** The six ways in which one turn of the loop can go. *)
Lemma upload_batches_cases
    (P : nat -> list (Result RawBatch) -> Counters -> C -> LoopEnd C -> Prop) :
  (forall i k c, P i [] k c (mkLoopEnd None k c [])) ->
  (forall i e rest k c,
      P i (Raise e :: rest) k c
        (mkLoopEnd (Some e) k c [EvReadRowGroup file i])) ->
  (forall i batch e rest k c,
      transform_batch U batch = Raise e ->
      P i (Ok batch :: rest) k c
        (mkLoopEnd (Some e) (after_read k batch) c
           [EvReadRowGroup file i; EvTransform file i])) ->
  (forall i batch out e c' rest k c,
      transform_batch U batch = Ok out -> 0 < len out ->
      insert_df c (table_name U) out = (c', Some e) ->
      P i (Ok batch :: rest) k c
        (mkLoopEnd (Some e) (after_read k batch) c'
           [EvReadRowGroup file i; EvTransform file i;
            EvInsert (table_name U) file i out false])) ->
  (forall i batch out c' rest k c r,
      transform_batch U batch = Ok out -> 0 < len out ->
      insert_df c (table_name U) out = (c', None) ->
      r = upload_batches U file (S i) rest
            (after_insert (after_read k batch) out) c' ->
      P (S i) rest (after_insert (after_read k batch) out) c' r ->
      P i (Ok batch :: rest) k c
        (mkLoopEnd (raised r) (counters r) (client r)
           (EvReadRowGroup file i :: EvTransform file i ::
            EvInsert (table_name U) file i out true :: events r))) ->
  (forall i batch out rest k c r,
      transform_batch U batch = Ok out -> len out = 0 ->
      r = upload_batches U file (S i) rest (after_read k batch) c ->
      P (S i) rest (after_read k batch) c r ->
      P i (Ok batch :: rest) k c
        (mkLoopEnd (raised r) (counters r) (client r)
           (EvReadRowGroup file i :: EvTransform file i :: events r))) ->
  forall groups i k c, P i groups k c (upload_batches U file i groups k c).
Proof.
  intros Hnil Hread Htrans Hrej Hins Hskip.
  induction groups as [|g rest IH]; intros i k c; cbn [upload_batches].
  - apply Hnil.
  - destruct g as [batch|e]; [|apply Hread].
    destruct (transform_batch U batch) as [out|e] eqn:Et; [|now apply Htrans].
    destruct (0 <? len out) eqn:Elen.
    + apply Z.ltb_lt in Elen.
      destruct (insert_df c (table_name U) out) as [c' [e|]] eqn:Ei.
      * now apply Hrej.
      * unfold loop_cons; cbn.
        eapply (Hins i batch out c' rest k c);
          [eassumption|assumption|eassumption|reflexivity|apply IH].
    + apply Z.ltb_ge in Elen.
      assert (len out = 0) by (unfold len in *; lia).
      unfold loop_cons; cbn.
      eapply (Hskip i batch out rest k c);
        [eassumption|assumption|reflexivity|apply IH].
Qed.

(** The counter of uploaded rows is the number of rows that the server
    accepted, whether the loop ends or raises. *)
Lemma upload_batches_uploaded (groups : list (Result RawBatch)) :
  forall i k c,
    let r := upload_batches U file i groups k c in
    total_uploaded (counters r) = total_uploaded k + inserted_rows (events r).
Proof.
  apply (upload_batches_cases
           (fun i groups k c r =>
              total_uploaded (counters r)
              = total_uploaded k + inserted_rows (events r)));
    intros; cbn [counters events];
    rewrite ?inserted_rows_cons; cbn [inserted_rows_of];
    try (unfold inserted_rows; cbn; lia).
  - cbn in *. lia.
  - cbn in *. lia.
Qed.

(** A loop that ends without raising has read every row group and
    transformed every batch; the counters are the sums over the batches. *)
Lemma upload_batches_success (groups : list (Result RawBatch)) :
  forall i k c,
    let r := upload_batches U file i groups k c in
    raised r = None ->
    exists batches outs,
      groups = map Ok batches /\
      Forall2 (fun batch out => transform_batch U batch = Ok out) batches outs /\
      total_processed (counters r)
        = total_processed k + zsum (map len batches) /\
      total_uploaded (counters r) = total_uploaded k + zsum (map len outs) /\
      batch_count (counters r)
        = batch_count k
          + Z.of_nat (List.length (filter (fun out => 0 <? len out) outs)).
Proof.
  apply (upload_batches_cases
           (fun i groups k c r =>
              raised r = None ->
              exists batches outs,
                groups = map Ok batches /\
                Forall2 (fun batch out => transform_batch U batch = Ok out)
                        batches outs /\
                total_processed (counters r)
                  = total_processed k + zsum (map len batches) /\
                total_uploaded (counters r)
                  = total_uploaded k + zsum (map len outs) /\
                batch_count (counters r)
                  = batch_count k
                    + Z.of_nat (List.length
                                  (filter (fun out => 0 <? len out) outs))));
    cbn [raised counters]; try discriminate.
  - intros i k c _. exists [], []. cbn. repeat split; try lia. constructor.
  - intros i batch out c' rest k c r Ht Hlen Hi Hr IH Hnone.
    destruct (IH Hnone) as (batches & outs & -> & HF & Hp & Hu & Hb).
    exists (batch :: batches), (out :: outs). cbn [map filter zsum fold_right].
    apply Z.ltb_lt in Hlen. rewrite Hlen. cbn [List.length].
    fold (zsum (map len batches)). fold (zsum (map len outs)).
    cbn in Hp, Hu, Hb.
    repeat split; try lia. now constructor.
  - intros i batch out rest k c r Ht Hlen Hr IH Hnone.
    destruct (IH Hnone) as (batches & outs & -> & HF & Hp & Hu & Hb).
    exists (batch :: batches), (out :: outs). cbn [map filter zsum fold_right].
    assert (Hltb : (0 <? len out) = false) by (apply Z.ltb_ge; lia).
    rewrite Hltb.
    fold (zsum (map len batches)). fold (zsum (map len outs)).
    cbn in Hp, Hu, Hb.
    repeat split; try lia. now constructor.
Qed.

(** What a loop raises is what a read, a transformation or an insertion
    raised. *)
Lemma upload_batches_failure (groups : list (Result RawBatch)) :
  forall i k c e,
    raised (upload_batches U file i groups k c) = Some e ->
    In (Raise e) groups \/
    (exists batch, In (Ok batch) groups /\ transform_batch U batch = Raise e) \/
    (exists batch out c0,
        In (Ok batch) groups /\ transform_batch U batch = Ok out /\
        snd (insert_df c0 (table_name U) out) = Some e).
Proof.
  intros i k c e. revert i k c.
  apply (upload_batches_cases
           (fun i groups k c r =>
              raised r = Some e ->
              In (Raise e) groups \/
              (exists batch,
                  In (Ok batch) groups /\ transform_batch U batch = Raise e) \/
              (exists batch out c0,
                  In (Ok batch) groups /\ transform_batch U batch = Ok out /\
                  snd (insert_df c0 (table_name U) out) = Some e)));
    cbn [raised].
  - discriminate.
  - intros i e' rest k c [= ->]. left. now left.
  - intros i batch e' rest k c Ht [= ->]. right. left.
    exists batch. split; [now left | exact Ht].
  - intros i batch out e' c' rest k c Ht Hlen Hi [= ->]. right. right.
    exists batch, out, c. split; [now left|]. split; [exact Ht|].
    now rewrite Hi.
  - intros i batch out c' rest k c r Ht Hlen Hi Hr IH Hsome.
    destruct (IH Hsome) as [Hin | [(b & Hin & Hb) | (b & o & c0 & Hin & Hb & Hc)]].
    + left. now right.
    + right. left. exists b. split; [now right | exact Hb].
    + right. right. exists b, o, c0. split; [now right | now split].
  - intros i batch out rest k c r Ht Hlen Hr IH Hsome.
    destruct (IH Hsome) as [Hin | [(b & Hin & Hb) | (b & o & c0 & Hin & Hb & Hc)]].
    + left. now right.
    + right. left. exists b. split; [now right | exact Hb].
    + right. right. exists b, o, c0. split; [now right | now split].
Qed.

(** The client moves only through the insertions that the events record. *)
Lemma upload_batches_client (groups : list (Result RawBatch)) :
  forall i k c,
    client (upload_batches U file i groups k c)
    = client_after (events (upload_batches U file i groups k c)) c.
Proof.
  apply (upload_batches_cases
           (fun i groups k c r => client r = client_after (events r) c));
    intros; cbn [client events]; unfold client_after; cbn [fold_left];
    try reflexivity.
  - match goal with Hi : insert_df _ _ _ = _ |- _ => now rewrite Hi end.
  - match goal with Hi : insert_df _ _ _ = _ |- _ => rewrite Hi end.
    cbn [fst]. assumption.
  - assumption.
Qed.

(** The events of a loop come in the order of their stages: group by
    group, and within a group the read, the transformation, the
    insertion. *)
Lemma upload_batches_stages (groups : list (Result RawBatch)) :
  forall i k c,
    let r := upload_batches U file i groups k c in
    StronglySorted earlier (events r) /\
    Forall (fun ev => 3 * Z.of_nat i < stage ev) (events r).
Proof.
  apply (upload_batches_cases
           (fun i groups k c r =>
              StronglySorted earlier (events r) /\
              Forall (fun ev => 3 * Z.of_nat i < stage ev) (events r)));
    intros; cbn [events];
    try match goal with IH : _ /\ _ |- _ => destruct IH as [IHs IHb] end;
    (split;
     [ repeat (apply SSorted_cons || apply SSorted_nil);
       try assumption;
       repeat (apply Forall_cons || apply Forall_nil);
       unfold earlier; cbn [stage]; try lia;
       try (eapply Forall_impl; [|exact IHb]; cbn beta; intros; lia)
     | repeat (apply Forall_cons || apply Forall_nil);
       cbn [stage]; try lia;
       try (eapply Forall_impl; [|exact IHb]; cbn beta; intros; lia) ]).
Qed.

(** An insertion that the events record is the insertion of the accepted
    rows of a row group, and these are not empty. *)
Lemma upload_batches_insertions (groups : list (Result RawBatch)) :
  forall i k c t fl j df ok,
    In (EvInsert t fl j df ok) (events (upload_batches U file i groups k c)) ->
    t = table_name U /\ fl = file /\ (i <= j)%nat /\
    exists batch,
      nth_error groups (j - i) = Some (Ok batch) /\
      transform_batch U batch = Ok df /\ 0 < len df.
Proof.
  intros i k c t fl j df ok. revert i k c.
  apply (upload_batches_cases
           (fun i groups k c r =>
              In (EvInsert t fl j df ok) (events r) ->
              t = table_name U /\ fl = file /\ (i <= j)%nat /\
              exists batch,
                nth_error groups (j - i) = Some (Ok batch) /\
                transform_batch U batch = Ok df /\ 0 < len df));
    cbn [events In]; intros;
    repeat match goal with
           | Hor : _ \/ _ |- _ => destruct Hor
           | Hf : False |- _ => destruct Hf
           | Heq : _ = EvInsert _ _ _ _ _ |- _ =>
               first [ discriminate Heq | injection Heq as <- <- <- <- <- ]
           end.
  - repeat split; try lia. exists batch. rewrite Nat.sub_diag. now cbn.
  - repeat split; try lia. exists batch. rewrite Nat.sub_diag. now cbn.
  - match goal with IH : In _ _ -> _, Hin : In _ _ |- _ =>
      destruct (IH Hin) as (-> & -> & Hle & b & Hnth & Hb & Hpos) end.
    repeat split; try lia. exists b.
    replace (j - i)%nat with (S (j - S i)) by lia. now cbn.
  - match goal with IH : In _ _ -> _, Hin : In _ _ |- _ =>
      destruct (IH Hin) as (-> & -> & Hle & b & Hnth & Hb & Hpos) end.
    repeat split; try lia. exists b.
    replace (j - i)%nat with (S (j - S i)) by lia. now cbn.
Qed.

(** When row group [j] is read, the accepted rows of every earlier row
    group have been inserted. *)
Lemma upload_batches_reached (groups : list (Result RawBatch)) :
  forall i k c fl j,
    In (EvReadRowGroup fl j) (events (upload_batches U file i groups k c)) ->
    forall i' batch out,
      (i <= i' < j)%nat ->
      nth_error groups (i' - i) = Some (Ok batch) ->
      transform_batch U batch = Ok out -> 0 < len out ->
      In (EvInsert (table_name U) file i' out true)
         (events (upload_batches U file i groups k c)).
Proof.
  intros i k c fl j. revert i k c.
  apply (upload_batches_cases
           (fun i groups k c r =>
              In (EvReadRowGroup fl j) (events r) ->
              forall i' batch out,
                (i <= i' < j)%nat ->
                nth_error groups (i' - i) = Some (Ok batch) ->
                transform_batch U batch = Ok out -> 0 < len out ->
                In (EvInsert (table_name U) file i' out true) (events r)));
    cbn [events In].
  - intros; tauto.
  - intros i e rest k c [[= _ <-]|[]] i' b o Hi'. lia.
  - intros i batch e rest k c Ht [[= _ <-]|[[=]|[]]] i' b o Hi'. lia.
  - intros i batch out e c' rest k c Ht Hlen Hi
           [[= _ <-]|[[=]|[[=]|[]]]] i' b o Hi'. lia.
  - intros i batch out c' rest k c r Ht Hlen Hi Hr IH Hin i' b o Hi' Hnth Hb Hpos.
    destruct Hin as [[= _ <-]|[[=]|[[=]|Hin]]]; [lia|].
    destruct (Nat.eq_dec i' i) as [->|Hne].
    + rewrite Nat.sub_diag in Hnth. cbn in Hnth. injection Hnth as <-.
      rewrite Ht in Hb. injection Hb as <-. right. right. now left.
    + right. right. right. apply (IH Hin i' b o); try assumption; [lia|].
      replace (i' - i)%nat with (S (i' - S i)) in Hnth by lia. exact Hnth.
  - intros i batch out rest k c r Ht Hlen Hr IH Hin i' b o Hi' Hnth Hb Hpos.
    destruct Hin as [[= _ <-]|[[=]|Hin]]; [lia|].
    destruct (Nat.eq_dec i' i) as [->|Hne].
    + rewrite Nat.sub_diag in Hnth. cbn in Hnth. injection Hnth as <-.
      rewrite Ht in Hb. injection Hb as <-. lia.
    + right. right. apply (IH Hin i' b o); try assumption; [lia|].
      replace (i' - i)%nat with (S (i' - S i)) in Hnth by lia. exact Hnth.
Qed.
End Loop.

(** ** One file *)

Section File.
Context {C : Type} `{ClickHouse C}.
Variable U : Uploader.

Lemma upload_file_opened (f : ParquetFile) (c : C) (groups : list (Result RawBatch)) :
  row_groups f = Ok groups ->
  let r := upload_batches U (file_name f) 0 groups counters0 c in
  upload_file U f c
  = (match raised r with
     | None =>
         Success (Metrics.mk (file_name f) (getsize f)
                    (total_processed (counters r)) (total_uploaded (counters r))
                    (total_processed (counters r) - total_uploaded (counters r))
                    (batch_count (counters r)))
     | Some e =>
         Failed (ErrorRecord.mk (file_name f) e (total_uploaded (counters r)))
     end, client r, EvOpen (file_name f) :: events r).
Proof. intros Hg. unfold upload_file. now rewrite Hg. Qed.

Lemma upload_file_result_file (f : ParquetFile) (c : C) :
  result_file (fst (fst (upload_file U f c))) = file_name f.
Proof.
  unfold upload_file. destruct (row_groups f) as [groups|e]; cbn; [|reflexivity].
  now destruct (raised _).
Qed.

(** An error dict carries the exception that ended the file and the rows
    inserted so far. *)
Lemma upload_file_failed (f : ParquetFile) (c c' : C)
    (err : ErrorRecord.t) (evs : list Event) :
  upload_file U f c = (Failed err, c', evs) ->
  ErrorRecord.file err = file_name f /\
  failure_source U f (ErrorRecord.error err) /\
  ErrorRecord.rows_uploaded err = inserted_rows evs.
Proof.
  destruct (row_groups f) as [groups|e] eqn:Hg.
  - rewrite (upload_file_opened f c groups Hg). cbv zeta.
    destruct (raised _) as [e|] eqn:Hr; [|discriminate].
    intros [= <- <- <-]. cbn [ErrorRecord.file ErrorRecord.error
                                ErrorRecord.rows_uploaded].
    split; [reflexivity|]. split.
    + right. exists groups. split; [exact Hg|].
      now apply (upload_batches_failure U (file_name f) groups 0 counters0 c).
    + rewrite (upload_batches_uploaded U (file_name f) groups 0 counters0 c).
      reflexivity.
  - unfold upload_file. rewrite Hg. intros [= <- <- <-]. cbn.
    split; [reflexivity|]. split; [now left | reflexivity].
Qed.

(** A success dict has every count, and the filtered rows are the
    difference of the two others. *)
Lemma upload_file_succeeded (f : ParquetFile) (c c' : C)
    (m : Metrics.t) (evs : list Event) :
  upload_file U f c = (Success m, c', evs) ->
  exists groups,
    row_groups f = Ok groups /\
    raised (upload_batches U (file_name f) 0 groups counters0 c) = None /\
    m = (let k := counters (upload_batches U (file_name f) 0 groups counters0 c) in
         Metrics.mk (file_name f) (getsize f) (total_processed k)
           (total_uploaded k) (total_processed k - total_uploaded k)
           (batch_count k)).
Proof.
  destruct (row_groups f) as [groups|e] eqn:Hg.
  - rewrite (upload_file_opened f c groups Hg). cbv zeta.
    destruct (raised _) as [e|] eqn:Hr; [discriminate|].
    intros [= <- <- <-]. exists groups. now repeat split.
  - unfold upload_file. rewrite Hg. discriminate.
Qed.

(** When the processing raises, [upload_file] returns the error dict. *)
Lemma upload_file_raises (f : ParquetFile) (c c' : C)
    (r : FileResult) (evs : list Event) (e : Exn) :
  upload_file U f c = (r, c', evs) ->
  file_raises U f c e ->
  failure_source U f e /\
  exists err,
    r = Failed err /\
    ErrorRecord.error err = e /\
    ErrorRecord.rows_uploaded err = inserted_rows evs.
Proof.
  intros Hup Hraise.
  assert (Hfailed : exists err, r = Failed err /\ ErrorRecord.error err = e).
  { destruct Hraise as [Hg | (groups & Hg & Hr)].
    - unfold upload_file in Hup. rewrite Hg in Hup.
      injection Hup as <- _ _. eexists. now split.
    - rewrite (upload_file_opened f c groups Hg) in Hup. cbv zeta in Hup.
      rewrite Hr in Hup. injection Hup as <- _ _. eexists. now split. }
  destruct Hfailed as (err & -> & <-).
  apply upload_file_failed in Hup. destruct Hup as (_ & Hsrc & Hrows).
  split; [exact Hsrc|]. now exists err.
Qed.
End File.

(** ** The loop, step by step *)

Lemma followed_at_once_cons (ev : Event) (evs before : list Event) (a b : Event) :
  followed_at_once evs before a b ->
  followed_at_once (ev :: evs) (ev :: before) a b.
Proof. intros [rest ->]. now exists rest. Qed.

Lemma followed_at_once_head (evs : list Event) (a b : Event) :
  followed_at_once (a :: b :: evs) [] a b.
Proof. now exists evs. Qed.

Section Steps.
Context {C : Type} `{ClickHouse C}.
Variable U : Uploader.
Variable file : string.

(** The events of the groups after the first have a larger index. *)
Lemma upload_batches_later (groups : list (Result RawBatch)) (i : nat)
    (k : Counters) (c : C) (ev : Event) :
  In ev (events (upload_batches U file (S i) groups k c)) ->
  match ev with
  | EvReadRowGroup _ j | EvTransform _ j | EvInsert _ _ j _ _ => (i < j)%nat
  | _ => True
  end.
Proof.
  intros Hin.
  destruct (upload_batches_stages U file groups (S i) k c) as [_ Hbound].
  rewrite Forall_forall in Hbound. specialize (Hbound ev Hin).
  destruct ev; cbn [stage] in Hbound; try exact I; lia.
Qed.

(** A loop over at least one row group starts with the read of the
    first. *)
Lemma upload_batches_starts (g : Result RawBatch) (rest : list (Result RawBatch))
    (i : nat) (k : Counters) (c : C) :
  exists evs,
    events (upload_batches U file i (g :: rest) k c)
    = EvReadRowGroup file i :: evs.
Proof. cbn [upload_batches]. unfold loop_cons at 1. cbn [events]. eauto. Qed.

(** A batch that has been read is transformed at once. *)
Lemma upload_batches_transforms (groups : list (Result RawBatch)) :
  forall i k c j batch,
    In (EvReadRowGroup file j) (events (upload_batches U file i groups k c)) ->
    nth_error groups (j - i) = Some (Ok batch) ->
    exists before,
      followed_at_once (events (upload_batches U file i groups k c)) before
        (EvReadRowGroup file j) (EvTransform file j).
Proof.
  intros i k c j batch0. revert i k c.
  apply (upload_batches_cases U file
           (fun i groups k c r =>
              In (EvReadRowGroup file j) (events r) ->
              nth_error groups (j - i) = Some (Ok batch0) ->
              exists before,
                followed_at_once (events r) before
                  (EvReadRowGroup file j) (EvTransform file j)));
    cbn [events In].
  - intros; tauto.
  - intros i e rest k c [[= <-]|[]]. rewrite Nat.sub_diag. discriminate.
  - intros i batch e rest k c Ht [[= <-]|[[=]|[]]] _.
    exists []. apply followed_at_once_head.
  - intros i batch out e c' rest k c Ht Hlen Hi [[= <-]|[[=]|[[=]|[]]]] _.
    exists []. apply followed_at_once_head.
  - intros i batch out c' rest k c r Ht Hlen Hi Hr IH
           [[= <-]|[[=]|[[=]|Hin]]] Hnth.
    + exists []. apply followed_at_once_head.
    + pose proof Hin as Hlater. rewrite Hr in Hlater.
      apply upload_batches_later in Hlater.
      replace (j - i)%nat with (S (j - S i)) in Hnth by lia.
      destruct (IH Hin Hnth) as [before Hnext].
      eexists. do 3 apply followed_at_once_cons. exact Hnext.
  - intros i batch out rest k c r Ht Hlen Hr IH [[= <-]|[[=]|Hin]] Hnth.
    + exists []. apply followed_at_once_head.
    + pose proof Hin as Hlater. rewrite Hr in Hlater.
      apply upload_batches_later in Hlater.
      replace (j - i)%nat with (S (j - S i)) in Hnth by lia.
      destruct (IH Hin Hnth) as [before Hnext].
      eexists. do 2 apply followed_at_once_cons. exact Hnext.
Qed.

(** A transformed batch that is not empty is inserted at once, into the
    table of the uploader, through the client as the events before have
    left it; the event records whether the server accepted it. *)
Lemma upload_batches_inserts (groups : list (Result RawBatch)) :
  forall i k c j batch out,
    In (EvTransform file j) (events (upload_batches U file i groups k c)) ->
    nth_error groups (j - i) = Some (Ok batch) ->
    transform_batch U batch = Ok out -> 0 < len out ->
    exists before,
      followed_at_once (events (upload_batches U file i groups k c)) before
        (EvTransform file j)
        (EvInsert (table_name U) file j out
           (is_null (snd (insert_df (client_after before c)
                            (table_name U) out)))).
Proof.
  intros i k c j batch0 out0. revert i k c.
  apply (upload_batches_cases U file
           (fun i groups k c r =>
              In (EvTransform file j) (events r) ->
              nth_error groups (j - i) = Some (Ok batch0) ->
              transform_batch U batch0 = Ok out0 -> 0 < len out0 ->
              exists before,
                followed_at_once (events r) before
                  (EvTransform file j)
                  (EvInsert (table_name U) file j out0
                     (is_null (snd (insert_df (client_after before c)
                                      (table_name U) out0))))));
    cbn [events In].
  - intros; tauto.
  - intros i e rest k c [[=]|[]].
  - intros i batch e rest k c Ht [[=]|[[= <-]|[]]] Hnth Ht0.
    rewrite Nat.sub_diag in Hnth. injection Hnth as <-. congruence.
  - intros i batch out e c' rest k c Ht Hlen Hi
           [[=]|[[= <-]|[[=]|[]]]] Hnth Ht0 _.
    rewrite Nat.sub_diag in Hnth. injection Hnth as <-.
    rewrite Ht in Ht0. injection Ht0 as <-.
    exists [EvReadRowGroup file i]. exists [].
    unfold client_after. cbn [fold_left app]. now rewrite Hi.
  - intros i batch out c' rest k c r Ht Hlen Hi Hr IH
           [[=]|[[= <-]|[[=]|Hin]]] Hnth Ht0 Hlen0.
    + rewrite Nat.sub_diag in Hnth. injection Hnth as <-.
      rewrite Ht in Ht0. injection Ht0 as <-.
      exists [EvReadRowGroup file i]. exists (events r).
      unfold client_after. cbn [fold_left app]. now rewrite Hi.
    + pose proof Hin as Hlater. rewrite Hr in Hlater.
      apply upload_batches_later in Hlater.
      replace (j - i)%nat with (S (j - S i)) in Hnth by lia.
      destruct (IH Hin Hnth Ht0 Hlen0) as [before [tl Hnext]].
      exists (EvReadRowGroup file i :: EvTransform file i
              :: EvInsert (table_name U) file i out true :: before).
      exists tl. cbn [app]. rewrite Hnext.
      unfold client_after. cbn [fold_left]. rewrite Hi. reflexivity.
  - intros i batch out rest k c r Ht Hlen Hr IH
           [[=]|[[= <-]|Hin]] Hnth Ht0 Hlen0.
    + rewrite Nat.sub_diag in Hnth. injection Hnth as <-.
      rewrite Ht in Ht0. injection Ht0 as <-. lia.
    + pose proof Hin as Hlater. rewrite Hr in Hlater.
      apply upload_batches_later in Hlater.
      replace (j - i)%nat with (S (j - S i)) in Hnth by lia.
      destruct (IH Hin Hnth Ht0 Hlen0) as [before [tl Hnext]].
      exists (EvReadRowGroup file i :: EvTransform file i :: before).
      exists tl. cbn [app]. rewrite Hnext. reflexivity.
Qed.

(** After an insertion that the server accepted, and after a
    transformation that left no row, the next row group is read, if
    there is one. *)
Lemma upload_batches_goes_on (groups : list (Result RawBatch)) :
  forall i k c j,
    (S (j - i) < List.length groups)%nat ->
    (forall df,
        In (EvInsert (table_name U) file j df true)
           (events (upload_batches U file i groups k c)) ->
        exists before,
          followed_at_once (events (upload_batches U file i groups k c)) before
            (EvInsert (table_name U) file j df true)
            (EvReadRowGroup file (S j))) /\
    (forall batch out,
        In (EvTransform file j) (events (upload_batches U file i groups k c)) ->
        nth_error groups (j - i) = Some (Ok batch) ->
        transform_batch U batch = Ok out -> len out = 0 ->
        exists before,
          followed_at_once (events (upload_batches U file i groups k c)) before
            (EvTransform file j) (EvReadRowGroup file (S j))).
Proof.
  intros i k c j. revert i k c.
  apply (upload_batches_cases U file
           (fun i groups k c r =>
              (S (j - i) < List.length groups)%nat ->
              (forall df,
                  In (EvInsert (table_name U) file j df true) (events r) ->
                  exists before,
                    followed_at_once (events r) before
                      (EvInsert (table_name U) file j df true)
                      (EvReadRowGroup file (S j))) /\
              (forall batch out,
                  In (EvTransform file j) (events r) ->
                  nth_error groups (j - i) = Some (Ok batch) ->
                  transform_batch U batch = Ok out -> len out = 0 ->
                  exists before,
                    followed_at_once (events r) before
                      (EvTransform file j) (EvReadRowGroup file (S j)))));
    cbn [events In List.length].
  - intros i k c Hlt. lia.
  - intros i e rest k c Hlt. split.
    + intros df [[=]|[]].
    + intros b o [[=]|[]].
  - intros i batch e rest k c Ht Hlt. split.
    + intros df [[=]|[[=]|[]]].
    + intros b o [[=]|[[= <-]|[]]] Hnth Hb.
      rewrite Nat.sub_diag in Hnth. injection Hnth as <-. congruence.
  - intros i batch out e c' rest k c Ht Hlen Hi Hlt. split.
    + intros df [[=]|[[=]|[[=]|[]]]].
    + intros b o [[=]|[[= <-]|[[=]|[]]]] Hnth Hb Hzero.
      rewrite Nat.sub_diag in Hnth. injection Hnth as <-.
      rewrite Ht in Hb. injection Hb as <-. lia.
  - intros i batch out c' rest k c r Ht Hlen Hi Hr IH Hlt.
    assert (Hstart : forall g tl, rest = g :: tl ->
               exists evs, events r = EvReadRowGroup file (S i) :: evs).
    { intros g tl ->. rewrite Hr. apply upload_batches_starts. }
    split.
    + intros df [[=]|[[=]|[[= <- <-]|Hin]]].
      * rewrite Nat.sub_diag in Hlt.
        destruct rest as [|g tl]; [cbn in Hlt; lia|].
        destruct (Hstart g tl eq_refl) as [evs ->].
        exists [EvReadRowGroup file i; EvTransform file i]. now exists evs.
      * pose proof Hin as Hlater. rewrite Hr in Hlater.
        apply upload_batches_later in Hlater.
        assert (Hlt' : (S (j - S i) < List.length rest)%nat) by lia.
        destruct (proj1 (IH Hlt') df Hin) as [before Hnext].
        eexists. do 3 apply followed_at_once_cons. exact Hnext.
    + intros b o [[=]|[[= <-]|[[=]|Hin]]] Hnth Hb Hzero.
      * rewrite Nat.sub_diag in Hnth. injection Hnth as <-.
        rewrite Ht in Hb. injection Hb as <-. lia.
      * pose proof Hin as Hlater. rewrite Hr in Hlater.
        apply upload_batches_later in Hlater.
        assert (Hlt' : (S (j - S i) < List.length rest)%nat) by lia.
        replace (j - i)%nat with (S (j - S i)) in Hnth by lia.
        destruct (proj2 (IH Hlt') b o Hin Hnth Hb Hzero) as [before Hnext].
        eexists. do 3 apply followed_at_once_cons. exact Hnext.
  - intros i batch out rest k c r Ht Hlen Hr IH Hlt.
    assert (Hstart : forall g tl, rest = g :: tl ->
               exists evs, events r = EvReadRowGroup file (S i) :: evs).
    { intros g tl ->. rewrite Hr. apply upload_batches_starts. }
    split.
    + intros df [[=]|[[=]|Hin]].
      pose proof Hin as Hlater. rewrite Hr in Hlater.
      apply upload_batches_later in Hlater.
      assert (Hlt' : (S (j - S i) < List.length rest)%nat) by lia.
      destruct (proj1 (IH Hlt') df Hin) as [before Hnext].
      eexists. do 2 apply followed_at_once_cons. exact Hnext.
    + intros b o [[=]|[[= <-]|Hin]] Hnth Hb Hzero.
      * rewrite Nat.sub_diag in Hlt.
        destruct rest as [|g tl]; [cbn in Hlt; lia|].
        destruct (Hstart g tl eq_refl) as [evs ->].
        exists [EvReadRowGroup file i]. now exists evs.
      * pose proof Hin as Hlater. rewrite Hr in Hlater.
        apply upload_batches_later in Hlater.
        assert (Hlt' : (S (j - S i) < List.length rest)%nat) by lia.
        replace (j - i)%nat with (S (j - S i)) in Hnth by lia.
        destruct (proj2 (IH Hlt') b o Hin Hnth Hb Hzero) as [before Hnext].
        eexists. do 2 apply followed_at_once_cons. exact Hnext.
Qed.

(** A loop that ends without raising has inserted every transformed
    batch that is not empty, the last one included, and the server has
    accepted each of them. *)
Lemma upload_batches_all_inserted (groups : list (Result RawBatch)) :
  forall i k c,
    raised (upload_batches U file i groups k c) = None ->
    forall j batch out,
      (i <= j)%nat -> nth_error groups (j - i) = Some (Ok batch) ->
      transform_batch U batch = Ok out -> 0 < len out ->
      In (EvInsert (table_name U) file j out true)
         (events (upload_batches U file i groups k c)).
Proof.
  apply (upload_batches_cases U file
           (fun i groups k c r =>
              raised r = None ->
              forall j batch out,
                (i <= j)%nat -> nth_error groups (j - i) = Some (Ok batch) ->
                transform_batch U batch = Ok out -> 0 < len out ->
                In (EvInsert (table_name U) file j out true) (events r)));
    cbn [raised events In]; try discriminate.
  - intros i k c _ j b o _ Hnth. now destruct (j - i)%nat.
  - intros i batch out c' rest k c r Ht Hlen Hi Hr IH Hnone j b o Hij Hnth Hb Hpos.
    destruct (Nat.eq_dec j i) as [->|Hne].
    + rewrite Nat.sub_diag in Hnth. injection Hnth as <-.
      rewrite Ht in Hb. injection Hb as <-. right. right. now left.
    + right. right. right. apply (IH Hnone j b o); try assumption; [lia|].
      replace (j - i)%nat with (S (j - S i)) in Hnth by lia. exact Hnth.
  - intros i batch out rest k c r Ht Hlen Hr IH Hnone j b o Hij Hnth Hb Hpos.
    destruct (Nat.eq_dec j i) as [->|Hne].
    + rewrite Nat.sub_diag in Hnth. injection Hnth as <-.
      rewrite Ht in Hb. injection Hb as <-. lia.
    + right. right. apply (IH Hnone j b o); try assumption; [lia|].
      replace (j - i)%nat with (S (j - S i)) in Hnth by lia. exact Hnth.
Qed.
End Steps.

(** ** A whole run *)

Section Run.
Context {C : Type} `{ClickHouse C}.
Variable U : Uploader.

Lemma file_accounted_within (evs before after : list Event)
    (f : ParquetFile) (r : FileResult) :
  file_accounted (C := C) U evs f r ->
  file_accounted (C := C) U (before ++ evs ++ after) f r.
Proof.
  intros (Hfile & c0 & c1 & evf & b & a & Hup & -> & Herr).
  split; [exact Hfile|].
  exists c0, c1, evf, (before ++ b), (a ++ after).
  split; [exact Hup|]. split; [|exact Herr].
  now rewrite <- !app_assoc.
Qed.

Lemma upload_files_accounted (files : list ParquetFile) :
  forall (c c' : C) results evs,
    upload_files U files c = (results, c', evs) ->
    Forall2 (file_accounted (C := C) U evs) files results.
Proof.
  induction files as [|f rest IH]; intros c c' results evs; cbn [upload_files].
  - intros [= <- <- <-]. constructor.
  - destruct (upload_file U f c) as [[r c1] evs1] eqn:Hf.
    destruct (upload_files U rest c1) as [[rs c2] evs2] eqn:Hrest.
    intros [= <- <- <-]. constructor.
    + split.
      * pose proof (upload_file_result_file U f c) as Hn.
        now rewrite Hf in Hn.
      * exists c, c1, evs1, [], evs2. split; [exact Hf|]. split; [reflexivity|].
        intros e He. now apply (upload_file_raises U f c c1 r evs1 e).
    + eapply Forall2_impl; [|exact (IH _ _ _ _ Hrest)].
      intros f' r' Hacc.
      apply (file_accounted_within evs2 evs1 []) in Hacc.
      now rewrite app_nil_r in Hacc.
Qed.

(** A run that completes has passed the table check and then handled
    the files one after the other; the summary is that of the results. *)
Lemma upload_all_files_completed (files : list ParquetFile)
    (total_elapsed : float64) (c c' : C)
    (results : list FileResult) (summary : RunSummary)
    (raised_after : option Exn) (evs : list Event) :
  upload_all_files U files total_elapsed c
  = (Completed results summary raised_after, c', evs) ->
  exists c0 c1 evs1 evs2,
    query c (SelectOne (table_name U)) = (c0, None) /\
    upload_files U files c0 = (results, c1, evs1) /\
    summary = summarize results /\
    evs = EvQuery (SelectOne (table_name U)) true :: evs1 ++ evs2.
Proof.
  unfold upload_all_files. destruct files as [|f rest]; [discriminate|].
  destruct (query c (SelectOne (table_name U))) as [c0 [e|]] eqn:Hq;
    [discriminate|].
  destruct (upload_files U (f :: rest) c0) as [[rs c1] evs1] eqn:Hfs.
  unfold display_summary. destruct (is_zero total_elapsed).
  - intros [= <- <- <- <- <-]. exists c0, c1, evs1, [].
    repeat split; first [reflexivity | assumption].
  - destruct (query c1 (CountRows (table_name U))) as [c2 [e|]].
    + intros [= <- <- <- <- <-].
      exists c0, c1, evs1, [EvQuery (CountRows (table_name U)) false].
      repeat split; first [reflexivity | assumption].
    + destruct (query c2 (DateStats (table_name U))) as [c3 err2].
      intros [= <- <- <- <- <-]. exists c0, c1, evs1. eexists.
      repeat split; first [reflexivity | assumption].
Qed.
End Run.


(** C6. When the query that checks the destination table raises, the run
    stops there: the outcome is the failed verification (or the empty file
    list), and no event touches a file, a batch or the table. *)
Theorem table_check_failure_aborts_run
    {C : Type} `{ClickHouse C} (U : Uploader) (files : list ParquetFile)
    (total_elapsed : float64) (c c0 : C) (e : Exn) :
  query c (SelectOne (table_name U)) = (c0, Some e) ->
  let '(outcome, c', evs) := upload_all_files U files total_elapsed c in
  (outcome = NoFilesFound \/ outcome = TableVerificationFailed e) /\
  Forall (fun ev => is_processing ev = false) evs /\
  (files <> [] ->
   outcome = TableVerificationFailed e /\ c' = c0 /\
   evs = [EvQuery (SelectOne (table_name U)) false]).
Proof.
  intros Hq. unfold upload_all_files. destruct files as [|f rest].
  - split; [now left|]. split; [constructor | congruence].
  - rewrite Hq. split; [now right|]. split; [|now intros _].
    constructor; [reflexivity | constructor].
Qed.

(** C9. In a success dict, [rows_processed] counts the rows of every row
    group that was read, and [batches_processed] counts the row groups
    whose transformed batch has at least one row: a row group whose rows
    are all rejected adds its rows to the first and nothing to the
    second. *)
Theorem batches_processed_counts_nonempty_batches
    {C : Type} `{ClickHouse C} (U : Uploader) (f : ParquetFile)
    (c c' : C) (m : Metrics.t) (evs : list Event) :
  upload_file U f c = (Success m, c', evs) ->
  exists batches outs,
    row_groups f = Ok (map Ok batches) /\
    Forall2 (fun batch out => transform_batch U batch = Ok out) batches outs /\
    Metrics.rows_processed m = zsum (map len batches) /\
    Metrics.rows_uploaded m = zsum (map len outs) /\
    Metrics.batches_processed m
      = Z.of_nat (List.length (filter (fun out => 0 <? len out) outs)).
Proof.
  intros Hup. apply upload_file_succeeded in Hup.
  destruct Hup as (groups & Hg & Hnone & ->).
  destruct (upload_batches_success U (file_name f) groups 0 counters0 c Hnone)
    as (batches & outs & -> & HF & Hp & Hu & Hb).
  exists batches, outs. cbn in *. repeat split; try assumption; lia.
Qed.

Lemma sorted_after {A : Type} (R : A -> A -> Prop) (l1 l2 : list A) (x y : A) :
  StronglySorted R (l1 ++ x :: l2) -> In y l2 -> R x y.
Proof.
  induction l1 as [|a l1 IH]; cbn; intros Hs Hin.
  - apply StronglySorted_inv in Hs. destruct Hs as [_ Hall].
    rewrite Forall_forall in Hall. now apply Hall.
  - apply StronglySorted_inv in Hs. destruct Hs as [Hs _]. now apply IH.
Qed.

(** C7. In [upload_file] the row groups are handled one at a time, and
    each accepted batch is inserted before the next row group is read.
    The events come in the order of the loop, the read of a row group,
    then its transformation, then its insertion.  The loop starts with the
    read of the first row group; a batch that has been read is transformed
    at once; a transformed batch that is not empty is inserted at once,
    into the table of the uploader, through the client as it stands, and the
    event records whether the server accepted it; after an accepted
    insertion the next row group is read, if there is one.  So when row
    group [j] is read, the accepted rows of every earlier row group are in
    the table, and when the file ends without an error every transformed
    batch that is not empty has been inserted, the last one included.  A
    row group whose transformed batch is empty has no insertion among the
    events, the loop goes on to the next row group, and the client moves
    only through the insertions that the events record, so such a batch
    leaves it as it is. *)
Theorem batch_inserted_before_next_read
    {C : Type} `{ClickHouse C} (U : Uploader) (f : ParquetFile) (c : C)
    (groups : list (Result RawBatch)) :
  row_groups f = Ok groups ->
  let '(result, c', evs) := upload_file U f c in
  StronglySorted earlier evs /\
  (groups <> [] ->
   followed_at_once evs [] (EvOpen (file_name f))
     (EvReadRowGroup (file_name f) 0)) /\
  (forall i batch,
      In (EvReadRowGroup (file_name f) i) evs ->
      nth_error groups i = Some (Ok batch) ->
      exists before,
        followed_at_once evs before
          (EvReadRowGroup (file_name f) i) (EvTransform (file_name f) i)) /\
  (forall i batch out,
      In (EvTransform (file_name f) i) evs ->
      nth_error groups i = Some (Ok batch) ->
      transform_batch U batch = Ok out -> 0 < len out ->
      exists before,
        followed_at_once evs before
          (EvTransform (file_name f) i)
          (EvInsert (table_name U) (file_name f) i out
             (is_null (snd (insert_df (client_after before c)
                              (table_name U) out))))) /\
  (forall i df,
      In (EvInsert (table_name U) (file_name f) i df true) evs ->
      (S i < List.length groups)%nat ->
      exists before,
        followed_at_once evs before
          (EvInsert (table_name U) (file_name f) i df true)
          (EvReadRowGroup (file_name f) (S i))) /\
  (forall l1 l2 j,
      evs = l1 ++ EvReadRowGroup (file_name f) j :: l2 ->
      forall i batch out,
        (i < j)%nat -> nth_error groups i = Some (Ok batch) ->
        transform_batch U batch = Ok out -> 0 < len out ->
        In (EvInsert (table_name U) (file_name f) i out true) l1) /\
  (forall m, result = Success m ->
     forall i batch out,
       nth_error groups i = Some (Ok batch) ->
       transform_batch U batch = Ok out -> 0 < len out ->
       In (EvInsert (table_name U) (file_name f) i out true) evs) /\
  (forall i batch out,
      nth_error groups i = Some (Ok batch) ->
      transform_batch U batch = Ok out -> len out = 0 ->
      (forall t fl df ok, ~ In (EvInsert t fl i df ok) evs) /\
      (In (EvTransform (file_name f) i) evs ->
       (S i < List.length groups)%nat ->
       exists before,
         followed_at_once evs before
           (EvTransform (file_name f) i)
           (EvReadRowGroup (file_name f) (S i)))) /\
  c' = client_after evs c.
Proof.
  intros Hg. rewrite (upload_file_opened U f c groups Hg). cbv zeta.
  set (r := upload_batches U (file_name f) 0 groups counters0 c).
  destruct (upload_batches_stages U (file_name f) groups 0 counters0 c)
    as [Hsorted Hbound]. fold r in Hsorted, Hbound.
  assert (Hall : StronglySorted earlier (EvOpen (file_name f) :: events r)).
  { apply SSorted_cons; [exact Hsorted|].
    eapply Forall_impl; [|exact Hbound]. unfold earlier. cbn [stage]. intros; lia. }
  assert (Hopen : forall before a b,
             followed_at_once (events r) before a b ->
             followed_at_once (EvOpen (file_name f) :: events r)
               (EvOpen (file_name f) :: before) a b).
  { intros before a b. apply followed_at_once_cons. }
  split; [exact Hall|]. split; [|split; [|split; [|split; [|split; [|split; [|split]]]]]].
  - intros Hne. destruct groups as [|g rest]; [congruence|].
    destruct (upload_batches_starts U (file_name f) g rest 0 counters0 c)
      as [evs Hevs].
    exists evs. fold r in Hevs. now rewrite Hevs.
  - intros i batch [[=]|Hin] Hnth.
    rewrite <- (Nat.sub_0_r i) in Hnth.
    destruct (upload_batches_transforms U (file_name f) groups 0 counters0 c
                i batch Hin Hnth) as [before Hnext].
    eexists. apply Hopen. exact Hnext.
  - intros i batch out [[=]|Hin] Hnth Ht Hpos.
    rewrite <- (Nat.sub_0_r i) in Hnth.
    destruct (upload_batches_inserts U (file_name f) groups 0 counters0 c
                i batch out Hin Hnth Ht Hpos) as [before Hnext].
    exists (EvOpen (file_name f) :: before). apply Hopen. exact Hnext.
  - intros i df [[=]|Hin] Hlt.
    rewrite <- (Nat.sub_0_r i) in Hlt.
    destruct (proj1 (upload_batches_goes_on U (file_name f) groups 0 counters0 c
                       i Hlt) df Hin) as [before Hnext].
    eexists. apply Hopen. exact Hnext.
  - intros l1 l2 j Hsplit i batch out Hij Hnth Ht Hpos.
    assert (Hread : In (EvReadRowGroup (file_name f) j) (events r)).
    { assert (Hin : In (EvReadRowGroup (file_name f) j)
                       (EvOpen (file_name f) :: events r)).
      { rewrite Hsplit. apply in_elt. }
      destruct Hin as [Heq|Hin]; [discriminate | exact Hin]. }
    assert (Hins : In (EvInsert (table_name U) (file_name f) i out true)
                      (EvOpen (file_name f) :: events r)).
    { right.
      apply (upload_batches_reached U (file_name f) groups 0 counters0 c
               (file_name f) j Hread i batch out); try assumption; [lia|].
      now rewrite Nat.sub_0_r. }
    rewrite Hsplit in Hins, Hall.
    apply in_app_or in Hins. destruct Hins as [Hin|[Heq|Hin]];
      [exact Hin | discriminate |].
    pose proof (sorted_after earlier l1 l2 _ _ Hall Hin) as Hlater.
    unfold earlier in Hlater. cbn [stage] in Hlater. lia.
  - intros m Hm i batch out Hnth Ht Hpos. right.
    assert (Hnone : raised r = None).
    { destruct (raised r); [discriminate | reflexivity]. }
    apply (upload_batches_all_inserted U (file_name f) groups 0 counters0 c
             Hnone i batch out); try assumption; [lia|].
    now rewrite Nat.sub_0_r.
  - intros i batch out Hnth Ht Hzero. split.
    + intros t fl df ok [Heq|Hin]; [discriminate|].
      apply (upload_batches_insertions U (file_name f) groups 0 counters0 c) in Hin.
      destruct Hin as (_ & _ & _ & b & Hnth' & Hb & Hpos).
      rewrite Nat.sub_0_r, Hnth in Hnth'. injection Hnth' as <-.
      rewrite Ht in Hb. injection Hb as <-. lia.
    + intros [[=]|Hin] Hlt.
      rewrite <- (Nat.sub_0_r i) in Hlt, Hnth.
      destruct (proj2 (upload_batches_goes_on U (file_name f) groups 0 counters0 c
                         i Hlt) batch out Hin Hnth Ht Hzero) as [before Hnext].
      eexists. apply Hopen. exact Hnext.
  - unfold r. rewrite (upload_batches_client U (file_name f) groups 0 counters0 c).
    reflexivity.
Qed.

Lemma batch_inserted_before_next_read_witness :
  exists out,
    transform_batch yellow (Scenario.yellow_batch [Scenario.good_trip]) = Ok out /\
    0 < len out /\
    In (EvInsert "yellow_taxi_trips" (file_name Scenario.file_b) 1 out true)
       (snd (upload_file yellow Scenario.file_b (Scenario.server []))).
Proof.
  pose proof (batch_inserted_before_next_read yellow Scenario.file_b
                (Scenario.server []) _ eq_refl) as Hw.
  destruct (upload_file yellow Scenario.file_b (Scenario.server []))
    as [[r c'] evs] eqn:Erun.
  assert (Hr : exists m, r = Success m).
  { vm_compute in Erun. injection Erun as <- _ _. eexists. reflexivity. }
  destruct Hr as [m Hm].
  destruct Hw as (_ & _ & _ & _ & _ & _ & Hlast & _).
  eexists. split; [reflexivity|]. split; [reflexivity|].
  exact (Hlast m Hm 1%nat _ _ eq_refl eq_refl eq_refl).
Defined.

(** ** The totals of a run *)

Lemma sum_successful_metrics (key : Metrics.t -> Z) (results : list FileResult) :
  sum_successful key results = zsum (map key (successful_metrics results)).
Proof.
  induction results as [|[m|e] rs IH]; cbn; [reflexivity| |exact IH].
  unfold sum_successful in IH. cbn in IH. now rewrite IH.
Qed.

Lemma successful_metrics_filter (results : list FileResult) :
  List.length (filter (fun r => negb (has_error r)) results)
  = List.length (successful_metrics results) /\
  (List.length (filter has_error results)
   + List.length (successful_metrics results) = List.length results)%nat.
Proof.
  induction results as [|[m|e] rs [IH1 IH2]]; [split; reflexivity| |].
  - change (successful_metrics (Success m :: rs))
      with (m :: successful_metrics rs).
    cbn [filter has_error negb List.length]. split; lia.
  - change (successful_metrics (Failed e :: rs)) with (successful_metrics rs).
    cbn [filter has_error negb List.length]. split; lia.
Qed.

Lemma upload_files_filtered {C : Type} `{ClickHouse C} (U : Uploader)
    (files : list ParquetFile) :
  forall (c c' : C) results evs,
    upload_files U files c = (results, c', evs) ->
    Forall (fun m => Metrics.rows_filtered m
                     = Metrics.rows_processed m - Metrics.rows_uploaded m)
           (successful_metrics results).
Proof.
  induction files as [|f rest IH]; intros c c' results evs; cbn [upload_files].
  - intros [= <- <- <-]. constructor.
  - destruct (upload_file U f c) as [[r c1] evs1] eqn:Hf.
    destruct (upload_files U rest c1) as [[rs c2] evs2] eqn:Hrest.
    intros [= <- <- <-]. cbn [successful_metrics flat_map].
    apply Forall_app. split; [|exact (IH _ _ _ _ Hrest)].
    destruct r as [m|e]; [|constructor].
    apply upload_file_succeeded in Hf. destruct Hf as (groups & _ & _ & ->).
    constructor; [reflexivity | constructor].
Qed.

Lemma zsum_sub (A : Type) (f g h : A -> Z) (l : list A) :
  Forall (fun a => h a = f a - g a) l ->
  zsum (map h l) = zsum (map f l) - zsum (map g l).
Proof.
  induction 1 as [|a l Ha _ IH]; cbn; [reflexivity|].
  unfold zsum in IH. lia.
Qed.

(** C1, as amended.  The totals of a run that completes are the sums of
    the per-file metrics over the files that did not end in the error
    state: rows processed, rows uploaded, and rows filtered as the
    difference of the two; the files that failed are counted as failed and
    add nothing to the totals.  The totals are printed before anything
    that [display_summary] can raise. *)
Theorem run_totals_sum_successful_files
    {C : Type} `{ClickHouse C} (U : Uploader) (files : list ParquetFile)
    (total_elapsed : float64) (c c' : C) (results : list FileResult)
    (summary : RunSummary) (raised_after : option Exn) (evs : list Event) :
  upload_all_files U files total_elapsed c
  = (Completed results summary raised_after, c', evs) ->
  let succeeded := successful_metrics results in
  total_rows_processed summary = zsum (map Metrics.rows_processed succeeded) /\
  total_rows_uploaded summary = zsum (map Metrics.rows_uploaded succeeded) /\
  total_rows_filtered summary = zsum (map Metrics.rows_filtered succeeded) /\
  successful_files summary = Z.of_nat (List.length succeeded) /\
  successful_files summary + failed_files summary
    = Z.of_nat (List.length files).
Proof.
  intros Hrun succeeded.
  apply upload_all_files_completed in Hrun.
  destruct Hrun as (c0 & c1 & evs1 & evs2 & _ & Hfiles & -> & _).
  pose proof (upload_files_accounted U files c0 c1 results evs1 Hfiles) as Hacc.
  apply Forall2_length in Hacc.
  apply upload_files_filtered in Hfiles. fold succeeded in Hfiles.
  destruct (successful_metrics_filter results) as [Hs Hf].
  fold succeeded in Hs, Hf.
  unfold summarize. cbn [total_rows_processed total_rows_uploaded
                           total_rows_filtered successful_files failed_files].
  rewrite !sum_successful_metrics. fold succeeded.
  rewrite (zsum_sub _ Metrics.rows_processed Metrics.rows_uploaded
             Metrics.rows_filtered succeeded Hfiles).
  repeat split; lia.
Qed.


Lemma table_check_failure_aborts_run_witness :
  fst (fst (upload_all_files yellow [Scenario.file_a; Scenario.corrupt]
              Scenario.two_seconds Scenario.no_table))
  = TableVerificationFailed (ClientError "unknown table").
Proof.
  pose proof (table_check_failure_aborts_run yellow
                [Scenario.file_a; Scenario.corrupt] Scenario.two_seconds
                Scenario.no_table Scenario.no_table
                (ClientError "unknown table") eq_refl) as Hw.
  destruct (upload_all_files yellow [Scenario.file_a; Scenario.corrupt]
              Scenario.two_seconds Scenario.no_table) as [[outcome c'] evs].
  destruct Hw as (_ & _ & Hw). apply Hw. discriminate.
Defined.

Lemma batches_processed_counts_nonempty_batches_witness :
  exists m c' evs,
    upload_file yellow Scenario.file_c (Scenario.server []) = (Success m, c', evs) /\
    Metrics.rows_processed m = 3 /\ Metrics.batches_processed m = 1 /\
    exists batches outs,
      row_groups Scenario.file_c = Ok (map Ok batches) /\
      Forall2 (fun batch out => transform_batch yellow batch = Ok out) batches outs /\
      Metrics.rows_processed m = zsum (map len batches) /\
      Metrics.rows_uploaded m = zsum (map len outs) /\
      Metrics.batches_processed m
        = Z.of_nat (List.length (filter (fun out => 0 <? len out) outs)).
Proof.
  do 3 eexists. split; [vm_compute; reflexivity|].
  split; [reflexivity|]. split; [reflexivity|].
  eapply (batches_processed_counts_nonempty_batches yellow Scenario.file_c
           (Scenario.server []) _ _ _).
  vm_compute. reflexivity.
Defined.

Lemma run_totals_sum_successful_files_witness :
  exists results summary c' evs,
    upload_all_files yellow
      [Scenario.file_a; Scenario.file_b; Scenario.file_c]
      Scenario.two_seconds (Scenario.server [true; true; false])
    = (Completed results summary None, c', evs) /\
    total_rows_uploaded summary
      = zsum (map Metrics.rows_uploaded (successful_metrics results)).
Proof.
  do 4 eexists. split.
  - vm_compute. reflexivity.
  - eapply (run_totals_sum_successful_files yellow
             [Scenario.file_a; Scenario.file_b; Scenario.file_c]
             Scenario.two_seconds (Scenario.server [true; true; false])
             _ _ _ _ _).
    vm_compute. reflexivity.
Defined.

(** C1, as stated, fails.  Three files, the second of which has its
    second insertion rejected after its first batch of two rows went in:
    the error dict of that file says [rows_uploaded = 2], the two other
    files upload one row each, and the summary reports two uploaded rows,
    not the four that the per-file counts add up to. *)
Lemma totals_leave_out_failed_files :
  exists results summary c' evs,
    upload_all_files yellow
      [Scenario.file_a; Scenario.file_b; Scenario.file_c]
      Scenario.two_seconds (Scenario.server [true; true; false])
    = (Completed results summary None, c', evs) /\
    map result_rows_uploaded results = [1; 2; 1] /\
    map has_error results = [false; true; false] /\
    sum_all_rows_uploaded results = 4 /\
    total_rows_uploaded summary = 2 /\
    total_rows_uploaded summary <> sum_all_rows_uploaded results.
Proof.
  do 4 eexists. split; [vm_compute; reflexivity|].
  repeat split; try reflexivity. discriminate.
Qed.

(** ** The store-and-forward flag *)

Lemma yellow_flag_spec (cell : option string) :
  YellowTaxiUploader.flag cell
  = Some (match cell with Some code => String.eqb code "Y" | None => false end).
Proof.
  destruct cell as [code|]; [|reflexivity].
  unfold YellowTaxiUploader.flag, series_map, flag_codes, dict_lookup.
  rewrite (String.eqb_sym "Y" code), (String.eqb_sym "N" code).
  destruct (String.eqb code "Y"); [reflexivity|].
  now destruct (String.eqb code "N").
Qed.

Lemma green_flag_spec (cell : option string) :
  GreenTaxiUploader.flag cell
  = match cell with
    | None => Some false
    | Some code =>
        if String.eqb code "Y" then Some true
        else if String.eqb code "N" then Some false
        else None
    end.
Proof.
  destruct cell as [code|]; [|reflexivity].
  unfold GreenTaxiUploader.flag, series_map, flag_codes, dict_lookup, fillna.
  now rewrite (String.eqb_sym "Y" code), (String.eqb_sym "N" code).
Qed.

(** C2 fails on the green transformer.  A green row whose flag is the
    unmapped code ['X'] passes every check and every filter, and comes out
    with a missing flag, not with [False]; the yellow transformer turns the
    same row into [False]. *)
Theorem green_unmapped_flag_stays_missing :
  GreenTaxiUploader.flag (Some "X") = None /\
  YellowTaxiUploader.flag (Some "X") = Some false /\
  (exists out,
      transform_batch green (Scenario.green_batch [Scenario.odd_flag]) = Ok out /\
      map Clean.store_and_fwd_flag (rows out) = [None]) /\
  (exists out,
      transform_batch yellow (Scenario.yellow_batch [Scenario.odd_flag]) = Ok out /\
      map Clean.store_and_fwd_flag (rows out) = [Some false]).
Proof.
  split; [reflexivity|]. split; [reflexivity|]. split.
  - eexists. split; [vm_compute; reflexivity | reflexivity].
  - eexists. split; [vm_compute; reflexivity | reflexivity].
Qed.

(** ** IEEE-754 rounding

    The facts about [binary_round_aux] that the bounds of the derived
    columns rest on: it never makes a NaN out of a non-negative mantissa,
    its mantissa fits the precision, and rounding to float32 does not step
    over an integer bound. *)

Lemma digits2_pos_bounds (p : positive) :
  2 ^ (Zpos (digits2_pos p) - 1) <= Zpos p < 2 ^ Zpos (digits2_pos p).
Proof.
  induction p as [p IH|p IH|]; cbn [digits2_pos]; [| |cbn; lia];
    rewrite Pos2Z.inj_succ;
    replace (Z.succ (Zpos (digits2_pos p)) - 1) with (Zpos (digits2_pos p)) by lia;
    rewrite Z.pow_succ_r by lia;
    assert (Hd : 2 ^ Zpos (digits2_pos p) = 2 * 2 ^ (Zpos (digits2_pos p) - 1))
      by (rewrite <- Z.pow_succ_r by lia; f_equal; lia);
    lia.
Qed.

(** A positive number below [2 ^ n] has at most [n] digits. *)
Lemma digits2_pos_le (p : positive) (n : Z) :
  Zpos p < 2 ^ n -> Zpos (digits2_pos p) <= n.
Proof.
  intros Hlt. destruct (digits2_pos_bounds p) as [Hlo _].
  destruct (Z.le_gt_cases (Zpos (digits2_pos p)) n) as [Hle|Hgt]; [exact Hle|].
  assert (Hn : 0 <= n).
  { destruct (Z.lt_ge_cases n 0) as [Hneg|Hpos]; [|exact Hpos].
    rewrite Z.pow_neg_r in Hlt by exact Hneg. lia. }
  assert (2 ^ n <= 2 ^ (Zpos (digits2_pos p) - 1))
    by (apply Z.pow_le_mono_r; lia).
  lia.
Qed.

Lemma Zdigits2_nonneg (m : Z) : 0 <= Zdigits2 m.
Proof. destruct m; cbn; lia. Qed.

Lemma Zdigits2_upper (m : Z) : 0 <= m -> m < 2 ^ Zdigits2 m.
Proof.
  destruct m as [|p|p]; cbn [Zdigits2]; [cbn; lia | | lia].
  intros _. apply digits2_pos_bounds.
Qed.

(** ** Shifting to the right *)

Lemma iter_pos_invariant {A : Type} (f : A -> A) (Inv : Z -> A -> Prop) :
  (forall k x, 0 <= k -> Inv k x -> Inv (k + 1) (f x)) ->
  forall n k x, 0 <= k -> Inv k x -> Inv (k + Zpos n) (iter_pos f n x).
Proof.
  intros Hstep. induction n as [n IH|n IH|]; intros k x Hk Hx; cbn [iter_pos].
  - replace (k + Zpos n~1) with (k + 1 + Zpos n + Zpos n) by lia.
    apply IH; [lia|]. apply IH; [lia|]. now apply Hstep.
  - replace (k + Zpos n~0) with (k + Zpos n + Zpos n) by lia.
    apply IH; [lia|]. now apply IH.
  - now apply Hstep.
Qed.

Lemma shr_1_fields (m : Z) (r s : bool) :
  0 <= m ->
  shr_1 (Build_shr_record m r s) = Build_shr_record (m / 2) (Z.odd m) (r || s).
Proof.
  intros Hm. rewrite <- Z.div2_div.
  destruct m as [|[p|p|]|p]; cbn; try reflexivity; lia.
Qed.

Lemma shr_1_shifted (m0 : Z) (clean : bool) (k : Z) (mrs : shr_record) :
  0 <= m0 -> 0 <= k -> shifted m0 clean k mrs -> shifted m0 clean (k + 1) (shr_1 mrs).
Proof.
  intros Hm0 Hk [Hm Hclean].
  assert (Hpow : 0 < 2 ^ k) by (apply Z.pow_pos_nonneg; lia).
  assert (Hdiv : m0 / 2 ^ (k + 1) = m0 / 2 ^ k / 2).
  { rewrite Z.pow_add_r, Z.pow_1_r by lia. now rewrite Z.div_div by lia. }
  assert (Hnonneg : 0 <= shr_m mrs) by (rewrite Hm; apply Z.div_pos; lia).
  assert (Hmod : m0 mod 2 ^ (k + 1) = 0 ->
                 m0 mod 2 ^ k = 0 /\ (m0 / 2 ^ k) mod 2 = 0).
  { rewrite Z.pow_add_r, Z.pow_1_r by lia.
    rewrite Z.rem_mul_r by lia.
    pose proof (Z.mod_pos_bound m0 (2 ^ k) Hpow).
    pose proof (Z.mod_pos_bound (m0 / 2 ^ k) 2 ltac:(lia)). nia. }
  destruct mrs as [m r s]. cbn [shr_m shr_r shr_s] in *.
  rewrite (shr_1_fields m r s Hnonneg). unfold shifted. cbn [shr_m shr_r shr_s].
  split; [now rewrite Hdiv, Hm|].
  intros Hc H0. destruct (Hmod H0) as [H1 H2].
  destruct (Hclean Hc H1) as [-> ->]. split; [|reflexivity].
  rewrite <- Hm, Zmod_odd in H2. destruct (Z.odd m); [discriminate|reflexivity].
Qed.

(** [shr] on a non-negative mantissa. *)
Lemma shr_spec (m : Z) (r s : bool) (e n : Z) :
  0 <= m ->
  let k := Z.max 0 n in
  shifted m (negb (r || s)) k (fst (shr (Build_shr_record m r s) e n)) /\
  snd (shr (Build_shr_record m r s) e n) = e + k.
Proof.
  intros Hm k. unfold shr.
  assert (Hstart : shifted m (negb (r || s)) 0 (Build_shr_record m r s)).
  { split; cbn [shr_m shr_r shr_s]; [now rewrite Z.pow_0_r, Z.div_1_r|].
    intros Hc _. now destruct r, s. }
  destruct n as [|p|p]; cbn [fst snd]; subst k.
  - split; [exact Hstart | cbn; lia].
  - replace (Z.max 0 (Zpos p)) with (0 + Zpos p) by lia. split; [|lia].
    apply (iter_pos_invariant shr_1 (shifted m (negb (r || s)))); try lia;
      [|exact Hstart].
    intros k x Hk. now apply shr_1_shifted.
  - split; [exact Hstart | cbn; lia].
Qed.

Lemma round_nearest_even_bounds (m : Z) (l : location) :
  m <= round_nearest_even m l <= m + 1.
Proof.
  unfold round_nearest_even.
  destruct l as [|[| |]]; try destruct (Z.even m); lia.
Qed.

Lemma round_nearest_even_exact (m : Z) : round_nearest_even m loc_Exact = m.
Proof. reflexivity. Qed.

Lemma shr_record_of_loc_fields (m : Z) (l : location) :
  exists r s,
    shr_record_of_loc m l = Build_shr_record m r s /\
    (l = loc_Exact -> negb (r || s) = true).
Proof.
  destruct l as [|[| |]]; cbn; do 2 eexists; split; try reflexivity;
    try discriminate; reflexivity.
Qed.

(** [shr_fexp] on a non-negative mantissa: the mantissa is divided by the
    power of two that brings the exponent up to [fexp], and the location is
    exact when the input was exact and the division leaves no remainder. *)
Lemma shr_fexp_spec (prec emax m e : Z) (l : location) :
  0 <= m ->
  let k := Z.max 0 (fexp prec emax (Zdigits2 m + e) - e) in
  shr_m (fst (shr_fexp prec emax m e l)) = m / 2 ^ k /\
  snd (shr_fexp prec emax m e l) = e + k /\
  (l = loc_Exact -> m mod 2 ^ k = 0 ->
   loc_of_shr_record (fst (shr_fexp prec emax m e l)) = loc_Exact).
Proof.
  intros Hm k. unfold shr_fexp.
  destruct (shr_record_of_loc_fields m l) as (r & s & -> & Hexact).
  destruct (shr_spec m r s e (fexp prec emax (Zdigits2 m + e) - e) Hm)
    as [[Hq Hclean] He].
  fold k in Hq, Hclean, He.
  split; [exact Hq|]. split; [exact He|].
  intros Hl Hmod. destruct (Hclean (Hexact Hl) Hmod) as [Hr Hs].
  destruct (fst (shr _ _ _)) as [m' r' s']. cbn in Hr, Hs. now subst.
Qed.

Lemma binary_round_aux_steps (prec emax : Z) (sx : bool) (mx ex : Z) (lx : location) :
  0 <= mx ->
  exists m2 e1 m3 e3,
    round_steps prec emax mx ex lx m2 e1 m3 e3 /\
    binary_round_aux prec emax sx mx ex lx
    = match m3 with
      | Z0 => S754_zero sx
      | Zpos m =>
          if e3 <=? emax - prec then S754_finite sx m e3 else S754_infinity sx
      | Zneg _ => S754_nan
      end.
Proof.
  intros Hmx. unfold binary_round_aux.
  destruct (shr_fexp_spec prec emax mx ex lx Hmx) as (Hm1 & He1 & Hl1).
  destruct (shr_fexp prec emax mx ex lx) as [mrs1 e1]. cbn [fst snd] in *.
  set (m2 := round_nearest_even (shr_m mrs1) (loc_of_shr_record mrs1)).
  pose proof (round_nearest_even_bounds (shr_m mrs1) (loc_of_shr_record mrs1))
    as Hm2. fold m2 in Hm2.
  assert (Hm1pos : 0 <= shr_m mrs1).
  { rewrite Hm1. apply Z.div_pos; [lia|]. apply Z.pow_pos_nonneg; lia. }
  assert (Hm2pos : 0 <= m2) by lia.
  destruct (shr_fexp_spec prec emax m2 e1 loc_Exact Hm2pos) as (Hm3 & He3 & _).
  destruct (shr_fexp prec emax m2 e1 loc_Exact) as [mrs3 e3]. cbn [fst snd] in *.
  exists m2, e1, (shr_m mrs3), e3. split; [|reflexivity].
  assert (Hk1 : e1 - ex = Z.max 0 (fexp prec emax (Zdigits2 mx + ex) - ex)) by lia.
  assert (Hk3 : e3 - e1 = Z.max 0 (fexp prec emax (Zdigits2 m2 + e1) - e1)) by lia.
  constructor; rewrite ?Hk1, ?Hk3; try lia; try assumption.
  intros Hl Hmod. unfold m2. rewrite (Hl1 Hl Hmod). cbn. exact Hm1.
Qed.

Lemma fexp_lower (prec emax x : Z) : x - prec <= fexp prec emax x.
Proof. unfold fexp. lia. Qed.

Lemma binary_round_aux_rounded (prec emax : Z) (sx : bool) (mx ex : Z) (lx : location) :
  0 < prec -> 0 <= mx ->
  rounded prec sx (binary_round_aux prec emax sx mx ex lx).
Proof.
  intros Hprec Hmx.
  destruct (binary_round_aux_steps prec emax sx mx ex lx Hmx)
    as (m2 & e1 & m3 & e3 & Hsteps & ->).
  destruct Hsteps as [He1 Hlo Hhi _ He3 Hm3].
  assert (Hm2 : 0 <= m2).
  { assert (0 <= mx / 2 ^ (e1 - ex)); [|lia].
    apply Z.div_pos; [lia|]. apply Z.pow_pos_nonneg; lia. }
  assert (Hk : 0 <= e3 - e1) by lia.
  assert (Hpow : 0 < 2 ^ (e3 - e1)) by (apply Z.pow_pos_nonneg; lia).
  assert (Hm3pos : 0 <= m3) by (subst m3; apply Z.div_pos; lia).
  destruct m3 as [|m|m]; cbn [rounded]; [reflexivity| |lia].
  assert (Hdigits : Zpos (digits2_pos m) <= prec).
  { apply digits2_pos_le. rewrite Hm3.
    apply Z.div_lt_upper_bound; [exact Hpow|].
    rewrite <- Z.pow_add_r by lia.
    pose proof (Zdigits2_upper m2 Hm2) as Hup.
    pose proof (fexp_lower prec emax (Zdigits2 m2 + e1)) as Hf.
    assert (2 ^ Zdigits2 m2 <= 2 ^ (e3 - e1 + prec))
      by (apply Z.pow_le_mono_r; lia).
    lia. }
  destruct (e3 <=? emax - prec); cbn [rounded]; [now split | reflexivity].
Qed.

Lemma rounded_not_nan (prec : Z) (sx : bool) (x : spec_float) :
  rounded prec sx x -> is_nan x = false.
Proof. destruct x; cbn; tauto. Qed.

(** ** Division and multiplication *)

Lemma SFdiv_core_binary_nonneg (prec emax : Z) (m1 : positive) (e1 : Z)
    (m2 : positive) (e2 : Z) :
  0 <= fst (fst (SFdiv_core_binary prec emax (Zpos m1) e1 (Zpos m2) e2)).
Proof.
  unfold SFdiv_core_binary.
  set (s := e1 - e2 - _).
  set (m' := match s with Zpos _ => Z.shiftl (Zpos m1) s | Z0 => Zpos m1 | Zneg _ => 0 end).
  assert (Hm' : 0 <= m').
  { subst m'. destruct s; try lia. apply Z.shiftl_nonneg. lia. }
  pose proof (Z.div_pos m' (Zpos m2) Hm' ltac:(lia)) as Hq.
  unfold Z.div in Hq.
  destruct (Z.div_eucl m' (Zpos m2)) as [q r]. exact Hq.
Qed.

(** A quotient is a number: NaN comes out of a division only when it goes
    in, or from 0/0 and inf/inf; its mantissa fits the precision. *)
Lemma SFdiv_finite_finite (prec emax : Z) (sx : bool) (mx : positive) (ex : Z)
    (sy : bool) (my : positive) (ey : Z) :
  0 < prec ->
  rounded prec (xorb sx sy)
    (SFdiv prec emax (S754_finite sx mx ex) (S754_finite sy my ey)).
Proof.
  intros Hprec. cbn [SFdiv].
  pose proof (SFdiv_core_binary_nonneg prec emax mx ex my ey) as Hq.
  destruct (SFdiv_core_binary prec emax (Zpos mx) ex (Zpos my) ey) as [[mz ez] lz].
  now apply binary_round_aux_rounded.
Qed.

Lemma rounded_digits_within (prec : Z) (sx : bool) (x : spec_float) :
  rounded prec sx x -> digits_within prec x.
Proof. destruct x; cbn; tauto. Qed.

Lemma SFdiv_digits_within (prec emax : Z) (x y : spec_float) :
  0 < prec -> digits_within prec (SFdiv prec emax x y).
Proof.
  intros Hprec.
  destruct x as [sx|sx| |sx mx ex], y as [sy|sy| |sy my ey];
    try exact I.
  eapply rounded_digits_within. now apply SFdiv_finite_finite.
Qed.

Lemma SFdiv_not_nan_r (prec emax : Z) (x : spec_float) (sy : bool)
    (my : positive) (ey : Z) :
  0 < prec -> is_nan x = false ->
  is_nan (SFdiv prec emax x (S754_finite sy my ey)) = false.
Proof.
  intros Hprec Hx. destruct x as [sx|sx| |sx mx ex]; try reflexivity;
    [discriminate|].
  eapply rounded_not_nan. now apply SFdiv_finite_finite.
Qed.

Lemma SFdiv_not_nan_l (prec emax : Z) (sx : bool) (mx : positive) (ex : Z)
    (y : spec_float) :
  0 < prec -> is_nan y = false ->
  is_nan (SFdiv prec emax (S754_finite sx mx ex) y) = false.
Proof.
  intros Hprec Hy. destruct y as [sy|sy| |sy my ey]; try reflexivity;
    [discriminate|].
  eapply rounded_not_nan. now apply SFdiv_finite_finite.
Qed.

Lemma SFmul_not_nan_r (prec emax : Z) (x : spec_float) (sy : bool)
    (my : positive) (ey : Z) :
  0 < prec -> is_nan x = false ->
  is_nan (SFmul prec emax x (S754_finite sy my ey)) = false.
Proof.
  intros Hprec Hx. destruct x as [sx|sx| |sx mx ex]; try reflexivity;
    [discriminate|].
  cbn [SFmul]. eapply rounded_not_nan.
  apply binary_round_aux_rounded; [exact Hprec | lia].
Qed.

(** ** Narrowing to float32 below a bound *)

(** The order of two positive finite floats: by the exponents, then by
    the mantissas. *)
Lemma FLe_finite_lower (m c : positive) (e e' : Z) :
  e < e' -> FLe (S754_finite false m e) (S754_finite false c e').
Proof.
  intros He. left. cbn [SFcompare].
  now rewrite (proj2 (Z.compare_lt_iff e e') He).
Qed.

Lemma FLe_finite_same (m c : positive) (e : Z) :
  Zpos m <= Zpos c -> FLe (S754_finite false m e) (S754_finite false c e).
Proof.
  intros Hm. unfold FLe. cbn [SFcompare]. rewrite Z.compare_refl.
  fold (Pos.compare m c).
  destruct (Pos.compare_spec m c) as [H|H|H]; [now right | now left | lia].
Qed.

Lemma FLe_finite_inv (m c : positive) (e e' : Z) :
  FLe (S754_finite false m e) (S754_finite false c e') ->
  e < e' \/ (e = e' /\ Zpos m <= Zpos c).
Proof.
  unfold FLe. cbn [SFcompare]. fold (Pos.compare m c).
  destruct (Z.compare_spec e e') as [He|He|He].
  - destruct (Pos.compare_spec m c) as [H|H|H]; intros [Hc|Hc];
      try discriminate; right; split; try assumption; lia.
  - now left.
  - intros [Hc|Hc]; discriminate.
Qed.

Lemma Zdigits2_le (m n : Z) : 0 <= m < 2 ^ n -> 0 <= n -> Zdigits2 m <= n.
Proof.
  intros [Hm Hlt] Hn. destruct m as [|p|p]; cbn [Zdigits2]; [exact Hn| |lia].
  now apply digits2_pos_le.
Qed.

(** With a mantissa of at most [100 * 2 ^ (-e)] at an exponent [e <= -17],
    the exponent that float32 gives to the number is at most [-17]. *)
Lemma fexp32_below_128 (m e : Z) :
  e <= -17 -> 0 <= m <= 100 * 2 ^ (- e) ->
  fexp F32.prec F32.emax (Zdigits2 m + e) <= -17.
Proof.
  intros He [Hm Hle].
  assert (Hpow : 0 < 2 ^ (- e)) by (apply Z.pow_pos_nonneg; lia).
  assert (Hdig : Zdigits2 m <= 7 - e).
  { apply Zdigits2_le; [|lia]. split; [exact Hm|].
    replace (7 - e) with (7 + - e) by lia.
    rewrite Z.pow_add_r by lia. change (2 ^ 7) with 128. lia. }
  unfold fexp, emin, F32.prec, F32.emax. lia.
Qed.

(** Dividing by a power of two keeps a mantissa under the bound, also when
    the quotient is rounded up. *)
Lemma shift_keeps_bound (m e e' m' : Z) (exact : Prop) :
  e <= e' -> e' <= 0 -> 0 <= m <= 100 * 2 ^ (- e) ->
  m' <= m / 2 ^ (e' - e) + 1 ->
  (m mod 2 ^ (e' - e) = 0 -> m' = m / 2 ^ (e' - e)) ->
  m' <= 100 * 2 ^ (- e').
Proof.
  intros He He' [Hm Hle] Hup Hexact.
  set (k := e' - e) in *.
  assert (Hk : 0 < 2 ^ k) by (apply Z.pow_pos_nonneg; lia).
  assert (Hsplit : 2 ^ (- e) = 2 ^ (- e') * 2 ^ k).
  { rewrite <- Z.pow_add_r by lia. f_equal. lia. }
  rewrite Hsplit in Hle.
  pose proof (Z.div_mod m (2 ^ k) ltac:(lia)) as Hdm.
  pose proof (Z.mod_pos_bound m (2 ^ k) Hk) as Hmod.
  assert (Hq : m / 2 ^ k <= 100 * 2 ^ (- e')).
  { apply Z.div_le_upper_bound; [exact Hk|]. lia. }
  destruct (Z.eq_dec (m mod 2 ^ k) 0) as [H0|Hne].
  - rewrite (Hexact H0). exact Hq.
  - assert (m / 2 ^ k < 100 * 2 ^ (- e')); [|lia]. nia.
Qed.

(** Rounding to float32 does not step over 100. *)
Lemma round32_below_100 (mz ez : Z) :
  ez <= -17 -> 0 <= mz <= 100 * 2 ^ (- ez) ->
  in_range F32.zero F32.c100
    (binary_round_aux F32.prec F32.emax false mz ez loc_Exact).
Proof.
  intros Hez Hmz.
  destruct (binary_round_aux_steps F32.prec F32.emax false mz ez loc_Exact
              (proj1 Hmz)) as (m2 & e1 & m3 & e3 & Hsteps & ->).
  destruct Hsteps as [He1 Hlo Hhi Hexact He3 Hm3].
  pose proof (fexp32_below_128 mz ez Hez Hmz) as Hf1.
  assert (Hpow1 : 0 < 2 ^ (e1 - ez)) by (apply Z.pow_pos_nonneg; lia).
  assert (Hm2pos : 0 <= m2).
  { assert (0 <= mz / 2 ^ (e1 - ez)) by (apply Z.div_pos; lia). lia. }
  assert (Hm2 : m2 <= 100 * 2 ^ (- e1)).
  { apply (shift_keeps_bound mz ez e1 m2 True); try lia.
    intros H0. now apply Hexact. }
  pose proof (fexp32_below_128 m2 e1 ltac:(lia) (conj Hm2pos Hm2)) as Hf3.
  assert (Hpow3 : 0 < 2 ^ (e3 - e1)) by (apply Z.pow_pos_nonneg; lia).
  assert (Hm3pos : 0 <= m3) by (subst m3; apply Z.div_pos; lia).
  assert (Hm3le : m3 <= 100 * 2 ^ (- e3)).
  { apply (shift_keeps_bound m2 e1 e3 m3 True); try lia. }
  assert (He3le : e3 <= -17) by lia.
  destruct m3 as [|m|m]; [split; [now right | now left]| |lia].
  assert (Hfin : (e3 <=? F32.emax - F32.prec) = true)
    by (apply Z.leb_le; unfold F32.emax, F32.prec; lia).
  rewrite Hfin. split; [now left|].
  change F32.c100 with (S754_finite false 13107200 (-17)).
  destruct (Z.eq_dec e3 (-17)) as [Heq|Hne].
  - rewrite Heq in Hm3le |- *.
    change (100 * 2 ^ (- -17)) with 13107200 in Hm3le.
    now apply FLe_finite_same.
  - apply FLe_finite_lower. lia.
Qed.

Lemma iter_xO (d m : positive) :
  Zpos (Pos.iter xO m d) = Zpos m * 2 ^ Zpos d.
Proof.
  induction d as [|d IH] using Pos.peano_ind.
  - cbn. lia.
  - rewrite Pos.iter_succ, Pos2Z.inj_xO, IH, Pos2Z.inj_succ, Z.pow_succ_r by lia.
    lia.
Qed.

(** [shl_align] keeps the value and does not raise the exponent. *)
Lemma shl_align_spec (mx : positive) (ex ex' : Z) :
  snd (shl_align mx ex ex') <= ex /\
  Zpos (fst (shl_align mx ex ex')) = Zpos mx * 2 ^ (ex - snd (shl_align mx ex ex')).
Proof.
  unfold shl_align. destruct (ex' - ex) as [|d|d] eqn:Hd; cbn [fst snd].
  - rewrite Z.sub_diag. cbn. lia.
  - rewrite Z.sub_diag. cbn. lia.
  - split; [lia|]. rewrite iter_xO. f_equal. f_equal. lia.
Qed.

(** A float64 in [0, 100] narrows to a float32 in [0, 100]. *)
Lemma astype_float32_below_100 (x : float64) :
  digits_within F64.prec x ->
  in_range F64.zero F64.c100 x ->
  in_range F32.zero F32.c100 (astype_float32 x).
Proof.
  intros Hdig [Hlo Hhi].
  destruct x as [s|s| |s m e]; cbn [astype_float32].
  - split; [now right | now left].
  - destruct s; destruct Hlo as [H|H]; destruct Hhi as [H'|H']; discriminate.
  - destruct Hlo; discriminate.
  - destruct s; [destruct Hlo; discriminate|].
    cbn [digits_within] in Hdig. unfold F64.prec in Hdig.
    assert (Hval : e <= -46 /\ Zpos m <= 100 * 2 ^ (- e)).
    { change F64.c100 with (S754_finite false 7036874417766400 (-46)) in Hhi.
      apply FLe_finite_inv in Hhi. destruct Hhi as [Hlt | [-> Hle]].
      - split; [lia|].
        destruct (digits2_pos_bounds m) as [_ Hup].
        assert (2 ^ Zpos (digits2_pos m) <= 2 ^ 53)
          by (apply Z.pow_le_mono_r; lia).
        assert (2 ^ 47 <= 2 ^ (- e)) by (apply Z.pow_le_mono_r; lia).
        assert (H53 : 2 ^ 53 = 64 * 2 ^ 47) by reflexivity.
        assert (0 < 2 ^ 47) by (apply Z.pow_pos_nonneg; lia).
        lia.
      - split; [lia|].
        change (100 * 2 ^ (- -46)) with 7036874417766400. exact Hle. }
    destruct Hval as [He Hm].
    unfold binary_round.
    pose proof (shl_align_spec m e
                  (fexp F32.prec F32.emax (Zpos (digits2_pos m) + e)))
      as [Hez Hmz].
    destruct (shl_align m e (fexp F32.prec F32.emax (Zpos (digits2_pos m) + e)))
      as [mz ez]. cbn [fst snd] in Hez, Hmz.
    apply round32_below_100; [lia|]. split; [lia|].
    rewrite Hmz.
    assert (Hsplit : 2 ^ (- ez) = 2 ^ (- e) * 2 ^ (e - ez)).
    { rewrite <- Z.pow_add_r by lia. f_equal. lia. }
    rewrite Hsplit.
    assert (0 <= 2 ^ (e - ez)) by (apply Z.pow_nonneg; lia).
    nia.
Qed.

(** ** The derived columns *)

Lemma FLe_not_nan_l (a b : spec_float) : FLe a b -> is_nan a = false.
Proof. destruct a; try reflexivity. intros [H|H]; discriminate. Qed.

Lemma FLt_not_nan_r (a b : spec_float) : FLt a b -> is_nan b = false.
Proof. destruct b; try reflexivity. destruct a; discriminate. Qed.

(** [clip] returns its argument or one of the two bounds. *)
Lemma clip_cases (x lo hi : spec_float) :
  clip x lo hi = x \/ clip x lo hi = lo \/ clip x lo hi = hi.
Proof.
  unfold clip, np_minimum, np_maximum.
  destruct (is_nan x || le lo x);
    match goal with |- context [if ?b then _ else _] => destruct b end; tauto.
Qed.

(** [clip] puts every number, NaN apart, between the bounds. *)
Lemma clip_in_range (x lo hi : spec_float) :
  is_nan x = false -> FLe lo lo -> FLe lo hi -> FLe hi hi ->
  in_range lo hi (clip x lo hi).
Proof.
  intros Hx Hll Hlh Hhh. unfold clip.
  assert (Hmax : is_nan (np_maximum x lo) = false /\ FLe lo (np_maximum x lo)).
  { unfold np_maximum. rewrite Hx, orb_false_l.
    destruct (le lo x) eqn:E.
    - split; [exact Hx | now apply le_FLe].
    - split; [now apply (FLe_not_nan_l lo lo) | exact Hll]. }
  destruct Hmax as [Hnan Hlo]. unfold np_minimum. rewrite Hnan, orb_false_l.
  destruct (le (np_maximum x lo) hi) eqn:E.
  - split; [exact Hlo | now apply le_FLe].
  - split; [exact Hlh | exact Hhh].
Qed.

Lemma clip_digits_within (prec : Z) (x lo hi : spec_float) :
  digits_within prec x -> digits_within prec lo -> digits_within prec hi ->
  digits_within prec (clip x lo hi).
Proof.
  intros Hx Hlo Hhi.
  destruct (clip_cases x lo hi) as [-> | [-> | ->]]; assumption.
Qed.

(** A float strictly between two finite bounds is a positive finite
    number. *)
Lemma between_finite (lo hi x : spec_float) :
  FLt F32.zero x -> FLt x hi -> is_nan hi = false ->
  exists m e, x = S754_finite false m e.
Proof.
  intros Hlo Hhi Hnan.
  destruct x as [s|s| |s m e]; try discriminate.
  - destruct s; [discriminate|].
    destruct hi as [sh|sh| |sh mh eh]; try discriminate; destruct sh; discriminate.
  - destruct s; [discriminate|]. now exists m, e.
Qed.

(** The tip percentage of a row with a positive finite fare and a tip that
    is not NaN lies in [0, 100]. *)
Lemma tip_percentage_of_in_range (fare tip : float32) :
  FLt F32.zero fare -> FLt fare F32.c1000 -> is_nan tip = false ->
  in_range F32.zero F32.c100 (tip_percentage_of fare tip).
Proof.
  intros Hpos Hlt Htip.
  destruct (between_finite F32.zero F32.c1000 fare Hpos Hlt eq_refl)
    as (m & e & ->).
  unfold tip_percentage_of. apply clip_in_range;
    [|now right | now left | now right].
  apply gt_FLt in Hpos. rewrite Hpos. cbn [np_where].
  unfold F32.mul, F32.div.
  change F32.c100 with (S754_finite false 13107200 (-17)).
  apply SFmul_not_nan_r; [unfold F32.prec; lia|].
  apply SFdiv_not_nan_r; [unfold F32.prec; lia | exact Htip].
Qed.

(** Without a positive fare the tip percentage is 0: the quotient is
    computed and thrown away. *)
Lemma tip_percentage_of_no_fare (fare tip : float32) :
  gt fare F32.zero = false -> tip_percentage_of fare tip = F32.zero.
Proof. intros Hfare. unfold tip_percentage_of. now rewrite Hfare. Qed.

(** The average speed of a row with a distance in (0, 200) and a duration
    that is not NaN lies in [0, 100], after the narrowing to float32. *)
Lemma avg_speed_mph_of_in_range (distance : float32) (duration : float64) :
  FLt F32.zero distance -> FLt distance F32.c200 -> is_nan duration = false ->
  in_range F32.zero F32.c100 (avg_speed_mph_of distance duration).
Proof.
  intros Hpos Hlt Hdur.
  destruct (between_finite F32.zero F32.c200 distance Hpos Hlt eq_refl)
    as (m & e & ->).
  unfold avg_speed_mph_of.
  set (speed := np_where _ _ _).
  assert (Hspeed : is_nan speed = false /\ digits_within F64.prec speed).
  { subst speed. destruct (gt duration F64.zero); cbn [np_where];
      [|split; [reflexivity | exact I]].
    split; [|apply SFdiv_digits_within; unfold F64.prec; lia].
    cbn [float32_to_float64].
    destruct (shl_align m e _) as [mz ez].
    apply SFdiv_not_nan_l; [unfold F64.prec; lia|].
    unfold F64.div. change F64.c60 with (S754_finite false 8444249301319680 (-47)).
    apply SFdiv_not_nan_r; [unfold F64.prec; lia | exact Hdur]. }
  destruct Hspeed as [Hnan Hdigits].
  apply astype_float32_below_100.
  - apply clip_digits_within; [exact Hdigits | exact I |].
    change F64.c100 with (S754_finite false 7036874417766400 (-46)).
    cbn [digits_within]. unfold F64.prec. cbn. lia.
  - apply clip_in_range; [exact Hnan | now right | now left | now right].
Qed.

Lemma avg_speed_mph_of_no_duration (distance : float32) (duration : float64) :
  gt duration F64.zero = false ->
  avg_speed_mph_of distance duration = F32.zero.
Proof. intros Hdur. unfold avg_speed_mph_of. now rewrite Hdur. Qed.

(** The two derived columns of a row of the derived frame are computed
    from the columns of that row. *)
Lemma derived_row_fields (cat : Category) (df : RawBatch) (r : Clean.Row) :
  In r (rows (derived_of cat df)) ->
  Clean.tip_percentage r
    = tip_percentage_of (Clean.fare_amount r) (Clean.tip_amount r) /\
  Clean.avg_speed_mph r
    = avg_speed_mph_of (Clean.trip_distance r) (Clean.trip_duration_minutes r).
Proof.
  destruct cat; cbn [derived_of];
    unfold YellowTaxiUploader.derived, GreenTaxiUploader.derived;
    cbn [rows]; intros Hin; apply in_map_iff in Hin;
    destruct Hin as (raw & <- & _); split; reflexivity.
Qed.

(** The bounds of the two derived columns in one statement.  In a
    transformed batch of either category every row has its average speed
    in [0, 100], and its tip percentage in [0, 100] when its tip amount is
    not missing (NaN).  Before the filter, a row whose fare is 0 has a tip
    percentage of 0 and a row whose duration is 0 has an average speed of
    0: the divisions are total, a division by zero gives an infinity or a
    NaN that [np.where] discards. *)
Theorem derived_fields_within_bounds
    (cat : Category) (df : RawBatch) (out : CleanBatch) :
  transform_batch (uploader_of cat) df = Ok out ->
  (forall r, In r (rows out) ->
     in_range F32.zero F32.c100 (Clean.avg_speed_mph r) /\
     (is_nan (Clean.tip_amount r) = false ->
      in_range F32.zero F32.c100 (Clean.tip_percentage r))) /\
  (forall r, In r (rows (derived_of cat df)) ->
     (forall s, Clean.fare_amount r = S754_zero s ->
        Clean.tip_percentage r = F32.zero) /\
     (forall s, Clean.trip_duration_minutes r = S754_zero s ->
        Clean.avg_speed_mph r = F32.zero)).
Proof.
  intros Hout. apply transform_batch_Ok in Hout. subst out. split.
  - intros r Hin. unfold quality_filter in Hin. cbn [rows] in Hin.
    apply filter_In in Hin. destruct Hin as [Hin HQ].
    apply quality_mask_Quality in HQ.
    destruct HQ as (Hd0 & Hd200 & Hdur & _ & Hf0 & Hf1000 & _).
    destruct (derived_row_fields cat df r Hin) as [-> ->]. split.
    + apply avg_speed_mph_of_in_range; try assumption.
      now apply (FLt_not_nan_r F64.half).
    + intros Htip. now apply tip_percentage_of_in_range.
  - intros r Hin. destruct (derived_row_fields cat df r Hin) as [-> ->]. split.
    + intros s ->. apply tip_percentage_of_no_fare. now destruct s.
    + intros s ->. apply avg_speed_mph_of_no_duration. now destruct s.
Qed.

Lemma derived_fields_within_bounds_witness :
  exists out,
    transform_batch (uploader_of Yellow) Scenario.three_rows = Ok out /\
    forall r, In r (rows out) ->
      in_range F32.zero F32.c100 (Clean.avg_speed_mph r) /\
      (is_nan (Clean.tip_amount r) = false ->
       in_range F32.zero F32.c100 (Clean.tip_percentage r)).
Proof.
  eexists. split; [reflexivity|].
  exact (proj1 (derived_fields_within_bounds Yellow Scenario.three_rows _ eq_refl)).
Defined.

(** The tip percentage is not always in [0, 100].  A yellow row with a
    null tip amount and otherwise valid values (5 miles, 10 minutes, fare
    20, total 25) passes every check and every filter, and its tip
    percentage is NaN, which lies in no interval. *)
Lemma null_tip_percentage_is_nan :
  exists out r,
    transform_batch yellow (Scenario.yellow_batch [Scenario.null_tip]) = Ok out /\
    rows out = [r] /\
    Clean.tip_percentage r = S754_nan /\
    ~ in_range F32.zero F32.c100 (Clean.tip_percentage r).
Proof.
  do 2 eexists. split; [vm_compute; reflexivity|].
  split; [reflexivity|]. split; [reflexivity|].
  intros [[H|H] _]; discriminate.
Qed.

(** ** When a batch can be transformed *)

Lemma col_in_In (col : string) (cols : list string) :
  col_in col cols = true <-> In col cols.
Proof.
  unfold col_in. rewrite existsb_exists. split.
  - intros (c & Hin & Heq). apply String.eqb_eq in Heq. now subst.
  - intros Hin. exists col. split; [exact Hin | apply String.eqb_refl].
Qed.

Lemma existsb_none {A : Type} (p : A -> bool) (l : list A) :
  existsb p l = false <-> forall a, In a l -> p a = false.
Proof.
  rewrite <- not_true_iff_false, existsb_exists. split.
  - intros Hno a Hin. apply not_true_iff_false. intros Ha. apply Hno. eauto.
  - intros Hall (a & Hin & Ha). rewrite (Hall a Hin) in Ha. discriminate.
Qed.

(** Each statement that can raise, and when it does not. *)
Lemma bind_unit_Ok (r k : Result unit) :
  (r ;;; k) = Ok tt <-> r = Ok tt /\ k = Ok tt.
Proof.
  destruct r as [[]|e]; cbn; split; try tauto; try discriminate.
Qed.

Lemma getitem_Ok (cols : list string) (col : string) :
  getitem cols col = Ok tt <-> In col cols.
Proof.
  unfold getitem. rewrite <- col_in_In.
  destruct (col_in col cols); split; congruence.
Qed.

Lemma holds_null_false (cell : Raw.Row -> option Z) (rs : list Raw.Row) :
  holds_null cell rs = false <-> forall r, In r rs -> is_null (cell r) = false.
Proof. apply existsb_none. Qed.

Lemma astype_uint_check_Ok (col : string) (cell : Raw.Row -> option Z)
    (rs : list Raw.Row) :
  astype_uint_check col cell rs = Ok tt <->
  forall r, In r rs -> is_null (cell r) = false.
Proof.
  unfold astype_uint_check. rewrite <- holds_null_false.
  destruct (holds_null cell rs); split; congruence.
Qed.

Lemma fillna_astype_uint_check_Ok (col : string) (v : Z)
    (cell : Raw.Row -> option Z) (rs : list Raw.Row) :
  0 <= v ->
  fillna_astype_uint_check col v cell rs = Ok tt <-> ~ lossy_cast cell rs.
Proof.
  intros Hv. unfold fillna_astype_uint_check, lossy_cast.
  destruct (holds_null cell rs) eqn:Hnull; cbn [andb].
  - destruct (existsb _ rs) eqn:Hneg.
    + split; [discriminate|]. intros Hno. exfalso. apply Hno.
      unfold holds_null in Hnull. apply existsb_exists in Hnull, Hneg.
      destruct Hnull as (r & Hin & Hr). destruct Hneg as (r' & Hin' & Hr').
      split.
      * exists r. split; [exact Hin|]. now destruct (cell r).
      * destruct (cell r') as [z|] eqn:Ez; cbn in Hr'.
        -- exists r', z. repeat split; try assumption. lia.
        -- lia.
    + split; [|reflexivity]. intros _ [_ (r & z & Hin & Hr & Hz)].
      rewrite existsb_none in Hneg. specialize (Hneg r Hin).
      rewrite Hr in Hneg. cbn in Hneg. lia.
  - split; [|reflexivity]. intros _ [(r & Hin & Hr) _].
    rewrite holds_null_false in Hnull. specialize (Hnull r Hin).
    rewrite Hr in Hnull. discriminate.
Qed.

Lemma timedelta_check_Ok (a b : Raw.Row -> option Z) (rs : list Raw.Row) :
  timedelta_check a b rs = Ok tt <->
  forall r x y, In r rs -> a r = Some x -> b r = Some y ->
    int64_min <= x - y <= int64_max.
Proof.
  unfold timedelta_check.
  destruct (existsb _ rs) eqn:E.
  - split; [discriminate|]. intros Hall. exfalso.
    apply existsb_exists in E. destruct E as (r & Hin & Hr).
    unfold overflows in Hr.
    destruct (a r) as [x|] eqn:Ea; [|discriminate].
    destruct (b r) as [y|] eqn:Eb; [|discriminate].
    specialize (Hall r x y Hin Ea Eb). unfold in_int64 in Hr.
    apply negb_true_iff, andb_false_iff in Hr. lia.
  - split; [|reflexivity]. intros _ r x y Hin Ea Eb.
    rewrite existsb_none in E. specialize (E r Hin).
    unfold overflows in E. rewrite Ea, Eb in E.
    apply negb_false_iff, andb_true_iff in E. unfold in_int64. lia.
Qed.

Lemma dt_date_check_Ok (col : string) (cell : Raw.Row -> option Z)
    (rs : list Raw.Row) :
  dt_date_check col cell rs = Ok tt <->
  forall r us, In r rs -> cell r = Some us ->
    date_min <= dt_date us <= date_max.
Proof.
  unfold dt_date_check.
  destruct (existsb _ rs) eqn:E.
  - split; [discriminate|]. intros Hall. exfalso.
    apply existsb_exists in E. destruct E as (r & Hin & Hr).
    unfold no_date in Hr. destruct (cell r) as [us|] eqn:Ec; [|discriminate].
    specialize (Hall r us Hin Ec).
    apply negb_true_iff, andb_false_iff in Hr. lia.
  - split; [|reflexivity]. intros _ r us Hin Ec.
    rewrite existsb_none in E. specialize (E r Hin).
    unfold no_date in E. rewrite Ec in E.
    apply negb_false_iff, andb_true_iff in E. lia.
Qed.

Lemma null_in_cast_false (cat : Category) (r : Raw.Row) :
  null_in_cast cat r = false <->
  is_null (Raw.PULocationID r) = false /\
  is_null (Raw.DOLocationID r) = false /\
  (cat = Yellow -> is_null (Raw.payment_type r) = false) /\
  is_null (Raw.pickup_datetime r) = false.
Proof.
  unfold null_in_cast. rewrite !orb_false_iff.
  destruct cat; split.
  - intros (((H1 & H2) & H3) & H4). auto.
  - intros (H1 & H2 & H3 & H4). auto.
  - intros (((H1 & H2) & H3) & H4). repeat split; auto. discriminate.
  - intros (H1 & H2 & H3 & H4). auto.
Qed.

Lemma transform_batch_checks (cat : Category) (df : RawBatch) :
  transform_batch (uploader_of cat) df
  = bind (checks_of cat (reconciled_columns cat (columns df)) (rows df))
         (fun _ => Ok (quality_filter (derived_of cat df))).
Proof. destruct cat; reflexivity. Qed.

(** The checks of a category go through exactly when the columns that
    are read are there, no null reaches a cast without a default, no
    filled integer column is float64 with a negative value, no difference
    of two timestamps leaves int64, and every pickup has a calendar
    date. *)
Lemma checks_Ok (cat : Category) (cols : list string) (rs : list Raw.Row) :
  checks_of cat cols rs = Ok tt <->
  (forall col, In col (required_columns cat) -> In col cols) /\
  (forall r, In r rs -> null_in_cast cat r = false) /\
  (forall cell, In cell (filled_codes cat) -> ~ lossy_cast cell rs) /\
  (forall r pickup dropoff,
      In r rs -> Raw.pickup_datetime r = Some pickup ->
      Raw.dropoff_datetime r = Some dropoff ->
      int64_min <= dropoff - pickup <= int64_max) /\
  (forall r pickup,
      In r rs -> Raw.pickup_datetime r = Some pickup ->
      date_min <= dt_date pickup <= date_max).
Proof.
  assert (H0 : 0 <= 0) by lia. assert (H1 : 0 <= 1) by lia.
  pose proof (fun col cell => fillna_astype_uint_check_Ok col 0 cell rs H0) as Hfill0.
  pose proof (fun col cell => fillna_astype_uint_check_Ok col 1 cell rs H1) as Hfill1.
  destruct cat; unfold checks_of, YellowTaxiUploader.checks, GreenTaxiUploader.checks;
    rewrite !bind_unit_Ok, !getitem_Ok, !astype_uint_check_Ok, !Hfill1,
      ?Hfill0, timedelta_check_Ok, dt_date_check_Ok.
  - split.
    + intros Hc. decompose [and] Hc. clear Hc. split; [|split; [|split; [|split]]].
      * intros col Hin. cbn in Hin.
        repeat destruct Hin as [<-|Hin]; first [assumption | contradiction].
      * intros r Hin. apply null_in_cast_false. repeat split; auto.
      * intros cell Hin. cbn in Hin.
        repeat destruct Hin as [<-|Hin]; first [assumption | contradiction].
      * intros r p d Hin Hp Hd. eauto.
      * eauto.
    + intros (Pc & Pn & Pl & Pt & Pd).
      assert (Hn : forall r, In r rs ->
                is_null (Raw.PULocationID r) = false /\
                is_null (Raw.DOLocationID r) = false /\
                is_null (Raw.payment_type r) = false /\
                is_null (Raw.pickup_datetime r) = false).
      { intros r Hin. apply Pn, null_in_cast_false in Hin.
        destruct Hin as (? & ? & Hp & ?). repeat split; auto. }
      repeat match goal with |- _ /\ _ => split end;
        try (apply Pc; cbn; tauto);
        try (apply Pl; cbn; tauto);
        try (intros r Hin; apply Hn in Hin; tauto);
        try (intros r x y Hin Hx Hy; now apply (Pt r y x));
        try exact Pd.
  - split.
    + intros Hc. decompose [and] Hc. clear Hc. split; [|split; [|split; [|split]]].
      * intros col Hin. cbn in Hin.
        repeat destruct Hin as [<-|Hin]; first [assumption | contradiction].
      * intros r Hin. apply null_in_cast_false. repeat split; auto. discriminate.
      * intros cell Hin. cbn in Hin.
        repeat destruct Hin as [<-|Hin]; first [assumption | contradiction].
      * intros r p d Hin Hp Hd. eauto.
      * eauto.
    + intros (Pc & Pn & Pl & Pt & Pd).
      assert (Hn : forall r, In r rs ->
                is_null (Raw.PULocationID r) = false /\
                is_null (Raw.DOLocationID r) = false /\
                is_null (Raw.pickup_datetime r) = false).
      { intros r Hin. apply Pn, null_in_cast_false in Hin.
        destruct Hin as (? & ? & Hp & ?). repeat split; auto. }
      repeat match goal with |- _ /\ _ => split end;
        try (apply Pc; cbn; tauto);
        try (apply Pl; cbn; tauto);
        try (intros r Hin; apply Hn in Hin; tauto);
        try (intros r x y Hin Hx Hy; now apply (Pt r y x));
        try exact Pd.
Qed.

(** X1. On a batch whose reconciled labels are distinct and whose
    timestamps lie between 1900 and 2100, a transformer returns, and raises
    nothing, exactly when: every column that it reads is there after the
    renaming of the aliases; no row has a null location id, a null pickup
    timestamp or, for the yellow category, a null payment type; and no
    integer column that gets a default (passenger count, rate code and,
    for the green category, payment type) holds both a null, which makes
    it float64, and a negative number.  A null anywhere else is filled in
    or filtered. *)
Theorem transform_batch_succeeds_iff (cat : Category) (df : RawBatch) :
  NoDup (reconciled_columns cat (columns df)) ->
  (forall r, In r (rows df) -> ordinary_timestamps r) ->
  ((exists out, transform_batch (uploader_of cat) df = Ok out) <->
   (forall col, In col (required_columns cat) ->
      In col (reconciled_columns cat (columns df))) /\
   (forall r, In r (rows df) -> null_in_cast cat r = false) /\
   (forall cell, In cell (filled_codes cat) -> ~ lossy_cast cell (rows df))).
Proof.
  intros _ Hord.
  assert (Hbounds : forall us, us_1900 <= us <= us_2100 ->
             date_min <= dt_date us <= date_max).
  { intros us [Hlo Hhi]. unfold dt_date, us_per_day, date_min, date_max.
    unfold us_1900 in Hlo. unfold us_2100 in Hhi. split.
    - apply Z.div_le_lower_bound; lia.
    - apply Z.lt_succ_r, Z.div_lt_upper_bound; lia. }
  transitivity (checks_of cat (reconciled_columns cat (columns df)) (rows df)
                = Ok tt).
  - rewrite transform_batch_checks.
    destruct (checks_of cat _ _) as [[]|e]; cbn [bind]; split.
    + reflexivity.
    + intros _. eexists. reflexivity.
    + intros [out [=]].
    + discriminate.
  - rewrite checks_Ok. split.
    + intros (Hc & Hn & Hl & _). now repeat split.
    + intros (Hc & Hn & Hl). split; [exact Hc|]. split; [exact Hn|].
      split; [exact Hl|]. split.
      * intros r p d Hin Hp Hd. destruct (Hord r Hin) as [Hpick Hdrop].
        specialize (Hpick p Hp). specialize (Hdrop d Hd).
        unfold us_1900, us_2100 in Hpick, Hdrop.
        unfold int64_min, int64_max. lia.
      * intros r p Hin Hp. apply Hbounds.
        destruct (Hord r Hin) as [Hpick _]. exact (Hpick p Hp).
Qed.

Lemma transform_batch_succeeds_iff_witness :
  NoDup (reconciled_columns Yellow (columns Scenario.three_rows)) /\
  (forall r, In r (rows Scenario.three_rows) -> ordinary_timestamps r) /\
  exists out, transform_batch (uploader_of Yellow) Scenario.three_rows = Ok out.
Proof.
  assert (Hnd : NoDup (reconciled_columns Yellow (columns Scenario.three_rows))).
  { vm_compute.
    repeat (apply NoDup_cons; [intros Hin; cbn in Hin; intuition discriminate|]).
    apply NoDup_nil. }
  assert (Hord : forall r, In r (rows Scenario.three_rows) ->
                   ordinary_timestamps r).
  { intros r Hin. cbn in Hin.
    repeat (destruct Hin as [<-|Hin];
            [split; intros us Hus; injection Hus as <-; vm_compute;
             split; discriminate|]).
    contradiction. }
  split; [exact Hnd|]. split; [exact Hord|].
  apply (proj2 (transform_batch_succeeds_iff Yellow Scenario.three_rows Hnd Hord)).
  split; [|split].
  - intros col Hin. vm_compute. cbn in Hin.
    repeat (destruct Hin as [<-|Hin]; [tauto|]). contradiction.
  - intros r Hin. cbn in Hin.
    repeat (destruct Hin as [<-|Hin]; [reflexivity|]). contradiction.
  - intros cell Hin [(r & Hr & Hnone) _]. cbn in Hin, Hr.
    repeat (destruct Hin as [<-|Hin];
            [repeat (destruct Hr as [<-|Hr]; [discriminate Hnone|]); contradiction|]).
    contradiction.
Defined.

(** X20. The same without a bound on the timestamps: on a batch whose
    reconciled labels are distinct, a transformer returns exactly when the
    three conditions on the columns, the nulls and the negative codes
    hold, no trip has a dropoff and a pickup whose difference, in
    microseconds, leaves int64 (the subtraction raises [OverflowError]),
    and every pickup lies between 0001-01-01 and 9999-12-31, the dates that
    [.dt.date] can build (it raises [ValueError] on any other). *)
Theorem transform_batch_returns_iff (cat : Category) (df : RawBatch) :
  NoDup (reconciled_columns cat (columns df)) ->
  ((exists out, transform_batch (uploader_of cat) df = Ok out) <->
   (forall col, In col (required_columns cat) ->
      In col (reconciled_columns cat (columns df))) /\
   (forall r, In r (rows df) -> null_in_cast cat r = false) /\
   (forall cell, In cell (filled_codes cat) -> ~ lossy_cast cell (rows df)) /\
   (forall r pickup dropoff,
       In r (rows df) -> Raw.pickup_datetime r = Some pickup ->
       Raw.dropoff_datetime r = Some dropoff ->
       int64_min <= dropoff - pickup <= int64_max) /\
   (forall r pickup,
       In r (rows df) -> Raw.pickup_datetime r = Some pickup ->
       date_min <= dt_date pickup <= date_max)).
Proof.
  intros _. rewrite transform_batch_checks, <- checks_Ok.
  destruct (checks_of cat _ _) as [[]|e]; cbn [bind]; split.
  - reflexivity.
  - intros _. eexists. reflexivity.
  - intros [out [=]].
  - discriminate.
Qed.

Lemma transform_batch_returns_iff_witness :
  NoDup (reconciled_columns Yellow (columns Scenario.three_rows)) /\
  exists out, transform_batch (uploader_of Yellow) Scenario.three_rows = Ok out.
Proof.
  assert (Hnd : NoDup (reconciled_columns Yellow (columns Scenario.three_rows))).
  { vm_compute.
    repeat (apply NoDup_cons; [intros Hin; cbn in Hin; intuition discriminate|]).
    apply NoDup_nil. }
  split; [exact Hnd|].
  apply (proj2 (transform_batch_returns_iff Yellow Scenario.three_rows Hnd)).
  split; [|split; [|split; [|split]]].
  - intros col Hin. vm_compute. cbn in Hin.
    repeat (destruct Hin as [<-|Hin]; [tauto|]). contradiction.
  - intros r Hin. cbn in Hin.
    repeat (destruct Hin as [<-|Hin]; [reflexivity|]). contradiction.
  - intros cell Hin [(r & Hr & Hnone) _]. cbn in Hin, Hr.
    repeat (destruct Hin as [<-|Hin];
            [repeat (destruct Hr as [<-|Hr]; [discriminate Hnone|]); contradiction|]).
    contradiction.
  - intros r p d Hin Hp Hd. cbn in Hin.
    repeat (destruct Hin as [<-|Hin];
            [injection Hp as <-; injection Hd as <-; vm_compute;
             split; discriminate|]).
    contradiction.
  - intros r p Hin Hp. cbn in Hin.
    repeat (destruct Hin as [<-|Hin];
            [injection Hp as <-; vm_compute; split; discriminate|]).
    contradiction.
Defined.

(** A yellow batch in which one passenger count is missing and another is
    negative is not transformed: the column is float64, and its cast to
    uint8 raises.  Without the missing cell the column is int64 and the
    negative count wraps. *)
Lemma negative_code_in_float_column :
  let row (count : option Z) :=
    {| Raw.pickup_datetime := Raw.pickup_datetime Scenario.good_trip;
       Raw.dropoff_datetime := Raw.dropoff_datetime Scenario.good_trip;
       Raw.passenger_count := count;
       Raw.trip_distance := Raw.trip_distance Scenario.good_trip;
       Raw.RatecodeID := Raw.RatecodeID Scenario.good_trip;
       Raw.store_and_fwd_flag := Raw.store_and_fwd_flag Scenario.good_trip;
       Raw.PULocationID := Raw.PULocationID Scenario.good_trip;
       Raw.DOLocationID := Raw.DOLocationID Scenario.good_trip;
       Raw.payment_type := Raw.payment_type Scenario.good_trip;
       Raw.fare_amount := Raw.fare_amount Scenario.good_trip;
       Raw.extra := Raw.extra Scenario.good_trip;
       Raw.mta_tax := Raw.mta_tax Scenario.good_trip;
       Raw.tip_amount := Raw.tip_amount Scenario.good_trip;
       Raw.tolls_amount := Raw.tolls_amount Scenario.good_trip;
       Raw.improvement_surcharge := Raw.improvement_surcharge Scenario.good_trip;
       Raw.total_amount := Raw.total_amount Scenario.good_trip;
       Raw.congestion_surcharge := Raw.congestion_surcharge Scenario.good_trip;
       Raw.Airport_fee := Raw.Airport_fee Scenario.good_trip |} in
  transform_batch yellow (Scenario.yellow_batch [row None; row (Some (-1))])
  = Raise (ValueError "passenger_count") /\
  exists out,
    transform_batch yellow (Scenario.yellow_batch [row (Some (-1))]) = Ok out /\
    map Clean.passenger_count (rows out) = [255].
Proof.
  cbv zeta. split; [vm_compute; reflexivity|].
  eexists. split; [vm_compute; reflexivity | reflexivity].
Qed.

(** ** The labels of a transformed batch *)

Lemma derived_of_rows (cat : Category) (df : RawBatch) :
  derived_of cat df
  = mkFrame (derived_columns (reconciled_columns cat (columns df)))
            (map (clean_row_of cat (reconciled_columns cat (columns df)) (rows df))
                 (rows df)).
Proof. destruct cat; reflexivity. Qed.

Lemma filter_idempotent {A : Type} (p : A -> bool) (l : list A) :
  filter p (filter p l) = filter p l.
Proof.
  induction l as [|a l IH]; cbn; [reflexivity|].
  destruct (p a) eqn:E; cbn; rewrite ?E, IH; reflexivity.
Qed.

Lemma reconciled_columns_idempotent (cat : Category) (cols : list string) :
  reconciled_columns cat (reconciled_columns cat cols) = reconciled_columns cat cols.
Proof.
  destruct cat; cbn [reconciled_columns].
  - apply rename_columns_closed. exact (column_mappings_closed Yellow).
  - set (m := GreenTaxiUploader.column_mappings).
    assert (Hfix : rename_columns m (GreenTaxiUploader.drop (rename_columns m cols))
                   = GreenTaxiUploader.drop (rename_columns m cols)).
    { unfold rename_columns at 1. rewrite <- (map_id (GreenTaxiUploader.drop _)) at 2.
      apply map_ext_in. intros c Hin.
      unfold GreenTaxiUploader.drop in Hin. apply filter_In in Hin.
      destruct Hin as [Hin _]. unfold rename_columns in Hin.
      apply in_map_iff in Hin. destruct Hin as (c0 & <- & _).
      apply dict_get_closed. exact (column_mappings_closed Green). }
    rewrite Hfix. apply filter_idempotent.
Qed.

(** X2. A transformer sees the labels only through the renaming of the
    aliases: a batch whose labels have already been reconciled is
    transformed exactly as the batch it comes from, so that a file that
    spells [airport_fee] or [Ratecodeid] gives what the file with the
    canonical spelling gives. *)
Theorem transform_batch_alias_invariant (cat : Category) (df : RawBatch) :
  transform_batch (uploader_of cat)
    (mkFrame (reconciled_columns cat (columns df)) (rows df))
  = transform_batch (uploader_of cat) df.
Proof.
  rewrite !transform_batch_checks, !derived_of_rows. cbn [columns rows].
  now rewrite reconciled_columns_idempotent.
Qed.

Lemma setitem_In (cols : list string) (col c : string) :
  In c (setitem cols col) <-> In c cols \/ c = col.
Proof.
  unfold setitem. destruct (col_in col cols) eqn:E.
  - apply col_in_In in E. split; [tauto|]. intros [H| ->]; assumption.
  - rewrite in_app_iff. cbn. intuition congruence.
Qed.

Lemma setitem_NoDup (cols : list string) (col : string) :
  NoDup cols -> NoDup (setitem cols col).
Proof.
  intros Hnd. unfold setitem. destruct (col_in col cols) eqn:E; [exact Hnd|].
  assert (Hnot : ~ In col cols).
  { intros Hin. apply col_in_In in Hin. congruence. }
  apply NoDup_app; [exact Hnd | repeat constructor; intros [] | ].
  intros c Hc [<-|[]]. now apply Hnot.
Qed.

Lemma fold_setitem_In (labels cols : list string) (c : string) :
  In c (fold_left setitem labels cols) <-> In c cols \/ In c labels.
Proof.
  revert cols. induction labels as [|l labels IH]; intros cols; cbn [fold_left].
  - cbn. tauto.
  - rewrite IH, setitem_In. cbn. intuition congruence.
Qed.

Lemma fold_setitem_NoDup (labels cols : list string) :
  NoDup cols -> NoDup (fold_left setitem labels cols).
Proof.
  revert cols. induction labels as [|l labels IH]; intros cols Hnd; cbn [fold_left].
  - exact Hnd.
  - apply IH. now apply setitem_NoDup.
Qed.

(** X3. A transformed batch carries every reconciled column of its source
    and the six derived columns, and nothing else; labels that were
    distinct stay distinct, and a green batch has no [ehail_fee] column. *)
Theorem transformed_batch_columns
    (cat : Category) (df : RawBatch) (out : CleanBatch) :
  transform_batch (uploader_of cat) df = Ok out ->
  (forall c, In c (columns out) <->
             In c (reconciled_columns cat (columns df)) \/ In c derived_labels) /\
  (NoDup (reconciled_columns cat (columns df)) -> NoDup (columns out)) /\
  (cat = Green -> ~ In "ehail_fee" (columns out)).
Proof.
  intros Hout. apply transform_batch_Ok in Hout. subst out.
  rewrite derived_of_rows. unfold quality_filter. cbn [columns].
  unfold derived_columns. fold derived_labels.
  split; [|split].
  - intros c. apply fold_setitem_In.
  - apply fold_setitem_NoDup.
  - intros ->. rewrite fold_setitem_In. cbn [reconciled_columns].
    intros [Hin | Hin].
    + unfold GreenTaxiUploader.drop in Hin. apply filter_In in Hin.
      destruct Hin as [_ Hkeep]. vm_compute in Hkeep. discriminate.
    + cbn in Hin. repeat destruct Hin as [Hin|Hin]; try discriminate. exact Hin.
Qed.

Lemma transformed_batch_columns_witness :
  exists out,
    transform_batch (uploader_of Green)
      (Scenario.green_batch [Scenario.good_trip]) = Ok out /\
    ~ In "ehail_fee" (columns out).
Proof.
  eexists. split; [reflexivity|].
  exact (proj2 (proj2 (transformed_batch_columns Green
                         (Scenario.green_batch [Scenario.good_trip]) _ eq_refl))
           eq_refl).
Defined.

(** ** The rows of a transformed batch *)

(** A row of a transformed batch is the conversion of a row of the source
    that has no null in a cast column, and it passes the filter. *)
Lemma transformed_row (cat : Category) (df : RawBatch) (out : CleanBatch)
    (r : Clean.Row) :
  transform_batch (uploader_of cat) df = Ok out ->
  In r (rows out) ->
  Quality r /\
  exists raw,
    In raw (rows df) /\ null_in_cast cat raw = false /\
    r = clean_row_of cat (reconciled_columns cat (columns df)) (rows df) raw.
Proof.
  intros Hout Hin.
  pose proof Hout as Hchecks. rewrite transform_batch_checks in Hchecks.
  apply bind_Ok in Hchecks. destruct Hchecks as ([] & Hchecks & _).
  apply checks_Ok in Hchecks. destruct Hchecks as (_ & Hnull & _).
  apply transform_batch_Ok in Hout. subst out.
  unfold quality_filter in Hin. cbn [rows] in Hin. apply filter_In in Hin.
  destruct Hin as [Hin HQ]. split; [now apply quality_mask_Quality|].
  rewrite derived_of_rows in Hin. cbn [rows] in Hin.
  apply in_map_iff in Hin. destruct Hin as (raw & <- & Hraw).
  exists raw. split; [exact Hraw|]. split; [|reflexivity].
  now apply Hnull.
Qed.

Lemma Forall2_map_r {A B : Type} (P : A -> B -> Prop) (f : A -> B) (l : list A) :
  (forall a, P a (f a)) -> Forall2 P l (map f l).
Proof. intros HP. induction l; cbn; constructor; auto. Qed.

Lemma astype_uint_range (dtype : Dtype) (bits : Z) (cell : option Z) :
  0 <= bits -> 0 <= astype_uint dtype bits cell < 2 ^ bits.
Proof.
  intros Hbits. assert (0 < 2 ^ bits) by (apply Z.pow_pos_nonneg; lia).
  destruct cell as [z|]; cbn [astype_uint]; [|lia].
  destruct dtype; [now apply Z.mod_pos_bound|].
  unfold float64_to_uint. destruct (z <? 2 ^ 31); [|lia].
  now apply Z.mod_pos_bound.
Qed.

Lemma astype_uint_small (dtype : Dtype) (z : Z) :
  0 <= z < 256 -> astype_uint dtype 8 (Some z) = z.
Proof.
  intros Hz. cbn [astype_uint]. change (2 ^ 8) with 256.
  destruct dtype; [now apply Z.mod_small|].
  unfold float64_to_uint. change (2 ^ 8) with 256.
  destruct (Z.ltb_spec z (2 ^ 31)) as [_|Hbig]; [now apply Z.mod_small|].
  change (2 ^ 31) with 2147483648 in Hbig. lia.
Qed.

Lemma fillna_code_kept (dtype : Dtype) (default : Z) (cell : option Z) :
  0 <= default < 256 ->
  code_kept default cell (astype_uint dtype 8 (fillna default cell)).
Proof.
  intros Hd. unfold code_kept. split; [|split].
  - intros ->. cbn [fillna]. now apply astype_uint_small.
  - intros z -> Hz. cbn [fillna]. now apply astype_uint_small.
  - change 256 with (2 ^ 8). apply astype_uint_range. lia.
Qed.

(** X4. Row by row, in both categories: a missing passenger count or rate
    code comes out as 1, a missing payment type of a green row as 0, a code
    between 0 and 255 is kept; the codes that come out are between 0 and
    255 and the location ids between 0 and 65535. *)
Theorem integer_codes_defaults_and_ranges (cat : Category) (df : RawBatch) :
  Forall2
    (fun raw r =>
       code_kept 1 (Raw.passenger_count raw) (Clean.passenger_count r) /\
       code_kept 1 (Raw.RatecodeID raw) (Clean.RatecodeID r) /\
       (cat = Green ->
        code_kept 0 (Raw.payment_type raw) (Clean.payment_type r)) /\
       0 <= Clean.payment_type r < 256 /\
       0 <= Clean.PULocationID r < 65536 /\
       0 <= Clean.DOLocationID r < 65536)
    (rows df) (rows (derived_of cat df)).
Proof.
  rewrite derived_of_rows. cbn [rows]. apply Forall2_map_r. intros raw.
  destruct cat; cbn [clean_row_of];
    unfold YellowTaxiUploader.clean_row, GreenTaxiUploader.clean_row;
    cbn [Clean.passenger_count Clean.RatecodeID Clean.payment_type
         Clean.PULocationID Clean.DOLocationID];
    (split; [apply fillna_code_kept; lia|]);
    (split; [apply fillna_code_kept; lia|]);
    (split; [first [discriminate | intros _; apply fillna_code_kept; lia]|]);
    change 256 with (2 ^ 8); change 65536 with (2 ^ 16);
    repeat split; apply astype_uint_range; lia.
Qed.

(** X5. Every row of a transformed batch has a pickup timestamp, and its
    derived hour, weekday and date are those of that timestamp: the hour
    between 0 and 23, the weekday between 0 and 6. *)
Theorem pickup_fields_of_transformed_rows
    (cat : Category) (df : RawBatch) (out : CleanBatch) :
  transform_batch (uploader_of cat) df = Ok out ->
  forall r, In r (rows out) ->
    exists us,
      Clean.pickup_datetime r = Some us /\
      Clean.pickup_hour r = dt_hour us /\ 0 <= Clean.pickup_hour r <= 23 /\
      Clean.pickup_day_of_week r = dt_dayofweek us /\
      0 <= Clean.pickup_day_of_week r <= 6 /\
      Clean.pickup_date r = Some (dt_date us).
Proof.
  intros Hout r Hin.
  destruct (transformed_row cat df out r Hout Hin)
    as (_ & raw & _ & Hnull & ->).
  unfold null_in_cast in Hnull. rewrite !orb_false_iff in Hnull.
  destruct Hnull as (_ & Hpick).
  destruct (Raw.pickup_datetime raw) as [us|] eqn:Eus; [|discriminate].
  exists us.
  assert (Hh : 0 <= dt_hour us < 24) by (apply Z.mod_pos_bound; lia).
  assert (Hd : 0 <= dt_dayofweek us < 7) by (apply Z.mod_pos_bound; lia).
  assert (Hhour : astype_uint Int64 8 (Some (dt_hour us)) = dt_hour us).
  { apply astype_uint_small. lia. }
  assert (Hday : astype_uint Int64 8 (Some (dt_dayofweek us)) = dt_dayofweek us).
  { apply astype_uint_small. lia. }
  destruct cat; cbn [clean_row_of];
    unfold YellowTaxiUploader.clean_row, GreenTaxiUploader.clean_row;
    cbn [Clean.pickup_datetime Clean.pickup_hour Clean.pickup_day_of_week
         Clean.pickup_date];
    rewrite Eus; cbn [of_timestamp]; rewrite Hhour, Hday;
    repeat split; try reflexivity; lia.
Qed.

Lemma pickup_fields_of_transformed_rows_witness :
  exists out,
    transform_batch (uploader_of Yellow) Scenario.three_rows = Ok out /\
    forall r, In r (rows out) -> 0 <= Clean.pickup_hour r <= 23.
Proof.
  eexists. split; [reflexivity|]. intros r Hin.
  destruct (pickup_fields_of_transformed_rows Yellow Scenario.three_rows _
              eq_refl r Hin) as (us & _ & _ & Hh & _).
  exact Hh.
Defined.

(** ** Signs *)

Lemma binary_round_rounded (prec emax : Z) (s : bool) (m : positive) (e : Z) :
  0 < prec -> rounded prec s (binary_round prec emax s m e).
Proof.
  intros Hprec. unfold binary_round.
  destruct (shl_align m e _) as [mz ez].
  apply binary_round_aux_rounded; [exact Hprec | lia].
Qed.

Lemma rounded_true_not_positive (prec : Z) (x : spec_float) :
  rounded prec true x -> not_positive x.
Proof. destruct x; cbn; tauto. Qed.

Lemma of_Z_not_positive (z : Z) : z <= 0 -> not_positive (F64.of_Z z).
Proof.
  intros Hz. unfold F64.of_Z, binary_normalize.
  destruct z as [|p|p]; [exact I | lia |].
  eapply rounded_true_not_positive.
  apply binary_round_rounded. unfold F64.prec. lia.
Qed.

Lemma div_not_positive (x : float64) (m : positive) (e : Z) :
  not_positive x -> not_positive (F64.div x (S754_finite false m e)).
Proof.
  intros Hx. unfold F64.div.
  destruct x as [s|s| |s mx ex]; cbn [not_positive] in Hx.
  - exact I.
  - subst s. reflexivity.
  - exact I.
  - subst s. eapply rounded_true_not_positive.
    apply (SFdiv_finite_finite F64.prec F64.emax true mx ex false m e).
    unfold F64.prec. lia.
Qed.

Lemma not_positive_not_above (x lo : spec_float) (m : positive) (e : Z) :
  lo = S754_finite false m e -> not_positive x -> ~ FLt lo x.
Proof.
  intros -> Hx. unfold FLt.
  destruct x as [s|s| |s mx ex]; cbn [not_positive SFcompare] in *;
    try subst s; discriminate.
Qed.

Lemma F64_constants :
  exists m60 e60 mM eM mh eh,
    F64.c60 = S754_finite false m60 e60 /\
    F64.of_Z 1000000 = S754_finite false mM eM /\
    F64.half = S754_finite false mh eh.
Proof. do 6 eexists. repeat split; reflexivity. Qed.

(** X6. Every row of a transformed batch has both timestamps, the dropoff
    strictly after the pickup: a row with a missing dropoff, or with a
    dropoff that is not later than the pickup, is filtered out and does not
    fail the batch. *)
Theorem transformed_rows_end_after_they_start
    (cat : Category) (df : RawBatch) (out : CleanBatch) :
  transform_batch (uploader_of cat) df = Ok out ->
  forall r, In r (rows out) ->
    exists pickup dropoff,
      Clean.pickup_datetime r = Some pickup /\
      Clean.dropoff_datetime r = Some dropoff /\
      pickup < dropoff.
Proof.
  intros Hout r Hin.
  destruct (transformed_row cat df out r Hout Hin)
    as (HQ & raw & _ & _ & Hr).
  destruct HQ as (_ & _ & Hdur & _).
  assert (Hfields :
            Clean.pickup_datetime r = Raw.pickup_datetime raw /\
            Clean.dropoff_datetime r = Raw.dropoff_datetime raw /\
            Clean.trip_duration_minutes r
            = trip_duration_minutes_of (Raw.pickup_datetime raw)
                                       (Raw.dropoff_datetime raw)).
  { subst r. destruct cat; repeat split; reflexivity. }
  destruct Hfields as (-> & -> & Hd). rewrite Hd in Hdur.
  unfold trip_duration_minutes_of in Hdur.
  destruct F64_constants as (m60 & e60 & mM & eM & mh & eh & H60 & HM & Hhalf).
  rewrite H60 in Hdur.
  destruct (Raw.pickup_datetime raw) as [p|], (Raw.dropoff_datetime raw) as [d|];
    cbn [timedelta total_seconds] in Hdur;
    try (exfalso; revert Hdur;
         apply (not_positive_not_above _ _ _ _ Hhalf);
         apply div_not_positive; exact I).
  exists p, d. split; [reflexivity|]. split; [reflexivity|].
  destruct (Z.lt_ge_cases p d) as [Hlt|Hge]; [exact Hlt|].
  exfalso. revert Hdur. apply (not_positive_not_above _ _ _ _ Hhalf).
  apply div_not_positive.
  destruct (d - p =? int64_min); cbn [total_seconds]; [exact I|].
  rewrite HM. apply div_not_positive. apply of_Z_not_positive. lia.
Qed.

Lemma transformed_rows_end_after_they_start_witness :
  exists out,
    transform_batch (uploader_of Yellow) Scenario.three_rows = Ok out /\
    forall r, In r (rows out) ->
      exists pickup dropoff,
        Clean.pickup_datetime r = Some pickup /\
        Clean.dropoff_datetime r = Some dropoff /\
        pickup < dropoff.
Proof.
  eexists. split; [reflexivity|].
  exact (transformed_rows_end_after_they_start Yellow Scenario.three_rows _ eq_refl).
Defined.

(** ** Fees and surcharges *)

Lemma astype_float32_not_nan (x : float64) :
  is_nan x = false -> is_nan (astype_float32 x) = false.
Proof.
  destruct x as [s|s| |s m e]; cbn [astype_float32]; try tauto.
  intros _. eapply rounded_not_nan.
  apply (binary_round_rounded F32.prec F32.emax s m e). unfold F32.prec. lia.
Qed.

Lemma filled_fee_not_nan (present : bool) (x : float64) :
  is_nan (astype_float32_if present (fillna_float F64.zero x)) = false.
Proof.
  assert (Hfill : is_nan (fillna_float F64.zero x) = false).
  { unfold fillna_float. destruct (is_nan x) eqn:E; [reflexivity | exact E]. }
  destruct present; cbn [astype_float32_if];
    [now apply astype_float32_not_nan | exact Hfill].
Qed.

(** X7. In both categories the congestion surcharge of a converted row is
    never NaN, and neither is the airport fee of a yellow row: a null is
    replaced by 0 before the narrowing to float32, which does not make a
    NaN. *)
Theorem filled_fees_are_never_nan (cat : Category) (df : RawBatch) :
  Forall
    (fun r =>
       is_nan (Clean.congestion_surcharge r) = false /\
       (cat = Yellow -> is_nan (Clean.Airport_fee r) = false))
    (rows (derived_of cat df)).
Proof.
  rewrite derived_of_rows. cbn [rows]. apply Forall_map, Forall_forall.
  intros raw _.
  destruct cat; cbn [clean_row_of];
    unfold YellowTaxiUploader.clean_row, GreenTaxiUploader.clean_row;
    cbn [Clean.congestion_surcharge Clean.Airport_fee];
    (split; [apply filled_fee_not_nan|]);
    first [discriminate | intros _; apply filled_fee_not_nan].
Qed.

(** ** The bounds of the derived columns, one by one *)

Lemma transformed_row_derived (cat : Category) (df : RawBatch) (out : CleanBatch)
    (r : Clean.Row) :
  transform_batch (uploader_of cat) df = Ok out ->
  In r (rows out) ->
  Quality r /\
  Clean.tip_percentage r
    = tip_percentage_of (Clean.fare_amount r) (Clean.tip_amount r) /\
  Clean.avg_speed_mph r
    = avg_speed_mph_of (Clean.trip_distance r) (Clean.trip_duration_minutes r).
Proof.
  intros Hout Hin. apply transform_batch_Ok in Hout. subst out.
  unfold quality_filter in Hin. cbn [rows] in Hin. apply filter_In in Hin.
  destruct Hin as [Hin HQ]. split; [now apply quality_mask_Quality|].
  now apply (derived_row_fields cat df).
Qed.

(** X8. The average speed of every row of a transformed batch, of either
    category, lies in [0, 100] as a float32: the quotient is a number
    because the distance and the duration of an accepted row are, the clip
    brings it into the interval, and the narrowing from float64 does not
    take it out. *)
Theorem avg_speed_within_bounds
    (cat : Category) (df : RawBatch) (out : CleanBatch) :
  transform_batch (uploader_of cat) df = Ok out ->
  forall r, In r (rows out) ->
    in_range F32.zero F32.c100 (Clean.avg_speed_mph r).
Proof.
  intros Hout r Hin.
  destruct (transformed_row_derived cat df out r Hout Hin) as (HQ & _ & ->).
  destruct HQ as (Hd0 & Hd200 & Hdur & _).
  apply avg_speed_mph_of_in_range; try assumption.
  now apply (FLt_not_nan_r F64.half).
Qed.

Lemma avg_speed_within_bounds_witness :
  exists out,
    transform_batch (uploader_of Yellow) Scenario.three_rows = Ok out /\
    forall r, In r (rows out) ->
      in_range F32.zero F32.c100 (Clean.avg_speed_mph r).
Proof.
  eexists. split; [reflexivity|].
  exact (avg_speed_within_bounds Yellow Scenario.three_rows _ eq_refl).
Defined.

Lemma is_nan_true (x : spec_float) : is_nan x = true -> x = S754_nan.
Proof. destruct x; try discriminate; reflexivity. Qed.

(** A NaN tip over a positive fare is a NaN percentage: the clip lets it
    through. *)
Lemma tip_percentage_of_nan (fare : float32) :
  FLt F32.zero fare -> tip_percentage_of fare S754_nan = S754_nan.
Proof.
  intros Hpos. unfold tip_percentage_of.
  apply gt_FLt in Hpos. rewrite Hpos. reflexivity.
Qed.

(** X9. In a transformed batch of either category the tip percentage of a
    row lies in [0, 100] exactly when the tip amount of the row is not
    NaN: a null tip is not replaced by a default, and the percentage of
    such a row is NaN. *)
Theorem tip_percentage_within_bounds_iff
    (cat : Category) (df : RawBatch) (out : CleanBatch) :
  transform_batch (uploader_of cat) df = Ok out ->
  forall r, In r (rows out) ->
    (in_range F32.zero F32.c100 (Clean.tip_percentage r) <->
     is_nan (Clean.tip_amount r) = false).
Proof.
  intros Hout r Hin.
  destruct (transformed_row_derived cat df out r Hout Hin) as (HQ & -> & _).
  destruct HQ as (_ & _ & _ & _ & Hf0 & Hf1000 & _).
  split.
  - intros [Hlo _]. destruct (is_nan (Clean.tip_amount r)) eqn:E; [|reflexivity].
    apply is_nan_true in E. rewrite E, (tip_percentage_of_nan _ Hf0) in Hlo.
    destruct Hlo; discriminate.
  - intros Htip. now apply tip_percentage_of_in_range.
Qed.

Lemma tip_percentage_within_bounds_iff_witness :
  exists out,
    transform_batch (uploader_of Yellow)
      (Scenario.yellow_batch [Scenario.null_tip; Scenario.good_trip]) = Ok out /\
    forall r, In r (rows out) ->
      (in_range F32.zero F32.c100 (Clean.tip_percentage r) <->
       is_nan (Clean.tip_amount r) = false).
Proof.
  eexists. split; [reflexivity|].
  exact (tip_percentage_within_bounds_iff Yellow
           (Scenario.yellow_batch [Scenario.null_tip; Scenario.good_trip])
           _ eq_refl).
Defined.

(** X10. Before the filter, in both categories: a row whose fare is not
    above 0 (zero, negative or NaN) has a tip percentage of exactly 0, and
    a row whose duration is not above 0 (also when a timestamp is missing)
    has an average speed of exactly 0.  The quotients by zero are computed
    and discarded; nothing is raised. *)
Theorem no_fare_no_duration_give_zero (cat : Category) (df : RawBatch) :
  Forall
    (fun r =>
       (gt (Clean.fare_amount r) F32.zero = false ->
        Clean.tip_percentage r = F32.zero) /\
       (gt (Clean.trip_duration_minutes r) F64.zero = false ->
        Clean.avg_speed_mph r = F32.zero))
    (rows (derived_of cat df)).
Proof.
  apply Forall_forall. intros r Hin.
  destruct (derived_row_fields cat df r Hin) as [-> ->]. split.
  - apply tip_percentage_of_no_fare.
  - apply avg_speed_mph_of_no_duration.
Qed.

(** ** The metrics of a file of one of the two categories *)

Lemma transform_batch_len (cat : Category) (batch : RawBatch) (out : CleanBatch) :
  transform_batch (uploader_of cat) batch = Ok out ->
  0 <= len out /\ len batch - len out = rejected_rows cat batch.
Proof.
  intros Hout. apply transform_batch_Ok in Hout. subst out.
  unfold rejected_rows, len, quality_filter. cbn [rows].
  pose proof (filter_split_length quality_mask (rows (derived_of cat batch)))
    as Hsplit.
  pose proof (derived_length cat batch) as Hlen.
  rewrite (filter_ext fails_some_predicate (fun r => negb (quality_mask r))
             fails_some_predicate_mask).
  lia.
Qed.

Lemma sums_of_transformed (cat : Category) (batches : list RawBatch)
    (outs : list CleanBatch) :
  Forall2 (fun batch out => transform_batch (uploader_of cat) batch = Ok out)
          batches outs ->
  0 <= zsum (map len outs) /\
  zsum (map len batches) - zsum (map len outs)
  = zsum (map (rejected_rows cat) batches) /\
  0 <= zsum (map (rejected_rows cat) batches).
Proof.
  induction 1 as [|batch out batches outs Hout _ IH]; cbn [map zsum fold_right];
    [lia|].
  fold (zsum (map len batches)) (zsum (map len outs))
       (zsum (map (rejected_rows cat) batches)).
  destruct (transform_batch_len cat batch out Hout) as [H0 Hrej].
  assert (0 <= rejected_rows cat batch) by (unfold rejected_rows; lia).
  lia.
Qed.

Lemma nonempty_count_le (outs : list CleanBatch) :
  Z.of_nat (List.length (filter (fun out => 0 <? len out) outs))
  <= zsum (map len outs) /\
  (List.length (filter (fun out : CleanBatch => (0 <? len out)%Z) outs)
   <= List.length outs)%nat.
Proof.
  induction outs as [|out outs [IH1 IH2]]; cbn [filter map zsum fold_right];
    [cbn; lia|].
  fold (zsum (map len outs)).
  assert (0 <= len out) by (unfold len; lia).
  destruct (0 <? len out) eqn:E; cbn [List.length].
  - apply Z.ltb_lt in E. lia.
  - lia.
Qed.

(** X11. In the success dict of a yellow or green file the counts are
    ordered: no more rows uploaded than processed, no more batches counted
    than rows uploaded or than row groups in the file, and
    [rows_filtered] is the number of rows, over all the row groups, that
    fail at least one quality predicate. *)
Theorem success_metrics_of_a_category
    {C : Type} `{ClickHouse C} (cat : Category) (f : ParquetFile)
    (c c' : C) (m : Metrics.t) (evs : list Event) :
  upload_file (uploader_of cat) f c = (Success m, c', evs) ->
  exists batches,
    row_groups f = Ok (map Ok batches) /\
    0 <= Metrics.batches_processed m <= Metrics.rows_uploaded m /\
    Metrics.batches_processed m <= Z.of_nat (List.length batches) /\
    Metrics.rows_uploaded m <= Metrics.rows_processed m /\
    Metrics.rows_filtered m = zsum (map (rejected_rows cat) batches).
Proof.
  intros Hup. apply upload_file_succeeded in Hup.
  destruct Hup as (groups & Hg & Hnone & ->).
  destruct (upload_batches_success (uploader_of cat) (file_name f) groups 0
              counters0 c Hnone) as (batches & outs & -> & HF & Hp & Hu & Hb).
  exists batches. split; [exact Hg|].
  destruct (sums_of_transformed cat batches outs HF) as (H0 & Hrej & Hrej0).
  destruct (nonempty_count_le outs) as [Hcount Hcount'].
  pose proof (Forall2_length HF) as Hlen.
  cbv zeta.
  cbn [Metrics.batches_processed Metrics.rows_uploaded Metrics.rows_processed
       Metrics.rows_filtered].
  change (total_processed counters0) with 0 in Hp.
  change (total_uploaded counters0) with 0 in Hu.
  change (batch_count counters0) with 0 in Hb.
  apply Nat2Z.inj_le in Hcount'. rewrite <- Hlen in Hcount'.
  rewrite Hb, Hu, Hp.
  repeat split; try lia.
  exact Hcount'.
Qed.

Lemma success_metrics_of_a_category_witness :
  exists m c' evs,
    upload_file (uploader_of Yellow) Scenario.file_c (Scenario.server [])
    = (Success m, c', evs) /\
    Metrics.rows_filtered m = 2 /\
    exists batches,
      row_groups Scenario.file_c = Ok (map Ok batches) /\
      0 <= Metrics.batches_processed m <= Metrics.rows_uploaded m /\
      Metrics.batches_processed m <= Z.of_nat (List.length batches) /\
      Metrics.rows_uploaded m <= Metrics.rows_processed m /\
      Metrics.rows_filtered m = zsum (map (rejected_rows Yellow) batches).
Proof.
  do 3 eexists. split; [vm_compute; reflexivity|]. split; [reflexivity|].
  eapply (success_metrics_of_a_category Yellow Scenario.file_c
            (Scenario.server []) _ _ _).
  vm_compute. reflexivity.
Defined.

(** ** What reaches the table *)

Section Inserted.
Context {C : Type} `{ClickHouse C}.
Variable U : Uploader.

Lemma upload_batches_inserted (file : string) (groups : list (Result RawBatch)) :
  forall i k c,
    raised (upload_batches U file i groups k c) = None ->
    accepted_by_loop U groups c (upload_batches U file i groups k c).
Proof.
  apply (upload_batches_cases U file
           (fun i groups k c r => raised r = None -> accepted_by_loop U groups c r));
    cbn [raised]; try discriminate.
  - intros i k c _. exists [], []. repeat split. constructor.
  - intros i batch out c' rest k c r Ht Hlen Hi Hr IH Hnone.
    destruct (IH Hnone) as (batches & outs & -> & HF & Hins & Hc).
    exists (batch :: batches), (out :: outs). cbn [map filter events client].
    apply Z.ltb_lt in Hlen. rewrite Hlen.
    split; [reflexivity|]. split; [now constructor|]. split.
    + unfold inserted_batches in *. cbn [flat_map app]. now rewrite Hins.
    + cbn [fold_left]. rewrite Hi. cbn [fst]. exact Hc.
  - intros i batch out rest k c r Ht Hlen Hr IH Hnone.
    destruct (IH Hnone) as (batches & outs & -> & HF & Hins & Hc).
    exists (batch :: batches), (out :: outs). cbn [map filter events client].
    assert (Hltb : (0 <? len out) = false) by (apply Z.ltb_ge; lia).
    rewrite Hltb.
    split; [reflexivity|]. split; [now constructor|]. split.
    + unfold inserted_batches in *. cbn [flat_map app]. exact Hins.
    + exact Hc.
Qed.
End Inserted.

(** X12. When [upload_file] returns a success dict, what the server has
    accepted for the file is the sequence of the transformed batches that
    are not empty, each once and in the order of the row groups, and the
    client is where these insertions, and nothing else, have brought it. *)
Theorem successful_file_inserts_its_accepted_batches
    {C : Type} `{ClickHouse C} (U : Uploader) (f : ParquetFile)
    (c c' : C) (m : Metrics.t) (evs : list Event) :
  upload_file U f c = (Success m, c', evs) ->
  exists batches outs,
    row_groups f = Ok (map Ok batches) /\
    Forall2 (fun batch out => transform_batch U batch = Ok out) batches outs /\
    inserted_batches evs = filter (fun out => 0 <? len out) outs /\
    c' = fold_left (fun c0 out => fst (insert_df c0 (table_name U) out))
                   (filter (fun out => 0 <? len out) outs) c.
Proof.
  intros Hup. pose proof Hup as Hsucc. apply upload_file_succeeded in Hsucc.
  destruct Hsucc as (groups & Hg & Hnone & _).
  rewrite (upload_file_opened U f c groups Hg) in Hup. cbv zeta in Hup.
  injection Hup as _ <- <-.
  destruct (upload_batches_inserted U (file_name f) groups 0 counters0 c Hnone)
    as (batches & outs & -> & HF & Hins & Hc).
  exists batches, outs. split; [exact Hg|]. split; [exact HF|].
  split; [exact Hins | exact Hc].
Qed.

Lemma successful_file_inserts_its_accepted_batches_witness :
  exists m c' evs,
    upload_file yellow Scenario.file_c (Scenario.server []) = (Success m, c', evs) /\
    List.length (inserted_batches evs) = 1%nat /\
    exists batches outs,
      row_groups Scenario.file_c = Ok (map Ok batches) /\
      Forall2 (fun batch out => transform_batch yellow batch = Ok out) batches outs /\
      inserted_batches evs = filter (fun out => 0 <? len out) outs /\
      c' = fold_left (fun c0 out => fst (insert_df c0 (table_name yellow) out))
                     (filter (fun out => 0 <? len out) outs) (Scenario.server []).
Proof.
  do 3 eexists. split; [vm_compute; reflexivity|]. split; [reflexivity|].
  eapply (successful_file_inserts_its_accepted_batches yellow Scenario.file_c
            (Scenario.server []) _ _ _).
  vm_compute. reflexivity.
Defined.

(** ** The events of a run *)

Lemma opened_files_app (l1 l2 : list Event) :
  opened_files (l1 ++ l2) = opened_files l1 ++ opened_files l2.
Proof. apply flat_map_app. Qed.

Lemma quiet_events (evs : list Event) :
  Forall (fun ev => is_processing ev = false) evs ->
  opened_files evs = [] /\ inserted_rows evs = 0.
Proof.
  induction 1 as [|ev evs Hev _ [IH1 IH2]]; [split; reflexivity|].
  destruct ev; try discriminate. split; [exact IH1|].
  rewrite inserted_rows_cons, IH2. reflexivity.
Qed.

Section RunEvents.
Context {C : Type} `{ClickHouse C}.
Variable U : Uploader.

Lemma upload_batches_opens_nothing (file : string)
    (groups : list (Result RawBatch)) :
  forall i k c, opened_files (events (upload_batches U file i groups k c)) = [].
Proof.
  apply (upload_batches_cases U file
           (fun i groups k c r => opened_files (events r) = []));
    intros; cbn [events]; try reflexivity; assumption.
Qed.

(** One file: it is opened once, and what its result says was uploaded is
    what the server accepted. *)
Lemma upload_file_events (f : ParquetFile) (c : C) :
  opened_files (snd (upload_file U f c)) = [file_name f] /\
  inserted_rows (snd (upload_file U f c))
  = result_rows_uploaded (fst (fst (upload_file U f c))).
Proof.
  destruct (row_groups f) as [groups|e] eqn:Hg.
  - rewrite (upload_file_opened U f c groups Hg). cbv zeta. cbn [fst snd].
    split.
    + change (opened_files (EvOpen (file_name f) :: ?l))
        with (file_name f :: opened_files l).
      now rewrite upload_batches_opens_nothing.
    + rewrite inserted_rows_cons. cbn [inserted_rows_of].
      pose proof (upload_batches_uploaded U (file_name f) groups 0 counters0 c)
        as Hup. cbv zeta in Hup.
      change (total_uploaded counters0) with 0 in Hup.
      destruct (raised _); cbn [result_rows_uploaded ErrorRecord.rows_uploaded
                                 Metrics.rows_uploaded]; lia.
  - unfold upload_file. rewrite Hg. cbn. split; reflexivity.
Qed.

Lemma upload_files_events (files : list ParquetFile) :
  forall c,
    opened_files (snd (upload_files U files c)) = map file_name files /\
    inserted_rows (snd (upload_files U files c))
    = sum_all_rows_uploaded (fst (fst (upload_files U files c))).
Proof.
  induction files as [|f rest IH]; intros c; cbn [upload_files];
    [split; reflexivity|].
  destruct (upload_file_events f c) as [Ho Hi].
  destruct (upload_file U f c) as [[r c1] evs1]. cbn [fst snd] in Ho, Hi.
  destruct (IH c1) as [Ho' Hi'].
  destruct (upload_files U rest c1) as [[rs c2] evs2]. cbn [fst snd] in *.
  split.
  - now rewrite opened_files_app, Ho, Ho'.
  - rewrite inserted_rows_app, Hi, Hi'. reflexivity.
Qed.

Lemma display_summary_quiet (results : list FileResult)
    (total_elapsed : float64) (c : C) :
  Forall (fun ev => is_processing ev = false)
         (snd (display_summary U results total_elapsed c)) /\
  fst (fst (fst (display_summary U results total_elapsed c)))
  = summarize results.
Proof.
  unfold display_summary.
  destruct (is_zero total_elapsed); [split; [constructor | reflexivity]|].
  destruct (query c (CountRows (table_name U))) as [c1 [e|]]; cbn [fst snd].
  - split; [repeat constructor | reflexivity].
  - destruct (query c1 (DateStats (table_name U))) as [c2 err2]. cbn [fst snd].
    split; [repeat constructor | reflexivity].
Qed.

(** The shape of a run: nothing, the failed table check, or the table
    check, the files and the verification. *)
Lemma upload_all_files_events (files : list ParquetFile)
    (total_elapsed : float64) (c : C) :
  let '(outcome, _, evs) := upload_all_files U files total_elapsed c in
  match outcome with
  | Completed results summary _ =>
      exists c0 evs2,
        fst (query c (SelectOne (table_name U))) = c0 /\
        results = fst (fst (upload_files U files c0)) /\
        summary = summarize results /\
        Forall (fun ev => is_processing ev = false) evs2 /\
        evs = EvQuery (SelectOne (table_name U)) true
                :: snd (upload_files U files c0) ++ evs2
  | _ => Forall (fun ev => is_processing ev = false) evs
  end.
Proof.
  unfold upload_all_files. destruct files as [|f rest]; [constructor|].
  destruct (query c (SelectOne (table_name U))) as [c0 [e|]] eqn:Hq.
  - repeat constructor.
  - destruct (upload_files U (f :: rest) c0) as [[rs c1] evs1] eqn:Hfs.
    destruct (display_summary_quiet rs total_elapsed c1) as [Hquiet Hsum].
    destruct (display_summary U rs total_elapsed c1)
      as [[[summary raised_after] c2] evs2].
    cbn [fst snd] in *. exists c0, evs2. subst summary.
    rewrite Hfs. repeat split; try reflexivity; assumption.
Qed.
End RunEvents.

(** X13. In a run that completes every file is opened exactly once, in
    the order of the sorted list, also when the summary raises afterwards;
    a run that stops at the empty list or at the table check opens
    none. *)
Theorem every_file_opened_once_in_order
    {C : Type} `{ClickHouse C} (U : Uploader) (files : list ParquetFile)
    (total_elapsed : float64) (c : C) :
  let '(outcome, _, evs) := upload_all_files U files total_elapsed c in
  opened_files evs
  = match outcome with
    | Completed _ _ _ => map file_name files
    | _ => []
    end.
Proof.
  pose proof (upload_all_files_events U files total_elapsed c) as Hrun.
  destruct (upload_all_files U files total_elapsed c) as [[outcome c'] evs].
  destruct outcome as [|e|results summary raised_after];
    try (now apply quiet_events).
  destruct Hrun as (c0 & evs2 & _ & _ & _ & Hquiet & ->).
  change (opened_files (EvQuery ?q ?b :: ?l)) with (opened_files l).
  rewrite opened_files_app.
  rewrite (proj1 (upload_files_events U files c0)).
  rewrite (proj1 (quiet_events evs2 Hquiet)). apply app_nil_r.
Qed.

Lemma sum_all_split (results : list FileResult) :
  sum_all_rows_uploaded results
  = sum_successful Metrics.rows_uploaded results + sum_failed results.
Proof.
  unfold sum_all_rows_uploaded, sum_successful, sum_failed.
  induction results as [|[m|e] rs IH]; cbn [map zsum fold_right result_rows_uploaded];
    [reflexivity| |]; unfold zsum in IH; lia.
Qed.

(** X14. In a run that completes, the rows that the server accepted are
    the sum of [rows_uploaded] over all the results, failed files
    included; the total that the summary prints is this number less what
    the failed files had uploaded before they failed.  This does not
    depend on what [display_summary] does after printing. *)
Theorem accepted_rows_are_accounted_for
    {C : Type} `{ClickHouse C} (U : Uploader) (files : list ParquetFile)
    (total_elapsed : float64) (c c' : C) (results : list FileResult)
    (summary : RunSummary) (raised_after : option Exn) (evs : list Event) :
  upload_all_files U files total_elapsed c
  = (Completed results summary raised_after, c', evs) ->
  inserted_rows evs = sum_all_rows_uploaded results /\
  total_rows_uploaded summary = inserted_rows evs - sum_failed results.
Proof.
  intros Hrun.
  pose proof (upload_all_files_events U files total_elapsed c) as Hev.
  rewrite Hrun in Hev.
  destruct Hev as (c0 & evs2 & _ & -> & -> & Hquiet & ->).
  rewrite inserted_rows_cons, inserted_rows_app. cbn [inserted_rows_of].
  rewrite (proj2 (upload_files_events U files c0)).
  rewrite (proj2 (quiet_events evs2 Hquiet)).
  set (results := fst (fst (upload_files U files c0))).
  unfold summarize. cbn [total_rows_uploaded].
  pose proof (sum_all_split results). lia.
Qed.

Lemma accepted_rows_are_accounted_for_witness :
  exists results summary c' evs,
    upload_all_files yellow
      [Scenario.file_a; Scenario.file_b; Scenario.file_c]
      Scenario.two_seconds (Scenario.server [true; true; false])
    = (Completed results summary None, c', evs) /\
    inserted_rows evs = 4 /\
    inserted_rows evs = sum_all_rows_uploaded results /\
    total_rows_uploaded summary = inserted_rows evs - sum_failed results.
Proof.
  do 4 eexists. split; [vm_compute; reflexivity|]. split; [reflexivity|].
  eapply (accepted_rows_are_accounted_for yellow
            [Scenario.file_a; Scenario.file_b; Scenario.file_c]
            Scenario.two_seconds (Scenario.server [true; true; false])
            _ _ _ _ _).
  vm_compute. reflexivity.
Defined.

(** ** The totals of a run of one of the two categories *)

Lemma inserted_rows_nonneg (evs : list Event) : 0 <= inserted_rows evs.
Proof.
  induction evs as [|ev evs IH]; [reflexivity|].
  rewrite inserted_rows_cons.
  assert (0 <= inserted_rows_of ev); [|lia].
  destruct ev as [| | |t fl i df [|]|]; cbn [inserted_rows_of]; unfold len; lia.
Qed.

Lemma upload_file_category_bounds {C : Type} `{ClickHouse C}
    (cat : Category) (f : ParquetFile) (c : C) :
  match fst (fst (upload_file (uploader_of cat) f c)) with
  | Success m => 0 <= Metrics.rows_uploaded m <= Metrics.rows_processed m
  | Failed e => 0 <= ErrorRecord.rows_uploaded e
  end.
Proof.
  pose proof (upload_file_events (uploader_of cat) f c) as [_ Hins].
  pose proof (inserted_rows_nonneg (snd (upload_file (uploader_of cat) f c)))
    as Hpos.
  destruct (upload_file (uploader_of cat) f c) as [[[m|e] c'] evs] eqn:Hup;
    cbn [fst snd result_rows_uploaded] in *; [|lia].
  apply upload_file_succeeded in Hup. destruct Hup as (groups & _ & Hnone & Hm).
  destruct (upload_batches_success (uploader_of cat) (file_name f) groups 0
              counters0 c Hnone) as (batches & outs & _ & HF & Hp & Hu & _).
  destruct (sums_of_transformed cat batches outs HF) as (H0 & Hrej & Hrej0).
  change (total_processed counters0) with 0 in Hp.
  change (total_uploaded counters0) with 0 in Hu.
  subst m. cbv zeta in *.
  cbn [Metrics.rows_uploaded Metrics.rows_processed] in *. lia.
Qed.

Lemma upload_files_category_bounds {C : Type} `{ClickHouse C}
    (cat : Category) (files : list ParquetFile) :
  forall c : C,
    let results := fst (fst (upload_files (uploader_of cat) files c)) in
    0 <= sum_successful Metrics.rows_uploaded results
      <= sum_successful Metrics.rows_processed results /\
    0 <= sum_failed results.
Proof.
  induction files as [|f rest IH]; intros c; cbn [upload_files];
    [cbn; lia|].
  pose proof (upload_file_category_bounds cat f c) as Hf.
  destruct (upload_file (uploader_of cat) f c) as [[r c1] evs1]. cbn [fst] in Hf.
  specialize (IH c1).
  destruct (upload_files (uploader_of cat) rest c1) as [[rs c2] evs2].
  cbv zeta in *. cbn [fst] in *.
  unfold sum_successful, sum_failed in *.
  destruct r as [m|e]; cbn [fold_right]; lia.
Qed.

(** X15. In a yellow or green run that completes, the printed totals are
    ordered: no more rows uploaded than processed, no negative count of
    filtered rows, and no more rows reported as uploaded than the server
    has accepted. *)
Theorem category_run_totals_are_ordered
    {C : Type} `{ClickHouse C} (cat : Category) (files : list ParquetFile)
    (total_elapsed : float64) (c c' : C) (results : list FileResult)
    (summary : RunSummary) (raised_after : option Exn) (evs : list Event) :
  upload_all_files (uploader_of cat) files total_elapsed c
  = (Completed results summary raised_after, c', evs) ->
  0 <= total_rows_uploaded summary <= total_rows_processed summary /\
  0 <= total_rows_filtered summary /\
  total_rows_uploaded summary <= inserted_rows evs.
Proof.
  intros Hrun.
  pose proof (upload_all_files_events (uploader_of cat) files total_elapsed c)
    as Hev.
  rewrite Hrun in Hev.
  destruct Hev as (c0 & evs2 & _ & -> & -> & Hquiet & ->).
  destruct (upload_files_category_bounds cat files c0) as [Hup Hfail].
  rewrite inserted_rows_cons, inserted_rows_app. cbn [inserted_rows_of].
  rewrite (proj2 (upload_files_events (uploader_of cat) files c0)).
  rewrite (proj2 (quiet_events evs2 Hquiet)).
  set (results := fst (fst (upload_files (uploader_of cat) files c0))) in *.
  cbv zeta in Hup, Hfail.
  unfold summarize.
  cbn [total_rows_uploaded total_rows_processed total_rows_filtered].
  pose proof (sum_all_split results). lia.
Qed.

Lemma category_run_totals_are_ordered_witness :
  exists results summary c' evs,
    upload_all_files (uploader_of Yellow)
      [Scenario.file_a; Scenario.file_b; Scenario.file_c]
      Scenario.two_seconds (Scenario.server [true; true; false])
    = (Completed results summary None, c', evs) /\
    total_rows_uploaded summary <= inserted_rows evs.
Proof.
  do 4 eexists. split; [vm_compute; reflexivity|].
  eapply (category_run_totals_are_ordered Yellow
            [Scenario.file_a; Scenario.file_b; Scenario.file_c]
            Scenario.two_seconds (Scenario.server [true; true; false])
            _ _ _ _ _).
  vm_compute. reflexivity.
Defined.

(** ** What a run inserts *)

Lemma insertion_of_run_more (U : Uploader) (files more : list ParquetFile)
    (ev : Event) :
  (forall f, In f files -> In f more) ->
  insertion_of_run U files ev -> insertion_of_run U more ev.
Proof.
  intros Hsub. destruct ev; cbn [insertion_of_run]; try tauto.
  intros (Ht & Hlen & f & groups & batch & Hin & Hrest).
  split; [exact Ht|]. split; [exact Hlen|].
  exists f, groups, batch. split; [now apply Hsub | exact Hrest].
Qed.

Lemma upload_file_insertions {C : Type} `{ClickHouse C} (U : Uploader)
    (f : ParquetFile) (c : C) :
  Forall (insertion_of_run U [f]) (snd (upload_file U f c)).
Proof.
  destruct (row_groups f) as [groups|e] eqn:Hg.
  - rewrite (upload_file_opened U f c groups Hg). cbv zeta. cbn [snd].
    constructor; [exact I|]. apply Forall_forall. intros ev Hin.
    destruct ev as [| | |t fl i df ok|]; try exact I.
    apply (upload_batches_insertions U (file_name f) groups 0 counters0 c) in Hin.
    destruct Hin as (-> & -> & _ & batch & Hnth & Ht & Hlen).
    rewrite Nat.sub_0_r in Hnth. cbn [insertion_of_run].
    split; [reflexivity|]. split; [exact Hlen|].
    exists f, groups, batch. repeat split; try assumption. now left.
  - unfold upload_file. rewrite Hg. cbn [snd]. repeat constructor.
Qed.

Lemma upload_files_insertions {C : Type} `{ClickHouse C} (U : Uploader)
    (files : list ParquetFile) :
  forall c : C, Forall (insertion_of_run U files) (snd (upload_files U files c)).
Proof.
  induction files as [|f rest IH]; intros c; cbn [upload_files]; [constructor|].
  pose proof (upload_file_insertions U f c) as Hf.
  destruct (upload_file U f c) as [[r c1] evs1]. cbn [snd] in Hf.
  specialize (IH c1).
  destruct (upload_files U rest c1) as [[rs c2] evs2]. cbn [snd] in *.
  apply Forall_app. split.
  - eapply Forall_impl; [|exact Hf]. intros ev.
    apply insertion_of_run_more. intros f' [<-|[]]. now left.
  - eapply Forall_impl; [|exact IH]. intros ev.
    apply insertion_of_run_more. intros f' Hin. now right.
Qed.

(** X16. Whatever the files and the client, a run inserts only into the
    table of its uploader, and only the transformed batch of a row group
    of one of its files, never an empty one; the queries of the table
    check and of the verification insert nothing. *)
Theorem run_inserts_only_accepted_batches
    {C : Type} `{ClickHouse C} (U : Uploader) (files : list ParquetFile)
    (total_elapsed : float64) (c : C) :
  Forall (insertion_of_run U files)
         (snd (upload_all_files U files total_elapsed c)).
Proof.
  pose proof (upload_all_files_events U files total_elapsed c) as Hrun.
  destruct (upload_all_files U files total_elapsed c) as [[outcome c'] evs].
  cbn [snd].
  assert (Hquiet_ok : forall l,
             Forall (fun ev => is_processing ev = false) l ->
             Forall (insertion_of_run U files) l).
  { intros l Hl. eapply Forall_impl; [|exact Hl].
    intros ev Hev. destruct ev; try discriminate. exact I. }
  destruct outcome as [|e|results summary raised_after];
    try (now apply Hquiet_ok).
  destruct Hrun as (c0 & evs2 & _ & _ & _ & Hquiet & ->).
  constructor; [exact I|]. apply Forall_app. split.
  - apply upload_files_insertions.
  - now apply Hquiet_ok.
Qed.

(** ** The settings of the connection *)

Lemma prefix_append (sub s : string) :
  String.prefix sub s = true <-> exists post, s = (sub ++ post)%string.
Proof.
  revert s. induction sub as [|a sub IH]; intros s.
  - destruct s; cbn; split; eauto.
  - destruct s as [|b s]; cbn [String.prefix].
    + split; [discriminate | intros [post Hpost]; discriminate].
    + destruct (ascii_dec a b) as [<-|Hne].
      * rewrite IH. split; intros [post Hpost]; exists post.
        -- cbn. now rewrite Hpost.
        -- cbn in Hpost. now injection Hpost.
      * split; [discriminate|]. intros [post Hpost]. cbn in Hpost.
        injection Hpost as Hab _. congruence.
Qed.

(** [contains] is the substring test. *)
Lemma contains_substring (sub s : string) :
  contains sub s = true <->
  exists pre post, s = (pre ++ sub ++ post)%string.
Proof.
  induction s as [|c s IH]; cbn [contains].
  - rewrite orb_false_r, prefix_append. split.
    + intros [post Hpost]. now exists EmptyString, post.
    + intros (pre & post & Hs). destruct pre as [|a pre]; [|discriminate].
      now exists post.
  - rewrite orb_true_iff, prefix_append, IH. split.
    + intros [[post Hpost] | (pre & post & Hs)].
      * now exists EmptyString, post.
      * exists (String c pre), post. cbn. now rewrite Hs.
    + intros (pre & post & Hs). destruct pre as [|a pre].
      * left. now exists post.
      * right. exists pre, post. cbn in Hs. now injection Hs.
Qed.

Lemma lstrip_slashes (s : string) :
  (forall rest, lstrip "/"%char s <> String "/"%char rest) /\
  exists n, s = (slashes n ++ lstrip "/"%char s)%string.
Proof.
  induction s as [|c s [IHhead [n IHn]]]; cbn [lstrip].
  - split; [discriminate | now exists O].
  - destruct (Ascii.eqb_spec c "/"%char) as [->|Hne].
    + split; [exact IHhead|]. exists (S n). cbn. now rewrite <- IHn.
    + split; [intros rest [= Hc _]; contradiction | now exists O].
Qed.

(** X17. The settings that [_create_client] passes on: the database is
    the path without its leading slashes, or ["default"] when nothing is
    left, so it is never empty and never starts with a slash; the port is
    never 0, a missing port or a port 0 being replaced by 8123; and the
    connection is secure exactly when the query string contains
    [secure=true] or the port, after this replacement, is 8443. *)
Theorem client_settings_normalised (parsed : Url.t) :
  let settings := client_settings parsed in
  Settings.database settings <> EmptyString /\
  (forall rest, Settings.database settings <> String "/"%char rest) /\
  (exists n,
      Url.path parsed = slashes n /\ Settings.database settings = "default" \/
      Url.path parsed = (slashes n ++ Settings.database settings)%string) /\
  Settings.port settings <> 0 /\
  (Url.port parsed = None \/ Url.port parsed = Some 0 ->
   Settings.port settings = 8123) /\
  (forall p, Url.port parsed = Some p -> p <> 0 -> Settings.port settings = p) /\
  (Settings.secure settings = true <->
   (exists pre post, Url.query parsed = (pre ++ "secure=true" ++ post)%string) \/
   Settings.port settings = 8443).
Proof.
  cbv zeta. unfold client_settings.
  cbn [Settings.database Settings.port Settings.secure].
  destruct (lstrip_slashes (Url.path parsed)) as [Hhead [n Hn]].
  split; [|split; [|split; [|split; [|split; [|split]]]]].
  - destruct (lstrip "/"%char (Url.path parsed)); cbn; discriminate.
  - destruct (lstrip "/"%char (Url.path parsed)) as [|a s] eqn:E;
      cbn [str_or]; [discriminate | exact Hhead].
  - exists n. destruct (lstrip "/"%char (Url.path parsed)) as [|a s] eqn:E;
      cbn [str_or].
    + left. split; [|reflexivity]. rewrite Hn at 1.
      clear. induction n; cbn; [reflexivity | now f_equal].
    + right. exact Hn.
  - unfold port_or. destruct (Url.port parsed) as [p|]; [|discriminate].
    destruct (Z.eqb_spec p 0); [discriminate | assumption].
  - intros [-> | ->]; reflexivity.
  - intros p -> Hp. unfold port_or.
    destruct (Z.eqb_spec p 0); [contradiction | reflexivity].
  - rewrite orb_true_iff, contains_substring, Z.eqb_eq. reflexivity.
Qed.

(** ** [_standardize_columns] and the inline renaming *)

Lemma standardize_label_cons (old_name new_name : string) (rest : dict string)
    (col : string) :
  standardize_label ((old_name, new_name) :: rest) col
  = standardize_label rest (if String.eqb col old_name then new_name else col).
Proof. reflexivity. Qed.

Lemma settled_dict_get (mappings : dict string) :
  settled mappings = true ->
  forall col, standardize_label mappings col = dict_get mappings col col.
Proof.
  induction mappings as [|[old_name new_name] rest IH]; intros Hs col.
  - reflexivity.
  - cbn [settled] in Hs. apply andb_true_iff in Hs. destruct Hs as [Hnew Hrest].
    apply String.eqb_eq in Hnew.
    rewrite standardize_label_cons. unfold dict_get. cbn [dict_lookup].
    rewrite (String.eqb_sym old_name col).
    destruct (String.eqb col old_name); [exact Hnew|].
    apply (IH Hrest).
Qed.

(** X18. On the mapping of either category, [_standardize_columns], which
    renames one alias after the other, gives the labels that the renaming
    written out in [transform_batch] gives, whatever the labels of the
    frame. *)
Theorem standardize_columns_is_the_inline_renaming
    (cat : Category) (cols : list string) :
  _standardize_columns cols (column_mappings_of cat)
  = rename_columns (column_mappings_of cat) cols.
Proof.
  rewrite standardize_columns_map. unfold rename_columns.
  apply map_ext. intros col. apply settled_dict_get.
  destruct cat; vm_compute; reflexivity.
Qed.

(** ** The summary and the clock *)

(** X19. A run that gets past the table check handles every file and
    prints the totals whatever the clock says.  When the two readings of
    the clock around the loop are equal, the overall speed divides by
    zero: the run ends with [ZeroDivisionError], the client stays as the
    last file left it and no verification query is sent.  Otherwise
    nothing is raised, and the query that counts the rows of the table is
    sent right after the last file. *)
Theorem summary_divides_by_elapsed_time
    {C : Type} `{ClickHouse C} (U : Uploader) (files : list ParquetFile)
    (total_elapsed : float64) (c c0 : C) :
  files <> [] ->
  query c (SelectOne (table_name U)) = (c0, None) ->
  let '(results, c1, evs1) := upload_files U files c0 in
  let '(outcome, c', evs) := upload_all_files U files total_elapsed c in
  (is_zero total_elapsed = true ->
   outcome = Completed results (summarize results) (Some ZeroDivisionError) /\
   c' = c1 /\
   evs = EvQuery (SelectOne (table_name U)) true :: evs1) /\
  (is_zero total_elapsed = false ->
   outcome = Completed results (summarize results) None /\
   exists ok rest,
     evs = EvQuery (SelectOne (table_name U)) true
             :: evs1 ++ EvQuery (CountRows (table_name U)) ok :: rest).
Proof.
  intros Hfiles Hq. unfold upload_all_files.
  destruct files as [|f rest]; [congruence|]. rewrite Hq.
  destruct (upload_files U (f :: rest) c0) as [[results c1] evs1].
  unfold display_summary. destruct (is_zero total_elapsed).
  - split; [|discriminate]. intros _. rewrite app_nil_r. now repeat split.
  - destruct (query c1 (CountRows (table_name U))) as [c2 [e|]].
    + split; [discriminate|]. intros _. split; [reflexivity|].
      now exists false, [].
    + destruct (query c2 (DateStats (table_name U))) as [c3 err2].
      split; [discriminate|]. intros _. split; [reflexivity|].
      now exists true, [EvQuery (DateStats (table_name U)) (is_null err2)].
Qed.

Lemma summary_divides_by_elapsed_time_witness :
  exists results summary c' evs,
    upload_all_files yellow [Scenario.file_a; Scenario.corrupt]
      Scenario.no_time (Scenario.server [])
    = (Completed results summary (Some ZeroDivisionError), c', evs) /\
    map has_error results = [false; true] /\
    total_rows_uploaded summary = 1 /\
    Forall (fun ev => match ev with
                      | EvQuery (CountRows _) _ | EvQuery (DateStats _) _ => False
                      | _ => True
                      end) evs.
Proof.
  pose proof (summary_divides_by_elapsed_time yellow
                [Scenario.file_a; Scenario.corrupt] Scenario.no_time
                (Scenario.server []) (Scenario.server [])
                ltac:(discriminate) eq_refl) as Hw.
  destruct (upload_files yellow [Scenario.file_a; Scenario.corrupt]
              (Scenario.server [])) as [[results c1] evs1] eqn:Efiles.
  destruct (upload_all_files yellow [Scenario.file_a; Scenario.corrupt]
              Scenario.no_time (Scenario.server [])) as [[outcome c'] evs].
  destruct Hw as [Hzero _]. destruct (Hzero eq_refl) as (-> & -> & ->).
  vm_compute in Efiles. injection Efiles as <- <- <-.
  do 4 eexists. split; [reflexivity|].
  split; [reflexivity|]. split; [reflexivity|].
  repeat constructor.
Defined.
